(** * The field container of yt: registry, aliases, fallback chain, validation

    A shallow embedding of [yt/fields/field_info_container.py].  The class
    [FieldInfoContainer] is a [dict] subclass, so the development follows the
    Python text: the dictionary is an association list in insertion order,
    methods that mutate [self], the dataset [self.ds] or the logger are
    computations in a state-and-exception monad, and a raised exception is a
    result of its own that keeps the state reached when it was raised.

    Collaborators that live in other modules of the package ([DerivedField],
    [Unit], the field detector behind [get_dependencies], the plugin routines)
    are represented by the data the container reads from them. *)

From Stdlib Require Import String Ascii List Bool Arith Lia.
From Stdlib Require Import Permutation Sorted OrdersEx RelationClasses.
From Stdlib Require BinNat.
Import ListNotations.

Local Open Scope string_scope.
Local Open Scope list_scope.

Set Implicit Arguments.

(* ===================================================================== *)
(** ** Python values used by the container *)
(* ===================================================================== *)

Module Py.

(** [s[-2:]]: the last two characters, the whole string when it is shorter. *)
Definition last2 (s : string) : string :=
  substring (String.length s - 2) 2 s.

(** [s[:-2]]: everything but the last two characters. *)
Definition but_last2 (s : string) : string :=
  substring 0 (String.length s - 2) s.

(** [f"{a}_{b}"] *)
Definition fmt_suffix (a b : string) : string := (a ++ "_" ++ b)%string.

(** [x in l] for a list or tuple of strings. *)
Definition str_in (x : string) (l : list string) : bool :=
  existsb (String.eqb x) l.

(** [str.lower] on the ASCII letters. *)
Definition lower_ascii (c : ascii) : ascii :=
  let n := nat_of_ascii c in
  if Nat.leb 65 n && Nat.leb n 90 then ascii_of_nat (n + 32) else c.

Fixpoint lower (s : string) : string :=
  match s with
  | EmptyString => EmptyString
  | String c s' => String (lower_ascii c) (lower s')
  end.

(** The characters of a [str].  A string is held as its UTF-8 text, in
    which a character is one byte that is not a continuation byte
    ([10xxxxxx]) and the continuation bytes that follow it; indexing and
    unpacking count characters, not bytes. *)
Definition is_continuation (c : ascii) : bool :=
  let n := nat_of_ascii c in Nat.leb 128 n && Nat.ltb n 192.

Fixpoint chars (s : string) : list string :=
  match s with
  | EmptyString => []
  | String c s' =>
      let rest := chars s' in
      match s' with
      | String c' _ =>
          if is_continuation c' then
            match rest with
            | g :: rest' => String c g :: rest'
            | [] => [String c EmptyString]
            end
          else String c EmptyString :: rest
      | EmptyString => String c EmptyString :: rest
      end
  end.

(** [a < b] on tuples of two strings: the first differing component decides. *)
Definition tuple_ltb (a b : string * string) : bool :=
  if String.eqb (fst a) (fst b) then String.ltb (snd a) (snd b)
  else String.ltb (fst a) (fst b).

(** [sorted]: a stable sort that only asks [<], as Python's does.  An
    element goes in front of the first one that is not smaller than it. *)
Section Sorted.
Variable A : Type.
Variable ltb : A -> A -> bool.

Fixpoint insert (x : A) (l : list A) : list A :=
    match l with
    | [] => [x]
    | y :: l' => if ltb y x then y :: insert x l' else x :: y :: l'
    end.

Definition sorted (l : list A) : list A := fold_right insert [] l.
End Sorted.

(** [sorted(l, key=key)] *)
Definition sorted_key (A K : Type) (key : A -> K) (ltb : K -> K -> bool)
    (l : list A) : list A :=
  sorted (fun a b => ltb (key a) (key b)) l.

End Py.

(** A field key as the container meets it: a bare name, or the tuple
    [(ftype, fname)]. *)
Inductive FieldKey : Type :=
| Bare (fname : string)
| Tup (ftype fname : string).

Definition FieldKey_eq_dec (a b : FieldKey) : {a = b} + {a <> b}.
Proof. decide equality; apply string_dec. Defined.

Definition FieldKey_eqb (a b : FieldKey) : bool :=
  match a, b with
  | Bare x, Bare y => String.eqb x y
  | Tup c x, Tup d y => String.eqb c d && String.eqb x y
  | _, _ => false
  end.

Definition key_in (k : FieldKey) (l : list FieldKey) : bool :=
  existsb (FieldKey_eqb k) l.

Definition isinstance_tuple (k : FieldKey) : bool :=
  match k with Tup _ _ => true | Bare _ => false end.

(** [tupleize]: a tuple is returned as it is, a bare name gets the ['?']
    prefix. *)
Definition tupleize (inp : FieldKey) : string * string :=
  match inp with
  | Tup ftype fname => (ftype, fname)
  | Bare fname => ("?", fname)
  end.

(** ** Dictionaries

    A [dict] keeps its keys in insertion order; assigning to a key that is
    present replaces the value in place. *)
Module Dict.
Section Ops.
Variables K V : Type.
Variable eqb : K -> K -> bool.

Definition t := list (K * V).

Fixpoint get (k : K) (d : t) : option V :=
    match d with
    | [] => None
    | (k', v) :: d' => if eqb k k' then Some v else get k d'
    end.

Definition mem (k : K) (d : t) : bool :=
    match get k d with Some _ => true | None => false end.

Fixpoint set (k : K) (v : V) (d : t) : t :=
    match d with
    | [] => [(k, v)]
    | (k', v') :: d' =>
        if eqb k k' then (k', v) :: d' else (k', v') :: set k v d'
    end.

Definition remove (k : K) (d : t) : t :=
    filter (fun kv => negb (eqb k (fst kv))) d.

Definition keys (d : t) : list K := map fst d.

  (** [dict(pairs)]: later pairs win. *)
Definition of_pairs (l : list (K * V)) : t :=
    fold_left (fun d kv => set (fst kv) (snd kv) d) l [].
End Ops.
End Dict.

(* ===================================================================== *)
(** ** Data model *)
(* ===================================================================== *)

(** The callable of a field: the [NullFunc] sentinel of on-disk fields, a
    [TranslationFunc] of an alias, or a function of a plugin or of the user,
    told apart by an identifier. *)
Inductive FieldFunction : Type :=
| NullFunc
| TranslationFunc (original_name : FieldKey)
| Function (id : nat).

(** A value of [ds.field_units], of the types [setup_fluid_aliases] tells
    apart: a unit string; a number ([numeric_type], [np.number]), of which
    the container only observes [units == 1.0] and its text in an f-string;
    or an array ([np.ndarray]), of which it observes the truth values of
    [units != 1.0] and of [units == 1.0] and its text.  The truth value of
    a comparison of an array is a boolean, or the [ValueError] that [bool]
    raises on an array it cannot decide, given by its message. *)
Inductive Units : Type :=
| UStr (s : string)
| UNum (is_one : bool) (text : string)
| UArr (ne_one eq_one : bool + string) (text : string).

(** The keyword arguments the container passes on to [DerivedField]. *)
Record Kwargs : Type := mkKwargs {
  kw_units : Units;
  kw_display_name : option string;
  kw_particle_type : bool;
  kw_validators : list nat
}.

(** [DerivedField(name, sampling_type, function, **kwargs)], with the
    attributes the container reads back. *)
Record DerivedField : Type := mkDerivedField {
  df_name : FieldKey;
  df_sampling_type : string;
  df_function : FieldFunction;
  df_kwargs : Kwargs
}.

Definition df_units (d : DerivedField) : Units := kw_units (df_kwargs d).
Definition df_display_name (d : DerivedField) : option string :=
  kw_display_name (df_kwargs d).

(** The detector returned by [get_dependencies]; the container only touches
    its [requested] attribute. *)
Record FieldDetector : Type := mkFieldDetector {
  requested : list FieldKey
}.

(** The arguments of the [KeyError]s the container can meet. *)
Inductive KeyErrorArg : Type :=
| NoFieldNamed (key : FieldKey)   (* f"No field named {key}" *)
| MissingKey (key : FieldKey)     (* dict.pop(key) on an absent key *)
| MissingName (n : string).       (* field_plugins[n] on an absent name *)

(** [TypeError_unorderable] is the [TypeError] of [<] between a string and
    a tuple that [sorted] raises on a list that mixes them: its message
    names the two types in the order in which the sort happened to compare
    them, which is the interpreter's affair. *)
Inductive Exc : Type :=
| KeyError (arg : KeyErrorArg)
| TypeError (msg : string)
| TypeError_unorderable
| ValueError (msg : string)
| RuntimeError (msg : string)
| IndexError (msg : string)
| RecursionError
| YTFieldNotFound (fname : FieldKey)
| OtherException (cls : string).

(** [isinstance(e, YTFieldNotFound)] *)
Definition is_YTFieldNotFound (e : Exc) : bool :=
  match e with YTFieldNotFound _ => true | _ => false end.

(** What [fi.get_dependencies(ds=self.ds)] does: it raises, or it returns a
    detector. *)
Inductive DepOutcome : Type :=
| Raises (e : Exc)
| Detected (fd : FieldDetector).

(** An entry of [known_other_fields]: [(units, aliases, display_name)]. *)
Definition KnownField : Type := (string * list string * option string)%type.

(** The dataset, as far as the container reads and writes it.
    [geometry_is_curvilinear] is [is_curvilinear(ds.geometry)];
    [unit_system_units u] is [None] when [Unit(u).dimensions] is
    dimensionless and otherwise the text of [ds.unit_system[dimensions]];
    [get_dependencies] is the dry run of a field definition against this
    dataset; [_field_test_dataset] is [hasattr(ds, "_field_test_dataset")]. *)
Record Dataset : Type := mkDataset {
  geometry_is_curvilinear : bool;
  particle_types : list string;
  field_units : Dict.t FieldKey Units;
  axis_order : list string;
  default_fluid_type : string;
  unit_system_units : Units -> option string;
  get_dependencies : DerivedField -> DepOutcome;
  _field_test_dataset : bool;
  derived_field_list : list FieldKey;
  field_dependencies : Dict.t FieldKey FieldDetector
}.

Definition set_derived_field_list (l : list FieldKey) (d : Dataset) : Dataset :=
  mkDataset (geometry_is_curvilinear d) (particle_types d) (field_units d)
    (axis_order d) (default_fluid_type d) (unit_system_units d)
    (get_dependencies d) (_field_test_dataset d) l (field_dependencies d).

Definition set_field_dependencies (m : Dict.t FieldKey FieldDetector)
    (d : Dataset) : Dataset :=
  mkDataset (geometry_is_curvilinear d) (particle_types d) (field_units d)
    (axis_order d) (default_fluid_type d) (unit_system_units d)
    (get_dependencies d) (_field_test_dataset d) (derived_field_list d) m.

(** The container: the dictionary itself ([items]) and the attributes set
    by the class body and by [__init__]. *)
#[warnings="-register-all"] Inductive FieldInfoContainer : Type := mkFieldInfoContainer {
  items : Dict.t FieldKey DerivedField;
  fallback : option FieldInfoContainer;
  known_other_fields : list (string * KnownField);
  _show_field_errors : list FieldKey;
  ds : Dataset;
  field_list : list FieldKey;
  slice_info : option nat;
  field_aliases : Dict.t FieldKey FieldKey;
  species_names : list string;
  curvilinear : bool
}.

Definition set_items (d : Dict.t FieldKey DerivedField)
    (r : FieldInfoContainer) : FieldInfoContainer :=
  mkFieldInfoContainer d (fallback r) (known_other_fields r)
    (_show_field_errors r) (ds r) (field_list r) (slice_info r)
    (field_aliases r) (species_names r) (curvilinear r).

Definition set_ds (d : Dataset) (r : FieldInfoContainer) : FieldInfoContainer :=
  mkFieldInfoContainer (items r) (fallback r) (known_other_fields r)
    (_show_field_errors r) d (field_list r) (slice_info r)
    (field_aliases r) (species_names r) (curvilinear r).

Definition set_field_aliases (a : Dict.t FieldKey FieldKey)
    (r : FieldInfoContainer) : FieldInfoContainer :=
  mkFieldInfoContainer (items r) (fallback r) (known_other_fields r)
    (_show_field_errors r) (ds r) (field_list r) (slice_info r)
    a (species_names r) (curvilinear r).

(** A record of the logger [mylog]: level, format string, arguments. *)
Inductive LogArg : Type :=
| LStr (s : string)
| LKey (k : FieldKey)
| LKeys (ks : list FieldKey)
| LExcType (e : Exc)
| LNat (n : nat).

Inductive LogRecord : Type :=
| Debug (fmt : string) (args : list LogArg)
| Warning (fmt : string) (args : list LogArg).

(** ** The monad of the methods: state of [self] and of the logger, and
    exceptions that keep the state. *)
Record State : Type := mkState {
  self : FieldInfoContainer;
  mylog : list LogRecord
}.

Inductive Res (A : Type) : Type :=
| Ok (a : A)
| Raise (e : Exc).
Arguments Ok {A} a.
Arguments Raise {A} e.

Definition M (A : Type) : Type := State -> Res A * State.

Definition ret {A : Type} (a : A) : M A := fun s => (Ok a, s).

Definition bind {A B : Type} (m : M A) (k : A -> M B) : M B :=
  fun s =>
    match m s with
    | (Ok a, s') => k a s'
    | (Raise e, s') => (Raise e, s')
    end.

Definition raise {A : Type} (e : Exc) : M A := fun s => (Raise e, s).

Definition lift {A : Type} (r : Res A) : M A := fun s => (r, s).

Definition gets {A : Type} (f : FieldInfoContainer -> A) : M A :=
  fun s => (Ok (f (self s)), s).

Definition modify (f : FieldInfoContainer -> FieldInfoContainer) : M unit :=
  fun s => (Ok tt, mkState (f (self s)) (mylog s)).

Definition log (r : LogRecord) : M unit :=
  fun s => (Ok tt, mkState (self s) (mylog s ++ [r])).

Declare Scope py_scope.
Delimit Scope py_scope with py.
Notation "x <- c ;; k" := (bind c (fun x => k))
  (at level 61, c at next level, right associativity) : py_scope.
Notation "c ;;; k" := (bind c (fun _ => k))
  (at level 61, right associativity) : py_scope.
Local Open Scope py_scope.

(** [for x in l: body], threading the loop's local variables. *)
Fixpoint for_each {A B : Type} (l : list A) (body : A -> B -> M B) (acc : B)
    : M B :=
  match l with
  | [] => ret acc
  | x :: l' => acc' <- body x acc ;; for_each l' body acc'
  end.

(* ===================================================================== *)
(** ** Lookup, containment, iteration *)
(* ===================================================================== *)

(** [self[key]]: the dictionary's own lookup, with the [__missing__] hook
    on a miss. *)
Fixpoint __getitem__ (r : FieldInfoContainer) (key : FieldKey)
    : Res DerivedField :=
  match Dict.get FieldKey_eqb key (items r) with
  | Some v => Ok v
  | None =>
      match fallback r with
      | None => Raise (KeyError (NoFieldNamed key))
      | Some fb => __getitem__ fb key
      end
  end.

Definition __missing__ (r : FieldInfoContainer) (key : FieldKey)
    : Res DerivedField :=
  match fallback r with
  | None => Raise (KeyError (NoFieldNamed key))
  | Some fb => __getitem__ fb key
  end.

(** [key in self] *)
Fixpoint __contains__ (r : FieldInfoContainer) (key : FieldKey) : bool :=
  if Dict.mem FieldKey_eqb key (items r) then true
  else match fallback r with
       | None => false
       | Some fb => __contains__ fb key
       end.

Definition has_key (r : FieldInfoContainer) (key : FieldKey) : bool :=
  if __contains__ r key then true
  else match fallback r with
       | None => false
       | Some fb => __contains__ fb key
       end.

(** [for f in self]: the keys the generator yields. *)
Fixpoint __iter__ (r : FieldInfoContainer) : list FieldKey :=
  Dict.keys (items r) ++
  match fallback r with
  | None => []
  | Some fb => __iter__ fb
  end.

(** [bool(container)]: a [dict] subclass with no [__bool__] or [__len__] of
    its own is true when its own dictionary is not empty. *)
Definition truthy (r : FieldInfoContainer) : bool :=
  match items r with [] => false | _ :: _ => true end.

(** What [dict.keys(self)] returns: a view of the keys, not a list. *)
Inductive KeysValue : Type :=
| dict_keys (ks : list FieldKey).

(** [list(view)] *)
Definition list_of_keys (v : KeysValue) : list FieldKey :=
  match v with dict_keys ks => ks end.

(** [view += list]: a [dict_keys] view has neither [__iadd__] nor [__add__],
    and a list has no [__radd__]. *)
Definition iadd_list (v : KeysValue) (l : list FieldKey) : Res KeysValue :=
  match v with
  | dict_keys _ =>
      Raise (TypeError
        "unsupported operand type(s) for +=: 'dict_keys' and 'list'")
  end.

Fixpoint keys (r : FieldInfoContainer) : Res KeysValue :=
  let keys0 := dict_keys (Dict.keys (items r)) in
  match fallback r with
  | Some fb =>
      if truthy fb then
        match keys fb with
        | Ok fk => iadd_list keys0 (list_of_keys fk)
        | Raise e => Raise e
        end
      else Ok keys0
  | None => Ok keys0
  end.

(** [self.pop(key)]: [dict.pop] works on the container's own dictionary. *)
Definition pop (key : FieldKey) : M DerivedField :=
  fun s =>
    match Dict.get FieldKey_eqb key (items (self s)) with
    | Some v =>
        (Ok v, mkState (set_items (Dict.remove FieldKey_eqb key (items (self s))) (self s))
                       (mylog s))
    | None => (Raise (KeyError (MissingKey key)), s)
    end.

(** [self[name] = value] *)
Definition __setitem__ (key : FieldKey) (v : DerivedField) : M unit :=
  modify (fun r => set_items (Dict.set FieldKey_eqb key v (items r)) r).

(* ===================================================================== *)
(** ** Registration and aliases *)
(* ===================================================================== *)

(** [issue_deprecation_warning(msg)] *)
Definition issue_deprecation_warning (msg : string) : M unit :=
  log (Warning msg []).

Definition _sanitize_sampling_type (sampling_type : string)
    (particle_type : bool) : M string :=
  let sampling_type := Py.lower sampling_type in
  let acceptable_samplings := ["cell"; "particle"; "local"] in
  if negb (Py.str_in sampling_type acceptable_samplings) then
    raise (ValueError "Invalid sampling type %s. Valid sampling types are %s")
  else
    (if particle_type then
       issue_deprecation_warning
         "'particle_type' keyword argument is deprecated in favour of the positional argument 'sampling_type'." ;;;
       if negb (sampling_type =? "particle") then
         raise (RuntimeError
           "Conflicting values for parameters 'sampling_type' and 'particle_type'.")
       else ret tt
     else ret tt) ;;;
    ret sampling_type.

(** The closures [add_field] returns when used as a decorator. *)
Inductive Decorator : Type :=
| ReturnsArgument
| Registers (name : FieldKey) (sampling_type : string) (kwargs : Kwargs).

(** What [add_field] returns: [None], or [create_function]. *)
Inductive AddFieldReturn : Type :=
| RNone
| RCreateFunction (c : Decorator).

(** Calling the closure [create_function(f)]. *)
Definition create_function (c : Decorator) (f : FieldFunction)
    : M FieldFunction :=
  match c with
  | ReturnsArgument => ret f
  | Registers name sampling_type kwargs =>
      __setitem__ name (mkDerivedField name sampling_type f kwargs) ;;;
      ret f
  end.

(** [add_field] and [alias] call each other; each is written over the other
    one, and the knot is tied below on the depth of the Python call stack. *)
Section OpenRecursion.

Variable alias :
  FieldKey -> FieldKey -> option Units -> M unit.

(** [add_field(name, function, sampling_type, force_override=..., **kwargs)];
    [function] is [None] in the decorator use.  The [ds] that
    [kwargs.setdefault] adds is the dataset of the container. *)
Definition add_field_body (name : FieldKey) (function : option FieldFunction)
    (sampling_type : string) (force_override : bool) (kwargs : Kwargs)
    : M AddFieldReturn :=
  let override := force_override in
  r <- gets (fun r => r) ;;
  if negb override && __contains__ r name then
    match function with
    | None => ret (RCreateFunction ReturnsArgument)
    | Some _ => ret RNone
    end
  else
    match function with
    | None => ret (RCreateFunction (Registers name sampling_type kwargs))
    | Some function =>
        match name with
        | Tup _ _ =>
            __setitem__ name
              (mkDerivedField name sampling_type function kwargs) ;;;
            ret RNone
        | Bare bare =>
            sampling_type <-
              _sanitize_sampling_type sampling_type (kw_particle_type kwargs) ;;
            ftype <- (if sampling_type =? "particle" then ret "all"
                      else gets (fun r => default_fluid_type (ds r))) ;;
            r <- gets (fun r => r) ;;
            if negb (__contains__ r (Tup ftype bare)) then
              let tuple_name := Tup ftype bare in
              __setitem__ tuple_name
                (mkDerivedField tuple_name sampling_type function kwargs) ;;;
              alias name tuple_name None ;;;
              ret RNone
            else
              __setitem__ name
                (mkDerivedField name sampling_type function kwargs) ;;;
              ret RNone
        end
    end.

Variable add_field :
  FieldKey -> option FieldFunction -> string -> bool -> Kwargs ->
  M AddFieldReturn.

Definition alias_body (alias_name original_name : FieldKey)
    (units : option Units) : M unit :=
  r <- gets (fun r => r) ;;
  if negb (__contains__ r original_name) then ret tt
  else
    units <-
      match units with
      | None =>
          orig <- lift (__getitem__ r original_name) ;;
          match unit_system_units (ds r) (df_units orig) with
          | Some u => ret (UStr u)
          | None =>
              orig <- lift (__getitem__ r original_name) ;;
              ret (df_units orig)
          end
      | Some u => ret u
      end ;;
    modify (fun r =>
      set_field_aliases
        (Dict.set FieldKey_eqb alias_name original_name (field_aliases r)) r) ;;;
    r <- gets (fun r => r) ;;
    orig <- lift (__getitem__ r original_name) ;;
    add_field alias_name (Some (TranslationFunc original_name))
      (df_sampling_type orig) false
      (mkKwargs units (df_display_name orig) false []) ;;;
    ret tt.

End OpenRecursion.

(** The depth of the call stack left; Python raises [RecursionError] when it
    is used up. *)
Fixpoint add_field_rec (depth : nat) (name : FieldKey)
    (function : option FieldFunction) (sampling_type : string)
    (force_override : bool) (kwargs : Kwargs) : M AddFieldReturn :=
  match depth with
  | 0 => raise RecursionError
  | S depth' =>
      add_field_body (alias_body (add_field_rec depth'))
        name function sampling_type force_override kwargs
  end.

Definition recursion_limit : nat := 1000.

Definition add_field : FieldKey -> option FieldFunction -> string -> bool ->
    Kwargs -> M AddFieldReturn :=
  add_field_rec recursion_limit.

Definition alias : FieldKey -> FieldKey -> option Units -> M unit :=
  alias_body add_field.

Definition add_output_field (name : FieldKey) (sampling_type : string)
    (kwargs : Kwargs) : M unit :=
  __setitem__ name (mkDerivedField name sampling_type NullFunc kwargs).

(* ===================================================================== *)
(** ** Fluid aliases *)
(* ===================================================================== *)

(** [field[0]] and [field[1]]: the components of a tuple, the characters of
    a bare string. *)
Definition index0 (field : FieldKey) : Res string :=
  match field with
  | Tup ftype _ => Ok ftype
  | Bare s =>
      match Py.chars s with
      | c :: _ => Ok c
      | [] => Raise (IndexError "string index out of range")
      end
  end.

Definition index1 (field : FieldKey) : Res string :=
  match field with
  | Tup _ fname => Ok fname
  | Bare s =>
      match Py.chars s with
      | _ :: c :: _ => Ok c
      | _ => Raise (IndexError "string index out of range")
      end
  end.

Definition FieldKey_ltb (a b : FieldKey) : bool :=
  match a, b with
  | Tup _ _, Tup _ _ => Py.tuple_ltb (tupleize a) (tupleize b)
  | Bare x, Bare y => String.ltb x y
  | _, _ => false
  end.

(** [sorted(self.field_list)]: tuples sort among themselves and strings
    among themselves; a list that mixes them cannot be ordered. *)
Definition sorted_field_list (l : list FieldKey) : Res (list FieldKey) :=
  if forallb isinstance_tuple l || forallb (fun k => negb (isinstance_tuple k)) l
  then Ok (Py.sorted FieldKey_ltb l)
  else Raise TypeError_unorderable.

(** [dict(self.known_other_fields).get(name, ("", [], None))] *)
Definition known_get (known : list (string * KnownField)) (fname : string)
    : KnownField :=
  match Dict.get String.eqb fname (Dict.of_pairs String.eqb known) with
  | Some args => args
  | None => ("", [], None)
  end.

Definition units_of (args : KnownField) : string := fst (fst args).
Definition aliases_of (args : KnownField) : list string := snd (fst args).
Definition display_name_of (args : KnownField) : option string := snd args.

(** Collect the names for all aliases if geometry is curvilinear *)
Definition get_aliases_gallery : M (list string) :=
  r <- gets (fun r => r) ;;
  let aliases_gallery := [] in
  if curvilinear r then
    fields <- lift (sorted_field_list (field_list r)) ;;
    for_each fields
      (fun field aliases_gallery =>
         f0 <- lift (index0 field) ;;
         if Py.str_in f0 (particle_types (ds r)) then ret aliases_gallery
         else
           f1 <- lift (index1 field) ;;
           let args := known_get (known_other_fields r) f1 in
           ret (aliases_gallery ++ aliases_of args))
      aliases_gallery
  else ret aliases_gallery.

Definition dict_get_default {K V : Type} (eqb : K -> K -> bool) (k : K)
    (d : Dict.t K V) (default : V) : V :=
  match Dict.get eqb k d with Some v => v | None => default end.

Definition isinstance_str (u : Units) : bool :=
  match u with UStr _ => true | _ => false end.

(** [isinstance(units, (numeric_type, np.number, np.ndarray))] *)
Definition isinstance_number (u : Units) : bool :=
  match u with UStr _ => false | _ => true end.

(** The truth value of [units != 1.0]. *)
Definition ne_one (u : Units) : bool + string :=
  match u with
  | UStr _ => inl true
  | UNum is_one _ => inl (negb is_one)
  | UArr ne _ _ => ne
  end.

(** The truth value of [units == 1.0]. *)
Definition eq_one (u : Units) : bool + string :=
  match u with
  | UStr _ => inl false
  | UNum is_one _ => inl is_one
  | UArr _ eq _ => eq
  end.

(** A truth value taken by [if] or [and]. *)
Definition truth (t : bool + string) : M bool :=
  match t with
  | inl b => ret b
  | inr msg => raise (ValueError msg)
  end.

(** [f"{units}"] *)
Definition format_units (u : Units) : string :=
  match u with UStr s => s | UNum _ text => text | UArr _ _ text => text end.

(** The loop over the three suffixes: the value of [to_convert] when the
    loop is left, by [break] or at its end. *)
Fixpoint suffix_loop (alias_ : string) (aliases_gallery : list string)
    (suffixes : list string) (to_convert : bool) : bool :=
  match suffixes with
  | [] => to_convert
  | suffix :: suffixes' =>
      if negb (Py.str_in (Py.fmt_suffix (Py.but_last2 alias_) suffix) aliases_gallery)
      then false
      else suffix_loop alias_ aliases_gallery suffixes' to_convert
  end.

(** The [if]/[else] that sets [to_convert] for one alias of a curvilinear
    dataset.  In the [else] branch the assignment [to_convert = True] stands
    after the loop, at the indentation of the [for]. *)
Definition set_to_convert (alias_ : string) (aliases_gallery : list string)
    (to_convert : bool) : bool :=
  if negb (Py.str_in (Py.last2 alias_) ["_x"; "_y"; "_z"]) then false
  else
    let to_convert := suffix_loop alias_ aliases_gallery ["x"; "y"; "z"] to_convert in
    let to_convert := true in
    to_convert.

(** [axis_names[i]] *)
Definition axis_name (axis_names : list string) (i : nat) : Res string :=
  match nth_error axis_names i with
  | Some a => Ok a
  | None => Raise (IndexError "list index out of range")
  end.

(** The renaming of a converted alias. *)
Definition convert_alias (alias_ : string) (axis_names : list string)
    : Res string :=
  if Py.last2 alias_ =? "_x" then
    match axis_name axis_names 0 with
    | Ok a => Ok (Py.fmt_suffix (Py.but_last2 alias_) a)
    | Raise e => Raise e
    end
  else if Py.last2 alias_ =? "_y" then
    match axis_name axis_names 1 with
    | Ok a => Ok (Py.fmt_suffix (Py.but_last2 alias_) a)
    | Raise e => Raise e
    end
  else if Py.last2 alias_ =? "_z" then
    match axis_name axis_names 2 with
    | Ok a => Ok (Py.fmt_suffix (Py.but_last2 alias_) a)
    | Raise e => Raise e
    end
  else Ok alias_.

(** The unit of an on-disk field: the catalog's, overridden by
    [ds.field_units] under the field's name and then under its tuple.  The
    [and] of the second test stops at its first false operand, so that
    [units != 1.0] is only evaluated for a number or an array with an empty
    catalog unit. *)
Definition resolve_units (args : KnownField) (field : FieldKey) (f1 : string)
    (r : FieldInfoContainer) : M Units :=
  let units := UStr (units_of args) in
  let units := dict_get_default FieldKey_eqb (Bare f1) (field_units (ds r)) units in
  let units := dict_get_default FieldKey_eqb field (field_units (ds r)) units in
  let units :=
    if negb (isinstance_str units) && negb (units_of args =? "")
    then UStr ("((" ++ units_of args ++ ")*" ++ format_units units ++ ")")%string
    else units in
  cannot_interpret <-
    (if isinstance_number units && (units_of args =? "")
     then truth (ne_one units)
     else ret false) ;;
  if cannot_interpret
  then
    log (Warning "Cannot interpret units: %s * %s, setting to dimensionless."
           [LStr (format_units units); LStr (units_of args)]) ;;;
    ret (UStr "")
  else
    is_one <- truth (eq_one units) ;;
    if is_one then ret (UStr "") else ret units.

Definition setup_fluid_aliases (ftype : string) : M unit :=
  aliases_gallery <- get_aliases_gallery ;;
  r <- gets (fun r => r) ;;
  fields <- lift (sorted_field_list (field_list r)) ;;
  for_each fields
    (fun field to_convert =>
       if negb (isinstance_tuple field) then raise (RuntimeError "")
       else
         f0 <- lift (index0 field) ;;
         if Py.str_in f0 (particle_types (ds r)) then ret to_convert
         else
           f1 <- lift (index1 field) ;;
           let args := known_get (known_other_fields r) f1 in
           units <- resolve_units args field f1 r ;;
           add_output_field field "cell"
             (mkKwargs units (display_name_of args) false []) ;;;
           let axis_names := axis_order (ds r) in
           for_each (aliases_of args)
             (fun alias_ to_convert =>
                let to_convert :=
                  if curvilinear r
                  then set_to_convert alias_ aliases_gallery to_convert
                  else to_convert in
                alias_ <-
                  (if curvilinear r then
                     if to_convert then lift (convert_alias alias_ axis_names)
                     else ret alias_
                   else ret alias_) ;;
                alias (Tup ftype alias_) field None ;;;
                ret to_convert)
             to_convert)
    false ;;;
  ret tt.

(** [FieldInfoContainer(ds, field_list, slice_info)] of the subclass whose
    catalog is [known]: the attributes, then [setup_fluid_aliases()]. *)
Definition __init__ (known : list (string * KnownField)) (ds_ : Dataset)
    (field_list_ : list FieldKey) (slice_info_ : option nat)
    : Res unit * State :=
  let self_ :=
    mkFieldInfoContainer [] None known [] ds_ field_list_ slice_info_ [] []
      (geometry_is_curvilinear ds_) in
  setup_fluid_aliases "gas" (mkState self_ []).

(* ===================================================================== *)
(** ** Dependency validation *)
(* ===================================================================== *)

Definition Deps : Type := Dict.t FieldKey FieldDetector.

(** [set(l)], kept as a list without repetitions. *)
Definition set_of (l : list FieldKey) : list FieldKey :=
  nodup FieldKey_eq_dec l.

(** [set(a).union(b)] *)
Definition set_union (a b : list FieldKey) : list FieldKey :=
  set_of (a ++ b).

(** [list(sorted(dfl, key=tupleize))] *)
Definition sorted_by_tupleize (dfl : list FieldKey) : list FieldKey :=
  Py.sorted_key tupleize Py.tuple_ltb dfl.

(** The last two statements of [check_derived_fields] and of
    [find_dependencies]: the keys of [deps] join the dataset's
    [derived_field_list], which is stored sorted. *)
Definition publish (deps : Deps) : M unit :=
  modify (fun r =>
    let dfl := set_union (derived_field_list (ds r)) (Dict.keys deps) in
    set_ds (set_derived_field_list (sorted_by_tupleize dfl) (ds r)) r).

(** The body of the loop of [check_derived_fields] for one [field]; the
    loop's variables are [deps] and [unavailable]. *)
Definition check_field (field : FieldKey) (acc : Deps * list FieldKey)
    : M (Deps * list FieldKey) :=
  let deps := fst acc in
  let unavailable := snd acc in
  r <- gets (fun r => r) ;;
  fi <- lift (__getitem__ r field) ;;
  match get_dependencies (ds r) fi with
  | Raises e =>
      if key_in field (_show_field_errors r) then raise e
      else
        (if negb (is_YTFieldNotFound e) then
           if _field_test_dataset (ds r) then raise e
           else log (Debug "Raises %s during field %s detection."
                       [LExcType e; LKey field])
         else ret tt) ;;;
        pop field ;;;
        ret (deps, unavailable)
  | Detected fd =>
      let missing :=
        negb (forallb (fun f => key_in f (field_list r)) (requested fd)) in
      if missing then
        pop field ;;;
        ret (deps, unavailable ++ [field])
      else
        let fd := mkFieldDetector (set_of (requested fd)) in
        log (Debug "Succeeded with %s (needs %s)"
               [LKey field; LKeys (requested fd)]) ;;;
        ret (Dict.set FieldKey_eqb field fd deps, unavailable)
  end.

(** [fields_to_check or list(self.keys())]: [None] and the empty list are
    both false. *)
Definition fields_or_keys (fields_to_check : option (list FieldKey))
    : M (list FieldKey) :=
  match fields_to_check with
  | Some (f :: l) => ret (f :: l)
  | _ =>
      r <- gets (fun r => r) ;;
      ks <- lift (keys r) ;;
      ret (list_of_keys ks)
  end.

Definition check_derived_fields (fields_to_check : option (list FieldKey))
    : M (Deps * list FieldKey) :=
  let deps : Deps := [] in
  let unavailable : list FieldKey := [] in
  fields_to_check <- fields_or_keys fields_to_check ;;
  acc <- for_each fields_to_check check_field (deps, unavailable) ;;
  publish (fst acc) ;;;
  ret acc.

(** [d.update(deps)] *)
Definition dict_update (d deps : Deps) : Deps :=
  fold_left (fun d kv => Dict.set FieldKey_eqb (fst kv) (snd kv) d) deps d.

Definition find_dependencies (loaded : list FieldKey)
    : M (list FieldKey * list FieldKey) :=
  acc <- check_derived_fields (Some loaded) ;;
  let deps := fst acc in
  let unavailable := snd acc in
  modify (fun r =>
    set_ds (set_field_dependencies
              (dict_update (field_dependencies (ds r)) deps) (ds r)) r) ;;;
  publish deps ;;;
  ret (loaded, unavailable).

(* ===================================================================== *)
(** ** Plugins *)
(* ===================================================================== *)

(** A plugin routine [f(registry, ftype, slice_info=...)]: it acts on the
    container it is given. *)
Definition Plugin : Type := string -> option nat -> M unit.

Definition Units_eq_dec (a b : Units) : {a = b} + {a <> b}.
Proof.
  decide equality; try apply string_dec; try apply bool_dec;
    decide equality; try apply string_dec; apply bool_dec.
Defined.

Definition Kwargs_eq_dec (a b : Kwargs) : {a = b} + {a <> b}.
Proof.
  decide equality.
  - apply (list_eq_dec Nat.eq_dec).
  - apply bool_dec.
  - decide equality; apply string_dec.
  - apply Units_eq_dec.
Defined.

Definition FieldFunction_eq_dec (a b : FieldFunction) : {a = b} + {a <> b}.
Proof. decide equality; [apply FieldKey_eq_dec | apply Nat.eq_dec]. Defined.

Definition DerivedField_eq_dec (a b : DerivedField) : {a = b} + {a <> b}.
Proof.
  decide equality.
  - apply Kwargs_eq_dec.
  - apply FieldFunction_eq_dec.
  - apply string_dec.
  - apply FieldKey_eq_dec.
Defined.

(** [(n, v) in orig] for the pairs of [self.items()]. *)
Definition item_in (kv : FieldKey * DerivedField)
    (orig : list (FieldKey * DerivedField)) : bool :=
  existsb (fun kv' =>
             FieldKey_eqb (fst kv) (fst kv') &&
             if DerivedField_eq_dec (snd kv) (snd kv') then true else false)
          orig.

Section Plugins.

(** The table [field_plugins] of [field_plugin_registry]: routines under
    their names, in the order they were registered. *)
Variable field_plugins : Dict.t string Plugin.

(** [plugin_name] is a callable or a name of the table. *)
Definition load_plugin (plugin_name : Plugin + string) (ftype : string)
    : M (list FieldKey) :=
  f <- match plugin_name with
       | inl f => ret f
       | inr n =>
           match Dict.get String.eqb n field_plugins with
           | Some f => ret f
           | None => raise (KeyError (MissingName n))
           end
       end ;;
  orig <- gets items ;;
  si <- gets slice_info ;;
  f ftype si ;;;
  now <- gets items ;;
  let loaded := map fst (filter (fun kv => negb (item_in kv orig)) now) in
  ret loaded.

(** The loop of [load_all_plugins] over the sorted names. *)
Definition load_loop (names : list string) (ftype : string)
    : M (list FieldKey) :=
  for_each names
    (fun n loaded =>
       l <- load_plugin (inr n) ftype ;;
       let loaded := loaded ++ l in
       log (Debug "Loaded %s (%s new fields)" [LStr n; LNat (length loaded)]) ;;;
       ret loaded)
    [].

Definition load_all_plugins (ftype : string) : M unit :=
  loaded <- load_loop (Py.sorted String.ltb (Dict.keys field_plugins)) ftype ;;
  find_dependencies loaded ;;;
  ret tt.

End Plugins.

(** The registries of a fallback chain, the nearest first. *)
Fixpoint chain (r : FieldInfoContainer) : list FieldInfoContainer :=
  r :: match fallback r with
       | None => []
       | Some fb => chain fb
       end.

(** [k] has no definition in the own dictionary of [r]. *)
Definition absent (k : FieldKey) (r : FieldInfoContainer) : Prop :=
  Dict.get FieldKey_eqb k (items r) = None.


(* ===================================================================== *)
(** ** What one check decides

    The body of the validation loop read as a decision on the registry it
    finds; the lemmas below show that [check_field] acts as decided. *)
(* ===================================================================== *)

Inductive Verdict : Type :=
| Kept (fd : FieldDetector)        (* recorded in [deps] *)
| Unsatisfied                      (* popped, added to [unavailable] *)
| Swallowed (entry : list LogRecord)  (* an error caught, the field popped *)
| Failed (e : Exc).                (* an error that leaves the method *)

Definition verdict (r : FieldInfoContainer) (field : FieldKey) : Verdict :=
  match __getitem__ r field with
  | Raise e => Failed e
  | Ok fi =>
      match get_dependencies (ds r) fi with
      | Raises e =>
          if key_in field (_show_field_errors r) then Failed e
          else if is_YTFieldNotFound e then Swallowed []
          else if _field_test_dataset (ds r) then Failed e
          else Swallowed [Debug "Raises %s during field %s detection."
                            [LExcType e; LKey field]]
      | Detected fd =>
          if forallb (fun f => key_in f (field_list r)) (requested fd)
          then Kept (mkFieldDetector (set_of (requested fd)))
          else Unsatisfied
      end
  end.

Definition is_kept (r : FieldInfoContainer) (field : FieldKey) : bool :=
  match verdict r field with Kept _ => true | _ => false end.

(** The entry of [deps] a kept field gets. *)
Definition record_kept (r : FieldInfoContainer) (deps : Deps) (field : FieldKey)
    : Deps :=
  match verdict r field with
  | Kept fd => Dict.set FieldKey_eqb field fd deps
  | _ => deps
  end.

(** The log record of a kept field. *)
Definition kept_log (r : FieldInfoContainer) (field : FieldKey) : list LogRecord :=
  match verdict r field with
  | Kept fd => [Debug "Succeeded with %s (needs %s)"
                  [LKey field; LKeys (requested fd)]]
  | _ => []
  end.

(** The state after [self.pop(field)]. *)
Definition popped (field : FieldKey) (s : State) : State :=
  mkState (set_items (Dict.remove FieldKey_eqb field (items (self s))) (self s))
          (mylog s).

Definition logged (entry : list LogRecord) (s : State) : State :=
  mkState (self s) (mylog s ++ entry).

(** The definitions that stay in the own dictionary when the fields of [l]
    have been checked: those outside [l], and those kept. *)
Definition survivors (r : FieldInfoContainer) (l : list FieldKey)
    : Dict.t FieldKey DerivedField :=
  filter (fun kv => negb (key_in (fst kv) l) || is_kept r (fst kv)) (items r).

(** The order a key sort leaves between an element and a later one: the
    later one's key is not smaller. *)
Definition key_le (A K : Type) (key : A -> K) (ltb : K -> K -> bool)
    (x y : A) : Prop :=
  ltb (key y) (key x) = false.

(* ===================================================================== *)
(** ** Aliases of the index fields *)
(* ===================================================================== *)

(** [for _, f in self]: a key is unpacked into two names.  A tuple gives
    its components, a bare string its characters when it has two of them;
    any other number of characters is a [ValueError]. *)
Definition unpack2 (key : FieldKey) : Res (string * string) :=
  match key with
  | Tup ftype fname => Ok (ftype, fname)
  | Bare s =>
      match Py.chars s with
      | [] =>
          Raise (ValueError "not enough values to unpack (expected 2, got 0)")
      | [_] =>
          Raise (ValueError "not enough values to unpack (expected 2, got 1)")
      | [a; b] => Ok (a, b)
      | _ => Raise (ValueError "too many values to unpack (expected 2)")
      end
  end.

(** [[f for _, f in self if _ == "index"]], one key at a time. *)
Definition index_name_step (key : FieldKey) (acc : list string)
    : M (list string) :=
  p <- lift (unpack2 key) ;;
  if fst p =? "index" then ret (acc ++ [snd p]) else ret acc.

Definition index_fields_of (keys : list FieldKey) : M (list string) :=
  for_each keys index_name_step [].

(** The body of the loop over [index_fields], for one [ftype]. *)
Definition index_alias_step (ftype f : string) (_ : unit) : M unit :=
  r <- gets (fun r => r) ;;
  if __contains__ r (Tup ftype f) then ret tt
  else alias (Tup ftype f) (Tup "index" f) None.

(** The body of the loop over [ds.fluid_types]. *)
Definition fluid_type_step (index_fields : list string) (ftype : string)
    (_ : unit) : M unit :=
  if Py.str_in ftype ["index"; "deposit"] then ret tt
  else for_each index_fields (index_alias_step ftype) tt.

(** The two loops of [setup_fluid_index_fields], over [ds.fluid_types] and
    over the set [index_fields] in the order it is enumerated in. *)
Definition alias_index_fields (fluid_types index_fields : list string)
    : M unit :=
  for_each fluid_types (fluid_type_step index_fields) tt.

(** [setup_fluid_index_fields()] on a container with a dataset whose
    [fluid_types] is the given list; the set is enumerated in the order of
    first occurrence. *)
Definition setup_fluid_index_fields (fluid_types : list string) : M unit :=
  r <- gets (fun r => r) ;;
  names <- index_fields_of (__iter__ r) ;;
  let index_fields := nodup string_dec names in
  alias_index_fields fluid_types index_fields.

(* ===================================================================== *)
(** ** Devices for the setup loops *)
(* ===================================================================== *)

(** Every identity the first registry answers for has the same definition
    in the second. *)
Definition keeps_present (r r' : FieldInfoContainer) : Prop :=
  forall k, __contains__ r k = true -> __getitem__ r' k = __getitem__ r k.

(** The name part of an identity. *)
Definition name_of (k : FieldKey) : string :=
  match k with Tup _ n => n | Bare n => n end.

(** The unit override in force for a field: the entry of [ds.field_units]
    under the tuple, else the one under the name, else the catalog's. *)
Definition unit_in_force (args : KnownField) (field : FieldKey) (f1 : string)
    (fu : Dict.t FieldKey Units) : Units :=
  match Dict.get FieldKey_eqb field fu with
  | Some u => u
  | None =>
      match Dict.get FieldKey_eqb (Bare f1) fu with
      | Some u => u
      | None => UStr (units_of args)
      end
  end.

(** The unit an on-disk field ends with when the setup gets past it: a
    string override as it is; a number or an array multiplied into a
    catalog unit that is not empty; with an empty catalog unit the empty
    unit when the override differs from 1 or equals 1, and the override
    itself when it does neither. *)
Definition resolved_unit (args : KnownField) (field : FieldKey) (f1 : string)
    (fu : Dict.t FieldKey Units) : Units :=
  match unit_in_force args field f1 fu with
  | UStr t => UStr t
  | u =>
      if units_of args =? "" then
        match ne_one u with
        | inl true => UStr ""
        | _ => match eq_one u with inl true => UStr "" | _ => u end
        end
      else UStr ("((" ++ units_of args ++ ")*" ++ format_units u ++ ")")
  end.

(** The definition [setup_fluid_aliases] gives an on-disk field. *)
Definition on_disk_definition (known : list (string * KnownField))
    (d : Dataset) (field : FieldKey) : DerivedField :=
  let args := known_get known (name_of field) in
  mkDerivedField field "cell" NullFunc
    (mkKwargs (resolved_unit args field (name_of field) (field_units d))
       (display_name_of args) false []).

(** A tuple whose type is not a particle type of the dataset. *)
Definition is_fluid (d : Dataset) (k : FieldKey) : bool :=
  match k with
  | Tup c _ => negb (Py.str_in c (particle_types d))
  | Bare _ => false
  end.

(** The bodies of the loops of [get_aliases_gallery] and of
    [setup_fluid_aliases], named. *)
Definition gallery_step (r : FieldInfoContainer) (field : FieldKey)
    (aliases_gallery : list string) : M (list string) :=
  f0 <- lift (index0 field) ;;
  if Py.str_in f0 (particle_types (ds r)) then ret aliases_gallery
  else
    f1 <- lift (index1 field) ;;
    let args := known_get (known_other_fields r) f1 in
    ret (aliases_gallery ++ aliases_of args).

Definition alias_step (r : FieldInfoContainer) (ftype : string)
    (aliases_gallery : list string) (field : FieldKey) (alias_ : string)
    (to_convert : bool) : M bool :=
  let to_convert :=
    if curvilinear r
    then set_to_convert alias_ aliases_gallery to_convert
    else to_convert in
  alias_ <-
    (if curvilinear r then
       if to_convert then lift (convert_alias alias_ (axis_order (ds r)))
       else ret alias_
     else ret alias_) ;;
  alias (Tup ftype alias_) field None ;;;
  ret to_convert.

Definition field_step (r : FieldInfoContainer) (ftype : string)
    (aliases_gallery : list string) (field : FieldKey) (to_convert : bool)
    : M bool :=
  if negb (isinstance_tuple field) then raise (RuntimeError "")
  else
    f0 <- lift (index0 field) ;;
    if Py.str_in f0 (particle_types (ds r)) then ret to_convert
    else
      f1 <- lift (index1 field) ;;
      let args := known_get (known_other_fields r) f1 in
      units <- resolve_units args field f1 r ;;
      add_output_field field "cell"
        (mkKwargs units (display_name_of args) false []) ;;;
      for_each (aliases_of args) (alias_step r ftype aliases_gallery field)
        to_convert.

(** The catalog declares the alias [a] for the on-disk fluid field [f]. *)
Definition declares (known : list (string * KnownField)) (d : Dataset)
    (f : FieldKey) (a : string) : Prop :=
  is_fluid d f = true /\ In a (aliases_of (known_get known (name_of f))).

(** The name an alias is registered under: on a curvilinear dataset a
    name that ends in [_x], [_y] or [_z] is renamed after the axes. *)
Definition alias_target (r : FieldInfoContainer) (a : string) : Res string :=
  if curvilinear r then
    if Py.str_in (Py.last2 a) ["_x"; "_y"; "_z"]
    then convert_alias a (axis_order (ds r))
    else Ok a
  else Ok a.

(** The renaming after the axes [a0], [a1], [a2]. *)
Definition rename_after (a0 a1 a2 : string) (a : string) : string :=
  if Py.last2 a =? "_x" then Py.fmt_suffix (Py.but_last2 a) a0
  else if Py.last2 a =? "_y" then Py.fmt_suffix (Py.but_last2 a) a1
  else if Py.last2 a =? "_z" then Py.fmt_suffix (Py.but_last2 a) a2
  else a.

(** The aliases of [A] are registered under the type [ftype] and the name
    [rename] gives them, each recorded in [field_aliases] for a field of
    [all] that declares an alias of that name. *)
Definition aliases_recorded (ftype : string) (rename : string -> string)
    (all : list FieldKey) (r0 : FieldInfoContainer) (A : string -> Prop)
    (r : FieldInfoContainer) : Prop :=
  forall a, A a ->
    __contains__ r (Tup ftype (rename a)) = true /\
    exists g a',
      Dict.get FieldKey_eqb (Tup ftype (rename a)) (field_aliases r) = Some g /\
      In g all /\ declares (known_other_fields r0) (ds r0) g a' /\
      rename a' = rename a.

(** The names the comprehension over tuple keys collects. *)
Definition index_names (keys : list FieldKey) : list string :=
  flat_map (fun k => match k with
                     | Tup t f => if t =? "index" then [f] else []
                     | Bare _ => []
                     end) keys.

(** An identity is new in [r'] and translates an index field of [r] to a
    type of [fluid_types]. *)
Definition index_alias_of (fluid_types : list string)
    (r r' : FieldInfoContainer) (k : FieldKey) : Prop :=
  exists t f d,
    k = Tup t f /\ In t fluid_types /\
    __contains__ r (Tup "index" f) = true /\
    __getitem__ r' k = Ok d /\
    df_function d = TranslationFunc (Tup "index" f).

(* ===================================================================== *)
(** ** Aliases of the smoothed particle fields *)
(* ===================================================================== *)

(** [sub in s], for strings. *)
Fixpoint str_contains (sub s : string) : bool :=
  String.prefix sub s ||
  match s with
  | EmptyString => false
  | String _ s' => str_contains sub s'
  end.

(** [s.replace(old, "")] for an [old] that is not empty: the occurrences
    are taken from the left and do not overlap; [skip] counts the
    characters of an occurrence still to be dropped. *)
Fixpoint remove_all_aux (old : string) (skip : nat) (s : string) : string :=
  match s with
  | EmptyString => EmptyString
  | String c s' =>
      match skip with
      | S k => remove_all_aux old k s'
      | O =>
          if String.prefix old s
          then remove_all_aux old (String.length old - 1) s'
          else String c (remove_all_aux old 0 s')
      end
  end.

Definition remove_all (old s : string) : string := remove_all_aux old 0 s.

(** The name a particle field is aliased under. *)
Definition uni_alias_name (alias_name : string) : string :=
  if str_contains "particle_position_" alias_name
  then remove_all "particle_position_" alias_name
  else if str_contains "particle_" alias_name
  then remove_all "particle_" alias_name
  else alias_name.

(** [for alias, source in new_aliases: self.alias(alias, source)], one
    pair at a time. *)
Definition alias_pair (p : FieldKey * FieldKey) (_ : unit) : M unit :=
  alias (fst p) (snd p) None.

(** The body of the loop of [setup_smoothed_fields] over [list(self)]; the
    loop over [new_aliases] stands inside it. *)
Definition smoothed_step (sph_whitelist_fields : list string)
    (ptype ftype : string) (key : FieldKey)
    (new_aliases : list (FieldKey * FieldKey))
    : M (list (FieldKey * FieldKey)) :=
  p <- lift (unpack2 key) ;;
  let ptype2 := fst p in
  let alias_name := snd p in
  if negb (ptype2 =? ptype) then ret new_aliases
  else if negb (Py.str_in alias_name sph_whitelist_fields)
          && negb (String.prefix "particle_" alias_name)
  then ret new_aliases
  else
    let uni_alias_name := uni_alias_name alias_name in
    let new_aliases :=
      new_aliases ++ [(Tup ftype uni_alias_name, Tup ptype alias_name)] in
    let new_aliases :=
      new_aliases ++ [(Tup ptype uni_alias_name, Tup ptype alias_name)] in
    for_each new_aliases alias_pair tt ;;;
    ret new_aliases.

(** [setup_smoothed_fields(ptype, num_neighbors, ftype)]; the tuple
    [sph_whitelist_fields] of [particle_fields] and the answer of
    [hasattr(self.ds, "_sph_ptypes")] are given. *)
Definition setup_smoothed_fields (sph_whitelist_fields : list string)
    (has_sph_ptypes : bool) (ptype ftype : string) : M unit :=
  r <- gets (fun r => r) ;;
  if negb (__contains__ r (Tup ptype "density")) || negb has_sph_ptypes
  then ret tt
  else
    for_each (__iter__ r) (smoothed_step sph_whitelist_fields ptype ftype) [] ;;;
    ret tt.

(** The pairs of alias and source that the loop collects over tuple keys. *)
Definition smoothed_pairs (sph_whitelist_fields : list string)
    (ptype ftype : string) (keys : list FieldKey)
    : list (FieldKey * FieldKey) :=
  flat_map
    (fun key =>
       match key with
       | Tup ptype2 alias_name =>
           if negb (ptype2 =? ptype) then []
           else if negb (Py.str_in alias_name sph_whitelist_fields)
                   && negb (String.prefix "particle_" alias_name)
           then []
           else [(Tup ftype (uni_alias_name alias_name), Tup ptype alias_name);
                 (Tup ptype (uni_alias_name alias_name), Tup ptype alias_name)]
       | Bare _ => []
       end)
    keys.

(** [field_aliases] after the aliases of the pairs of [l], in their order. *)
Definition note_aliases (l : list (FieldKey * FieldKey))
    (d : Dict.t FieldKey FieldKey) : Dict.t FieldKey FieldKey :=
  fold_left (fun d p => Dict.set FieldKey_eqb (fst p) (snd p) d) l d.

(** The aliases the gallery takes from one on-disk field. *)
Definition gallery_of (r : FieldInfoContainer) (field : FieldKey)
    : list string :=
  if is_fluid (ds r) field
  then aliases_of (known_get (known_other_fields r) (name_of field))
  else [].

(* ===================================================================== *)
(** ** The plugin loader as it is described

    The loader in the words of its description, to compare
    [load_all_plugins] with.  The routines come as a list of named
    routines in the order they are applied; the loader of the description
    looks nothing up and sorts nothing.  Each routine is applied to the
    registry between a snapshot of its (identity, definition) pairs and a
    diff against them, the identities found are accumulated, and the whole
    list goes to the validation in one batch.  The description is silent
    on logging: the debug record of the code is kept, so that the states
    of the two can be compared as a whole. *)
(* ===================================================================== *)

Module Spec.



(** One routine: snapshot, invoke with the registry, the default category
    and the slice context, diff. *)
Definition run_routine (routine : Plugin) (default_category : string)
    : M (list FieldKey) :=
  snapshot <- gets items ;;
  context <- gets slice_info ;;
  routine default_category context ;;;
  after <- gets items ;;
  ret (map fst (filter (fun kv => negb (item_in kv snapshot)) after)).

(** The routines one after the other, in the order of the list. *)
Fixpoint run_in_order (ordered : list (string * Plugin))
    (default_category : string) (accumulated : list FieldKey)
    : M (list FieldKey) :=
  match ordered with
  | [] => ret accumulated
  | (name, routine) :: rest =>
      new <- run_routine routine default_category ;;
      let accumulated := accumulated ++ new in
      log (Debug "Loaded %s (%s new fields)"
             [LStr name; LNat (length accumulated)]) ;;;
      run_in_order rest default_category accumulated
  end.

Definition load_all_plugins (ordered : list (string * Plugin))
    (default_category : string) : M unit :=
  accumulated <- run_in_order ordered default_category [] ;;
  find_dependencies accumulated ;;;
  ret tt.

End Spec.

(* ===================================================================== *)
(** ** Sample datasets and registries *)
(* ===================================================================== *)

Module Sample.

(** A dry run that finds what a field's validators ask for: the
    [Function] numbered [1] asks for [("gas", "nonexistent")], [2] is not
    found, [3] fails otherwise, every other field asks for
    [("gas", "density")]. *)
Definition dry_run (fi : DerivedField) : DepOutcome :=
  match df_function fi with
  | Function 1 => Detected (mkFieldDetector [Tup "gas" "nonexistent"])
  | Function 2 => Raises (YTFieldNotFound (Tup "gas" "magnetic_field_x"))
  | Function 3 => Raises (OtherException "ZeroDivisionError")
  | _ => Detected (mkFieldDetector [Tup "gas" "density"])
  end.

(** A spherical dataset with axes [r, theta, phi]. *)
Definition spherical : Dataset :=
  mkDataset true ["io"] [] ["r"; "theta"; "phi"] "gas"
    (fun _ => None) dry_run false [] [].

(** The same dataset flagged for the field tests. *)
Definition field_test : Dataset :=
  mkDataset true ["io"] [] ["r"; "theta"; "phi"] "gas"
    (fun _ => None) dry_run true [] [].

Definition kw (u : string) : Kwargs := mkKwargs (UStr u) None false [].

Definition field (k : FieldKey) (f : FieldFunction) : DerivedField :=
  mkDerivedField k "cell" f (kw "g").

Definition registry (d : Dataset) (it : Dict.t FieldKey DerivedField)
    (fb : option FieldInfoContainer) (strict : list FieldKey)
    : FieldInfoContainer :=
  mkFieldInfoContainer it fb [] strict d [Tup "gas" "density"] None [] []
    true.

Definition density : FieldKey := Tup "gas" "density".
Definition pressure : FieldKey := Tup "gas" "pressure".
Definition ghost : FieldKey := Tup "gas" "ghost".
Definition lost : FieldKey := Tup "gas" "lost".
Definition broken : FieldKey := Tup "gas" "broken".

(** [R1] falls back on [R2]; both define [pressure]. *)
Definition R2 : FieldInfoContainer :=
  registry spherical
    [(pressure, field pressure (Function 20)); (density, field density NullFunc)]
    None [].

Definition R1 : FieldInfoContainer :=
  registry spherical [(pressure, field pressure (Function 10))] (Some R2) [].

(** A registry with nothing behind it. *)
Definition alone : FieldInfoContainer :=
  registry spherical [(density, field density NullFunc)] None [].

(** The catalogs of the two runs of the alias setup. *)
Definition known_pair : list (string * KnownField) :=
  [("Foo", ("g", ["foo_x"; "foo_y"], None))].

Definition known_triple : list (string * KnownField) :=
  [("Foo", ("g", ["foo_x"; "foo_y"; "foo_z"], None))].

(** Registries for the validation pass. *)
Definition mixed_items : Dict.t FieldKey DerivedField :=
  [(density, field density NullFunc);
   (ghost, field ghost (Function 1));
   (pressure, field pressure (Function 7));
   (lost, field lost (Function 2));
   (broken, field broken (Function 3))].

Definition mixed : State :=
  mkState (registry spherical mixed_items None []) [].

Definition only_lost : State :=
  mkState (registry spherical [(lost, field lost (Function 2))] None []) [].

Definition strict_lost : State :=
  mkState (registry spherical [(lost, field lost (Function 2))] None [lost]) [].

Definition only_broken : State :=
  mkState (registry spherical [(broken, field broken (Function 3))] None []) [].

Definition tested_broken : State :=
  mkState (registry field_test [(broken, field broken (Function 3))] None []) [].

Definition only_ghost : State :=
  mkState (registry spherical
             [(density, field density NullFunc);
              (ghost, field ghost (Function 1))] None []) [].

(** Two plugin routines and the two orders of registering them. *)
Definition plugin_a : Plugin :=
  fun ftype _ =>
    add_field (Tup ftype "alpha") (Some (Function 30)) "cell" false (kw "g") ;;;
    ret tt.

Definition plugin_b : Plugin :=
  fun ftype _ =>
    add_field (Tup ftype "beta") (Some (Function 1)) "cell" false (kw "g") ;;;
    add_field (Bare "gamma") (Some (Function 31)) "cell" false (kw "g") ;;;
    ret tt.

Definition idle : Plugin := fun _ _ => ret tt.

Definition table_ab : Dict.t string Plugin :=
  [("a_fields", plugin_a); ("b_fields", plugin_b)].

Definition table_ba : Dict.t string Plugin :=
  [("b_fields", plugin_b); ("a_fields", plugin_a)].

Definition table_idle : Dict.t string Plugin := [("idle", idle)].

End Sample.

(** Further registries and datasets, for the properties of the setup, of
    the registration under bare names and of the index aliases. *)
Module Fixture.

(** A Cartesian dataset with a numeric unit override for one field. *)
Definition cartesian : Dataset :=
  mkDataset false ["io"] [(Tup "enzo" "Energy", UNum false "2.0")]
    ["x"; "y"; "z"] "gas" (fun _ => None) Sample.dry_run false [] [].

Definition catalog : list (string * KnownField) :=
  [("Density", ("g/cm**3", ["density"; "rho"], Some "Density"));
   ("Energy", ("erg", ["energy"], None))].

Definition on_disk : list FieldKey :=
  [Tup "enzo" "Energy"; Tup "io" "particle_mass"; Tup "enzo" "Density"].

(** A registry that holds a definition under a bare name. *)
Definition with_bare : State :=
  mkState
    (Sample.registry Sample.spherical
       [(Bare "temp", Sample.field (Bare "temp") (Function 40))] None [])
    [].

(** A registry whose fallback alone provides a field that requests a field
    that is not on disk. *)
Definition behind : FieldInfoContainer :=
  Sample.registry Sample.spherical
    [(Sample.ghost, Sample.field Sample.ghost (Function 1))] None [].

Definition in_front : State :=
  mkState
    (Sample.registry Sample.spherical
       [(Sample.density, Sample.field Sample.density NullFunc)]
       (Some behind) [])
    [].

(** A registry with two index fields, one of them aliased already. *)
Definition indexed : State :=
  mkState
    (Sample.registry Sample.spherical
       [(Tup "index" "x", Sample.field (Tup "index" "x") (Function 50));
        (Tup "index" "dx", Sample.field (Tup "index" "dx") (Function 51));
        (Tup "gas" "x", Sample.field (Tup "gas" "x") (Function 52))]
       None [])
    [].

Definition fluid_types : list string := ["gas"; "index"; "deposit"; "enzo"].

(** A registry with a bare key of three characters. *)
Definition with_bare_key : State :=
  mkState
    (Sample.registry Sample.spherical
       [(Tup "index" "x", Sample.field (Tup "index" "x") (Function 50));
        (Bare "abc", Sample.field (Bare "abc") (Function 53))]
       None [])
    [].

End Fixture.
(* ===================================================================== *)
(** * Properties *)
(* ===================================================================== *)

(** ** The Python values at work *)

Example last2_of_short : Py.last2 "x" = "x" /\ Py.but_last2 "x" = "".
Proof. split; reflexivity. Qed.

Example last2_of_alias :
  Py.last2 "velocity_x" = "_x" /\ Py.but_last2 "velocity_x" = "velocity".
Proof. split; reflexivity. Qed.

Example tupleize_bare : tupleize (Bare "density") = ("?", "density").
Proof. reflexivity. Qed.

Example sorted_is_stable :
  Py.sorted_key tupleize Py.tuple_ltb
    [Tup "gas" "b"; Bare "z"; Tup "?" "z"; Tup "all" "a"]
  = [Bare "z"; Tup "?" "z"; Tup "all" "a"; Tup "gas" "b"].
Proof. reflexivity. Qed.

Example mixed_field_list_cannot_be_sorted :
  sorted_field_list [Tup "gas" "density"; Bare "density"]
  = Raise TypeError_unorderable.
Proof. reflexivity. Qed.

Example lower_sampling_type : Py.lower "Cell" = "cell".
Proof. reflexivity. Qed.

(** ** Keys and dictionaries *)

Lemma FieldKey_eqb_spec (a b : FieldKey) : reflect (a = b) (FieldKey_eqb a b).
Proof.
  destruct a as [x|c x], b as [y|d y]; simpl; try (constructor; discriminate).
  - destruct (String.eqb_spec x y); constructor; congruence.
  - destruct (String.eqb_spec c d), (String.eqb_spec x y); simpl;
      constructor; congruence.
Qed.

Lemma FieldKey_eqb_refl (a : FieldKey) : FieldKey_eqb a a = true.
Proof. destruct (FieldKey_eqb_spec a a); congruence. Qed.

Lemma FieldKey_eqb_eq (a b : FieldKey) : FieldKey_eqb a b = true <-> a = b.
Proof. destruct (FieldKey_eqb_spec a b); split; congruence. Qed.

Lemma FieldKey_eqb_neq (a b : FieldKey) : FieldKey_eqb a b = false <-> a <> b.
Proof. destruct (FieldKey_eqb_spec a b); split; congruence. Qed.

Lemma key_in_In (k : FieldKey) (l : list FieldKey) :
  key_in k l = true <-> In k l.
Proof.
  unfold key_in. rewrite existsb_exists. split.
  - intros [x [Hin Heq]]. apply FieldKey_eqb_eq in Heq. now subst.
  - intros Hin. exists k. split; [assumption | apply FieldKey_eqb_refl].
Qed.

Section DictFacts.
Variable V : Type.
Implicit Types (d : Dict.t FieldKey V) (k : FieldKey).

Lemma get_set_same k (v : V) d :
  Dict.get FieldKey_eqb k (Dict.set FieldKey_eqb k v d) = Some v.
Proof.
  induction d as [|[k' v'] d IH]; simpl.
  - now rewrite FieldKey_eqb_refl.
  - destruct (FieldKey_eqb k k') eqn:E; simpl; rewrite E; auto.
Qed.

Lemma get_set_other k k' (v : V) d :
  k <> k' ->
  Dict.get FieldKey_eqb k (Dict.set FieldKey_eqb k' v d)
  = Dict.get FieldKey_eqb k d.
Proof.
  intros Hne. induction d as [|[k2 v2] d IH]; simpl.
  - apply FieldKey_eqb_neq in Hne. now rewrite Hne.
  - destruct (FieldKey_eqb k' k2) eqn:E; simpl.
    + apply FieldKey_eqb_eq in E. subst k2.
      apply FieldKey_eqb_neq in Hne. now rewrite Hne.
    + now rewrite IH.
Qed.

Lemma get_filter (p : FieldKey -> bool) k d :
  Dict.get FieldKey_eqb k (filter (fun kv => p (fst kv)) d)
  = if p k then Dict.get FieldKey_eqb k d else None.
Proof.
  induction d as [|[k' v'] d IH]; simpl.
  - now destruct (p k).
  - destruct (p k') eqn:Hp; simpl.
    + destruct (FieldKey_eqb_spec k k') as [->|Hne].
      * now rewrite Hp.
      * exact IH.
    + rewrite IH. destruct (FieldKey_eqb_spec k k') as [->|Hne].
      * now rewrite Hp.
      * reflexivity.
Qed.

Lemma get_remove_same k d :
  Dict.get FieldKey_eqb k (Dict.remove FieldKey_eqb k d) = None.
Proof.
  unfold Dict.remove.
  rewrite (get_filter (fun k' => negb (FieldKey_eqb k k'))).
  now rewrite FieldKey_eqb_refl.
Qed.

Lemma get_remove_other k k' d :
  k <> k' ->
  Dict.get FieldKey_eqb k (Dict.remove FieldKey_eqb k' d)
  = Dict.get FieldKey_eqb k d.
Proof.
  intros Hne. unfold Dict.remove.
  rewrite (get_filter (fun k2 => negb (FieldKey_eqb k' k2))).
  assert (FieldKey_eqb k' k = false) as -> by (apply FieldKey_eqb_neq; congruence).
  reflexivity.
Qed.

Lemma get_In_keys k d (v : V) :
  Dict.get FieldKey_eqb k d = Some v -> In k (Dict.keys d).
Proof.
  induction d as [|[k' v'] d IH]; simpl; [discriminate|].
  destruct (FieldKey_eqb_spec k k') as [->|Hne]; auto.
Qed.

Lemma In_keys_get k d :
  In k (Dict.keys d) -> exists v, Dict.get FieldKey_eqb k d = Some v.
Proof.
  induction d as [|[k' v'] d IH]; simpl; [tauto|].
  intros [->|Hin].
  - rewrite FieldKey_eqb_refl. eauto.
  - destruct (FieldKey_eqb k k'); eauto.
Qed.
End DictFacts.

(** ** The fallback chain *)

(** Induction along the fallback chain. *)
Lemma chain_ind (P : FieldInfoContainer -> Prop) :
  (forall r, fallback r = None -> P r) ->
  (forall r fb, fallback r = Some fb -> P fb -> P r) ->
  forall r, P r.
Proof.
  intros Hnone Hsome.
  fix IH 1.
  intros [it [fb|] kn sfe d fl si fa sn cv].
  - apply Hsome with (fb := fb); [reflexivity | apply IH].
  - apply Hnone. reflexivity.
Qed.

Lemma getitem_unfold (r : FieldInfoContainer) (key : FieldKey) :
  __getitem__ r key =
  match Dict.get FieldKey_eqb key (items r) with
  | Some v => Ok v
  | None => __missing__ r key
  end.
Proof. destruct r; reflexivity. Qed.

Lemma contains_unfold (r : FieldInfoContainer) (key : FieldKey) :
  __contains__ r key =
  if Dict.mem FieldKey_eqb key (items r) then true
  else match fallback r with
       | None => false
       | Some fb => __contains__ fb key
       end.
Proof. destruct r; reflexivity. Qed.

Lemma chain_unfold (r : FieldInfoContainer) :
  chain r = r :: match fallback r with None => [] | Some fb => chain fb end.
Proof. destruct r; reflexivity. Qed.

Lemma getitem_local (r : FieldInfoContainer) (key : FieldKey) (d : DerivedField) :
  Dict.get FieldKey_eqb key (items r) = Some d -> __getitem__ r key = Ok d.
Proof. intros H. now rewrite getitem_unfold, H. Qed.

Lemma contains_local (r : FieldInfoContainer) (key : FieldKey) (d : DerivedField) :
  Dict.get FieldKey_eqb key (items r) = Some d -> __contains__ r key = true.
Proof. intros H. rewrite contains_unfold. unfold Dict.mem. now rewrite H. Qed.

(** A miss in the own dictionary hands lookup and containment over to the
    fallback. *)
Lemma getitem_miss (r fb : FieldInfoContainer) (key : FieldKey) :
  fallback r = Some fb -> absent key r ->
  __getitem__ r key = __getitem__ fb key /\
  __contains__ r key = __contains__ fb key.
Proof.
  unfold absent. intros Hfb Habs. split.
  - rewrite getitem_unfold, Habs. unfold __missing__. now rewrite Hfb.
  - rewrite contains_unfold. unfold Dict.mem. now rewrite Habs, Hfb.
Qed.

(** Containment is exactly a definition somewhere along the chain. *)
Lemma contains_false_chain (key : FieldKey) (r : FieldInfoContainer) :
  __contains__ r key = false <-> Forall (absent key) (chain r).
Proof.
  induction r as [r Hnone | r fb Hfb IH] using chain_ind;
    rewrite contains_unfold, chain_unfold; unfold Dict.mem, absent in *.
  - rewrite Hnone. destruct (Dict.get FieldKey_eqb key (items r)) eqn:E.
    + split; [discriminate | intros H; inversion H; congruence].
    + split; auto.
  - rewrite Hfb. destruct (Dict.get FieldKey_eqb key (items r)) eqn:E.
    + split; [discriminate | intros H; inversion H; congruence].
    + rewrite IH. split; intros H.
      * constructor; assumption.
      * now inversion H.
Qed.

Lemma getitem_absent (key : FieldKey) (r : FieldInfoContainer) :
  Forall (absent key) (chain r) ->
  __getitem__ r key = Raise (KeyError (NoFieldNamed key)).
Proof.
  induction r as [r Hnone | r fb Hfb IH] using chain_ind;
    rewrite chain_unfold, getitem_unfold; unfold __missing__, absent in *;
    intros H; inversion H as [|? ? Hhd Htl]; subst; rewrite Hhd.
  - now rewrite Hnone.
  - rewrite Hfb in *. now apply IH.
Qed.

Lemma getitem_contains (key : FieldKey) (r : FieldInfoContainer) :
  __contains__ r key = true -> exists d, __getitem__ r key = Ok d.
Proof.
  induction r as [r Hnone | r fb Hfb IH] using chain_ind;
    rewrite contains_unfold, getitem_unfold; unfold __missing__, Dict.mem.
  - rewrite Hnone. destruct (Dict.get FieldKey_eqb key (items r)); eauto.
    discriminate.
  - rewrite Hfb. destruct (Dict.get FieldKey_eqb key (items r)); eauto.
Qed.

(** Lookup reads the own dictionary at the key, and the fallback. *)
Lemma getitem_ext (r r' : FieldInfoContainer) (k : FieldKey) :
  Dict.get FieldKey_eqb k (items r') = Dict.get FieldKey_eqb k (items r) ->
  fallback r' = fallback r ->
  __getitem__ r' k = __getitem__ r k.
Proof.
  intros Hget Hfb. rewrite !getitem_unfold. unfold __missing__.
  now rewrite Hget, Hfb.
Qed.

(** ** Lookup along the chain *)

(** The nearest definition along the chain is the one lookup returns. *)
Lemma chain_shadowing (X : FieldKey) (d : DerivedField) (near : FieldInfoContainer)
    (post pre : list FieldInfoContainer) :
  forall r,
    chain r = pre ++ near :: post ->
    Forall (absent X) pre ->
    Dict.get FieldKey_eqb X (items near) = Some d ->
    __getitem__ r X = Ok d /\ __contains__ r X = true.
Proof.
  induction pre as [|p pre IH]; intros r Hchain Hpre Hnear.
  - rewrite chain_unfold in Hchain. simpl in Hchain.
    injection Hchain as Hr _. subst near.
    split; [eapply getitem_local | eapply contains_local]; eassumption.
  - rewrite chain_unfold in Hchain. simpl in Hchain.
    injection Hchain as Hr Hrest. subst p.
    inversion Hpre as [|? ? Habs Hpre']; subst.
    destruct (fallback r) as [fb|] eqn:Hfb.
    + destruct (getitem_miss Hfb Habs) as [-> ->].
      now apply IH.
    + destruct pre; discriminate.
Qed.

(** C5.  For a registry [R1] whose fallback is [R2] and an identity [X]
    defined in both, lookup and containment on [R1] answer with the local
    definition of [R1]; the fallback is asked only for an identity that the
    own dictionary of [R1] misses; and along a longer chain the nearest
    definition is the one returned. *)
Theorem fallback_shadowing (R1 R2 : FieldInfoContainer) (X : FieldKey)
    (d1 d2 : DerivedField) :
  fallback R1 = Some R2 ->
  Dict.get FieldKey_eqb X (items R1) = Some d1 ->
  Dict.get FieldKey_eqb X (items R2) = Some d2 ->
  __getitem__ R1 X = Ok d1 /\
  __contains__ R1 X = true /\
  (forall Y, absent Y R1 ->
     __getitem__ R1 Y = __getitem__ R2 Y /\
     __contains__ R1 Y = __contains__ R2 Y) /\
  (forall Y pre near post d,
     chain R1 = pre ++ near :: post ->
     Forall (absent Y) pre ->
     Dict.get FieldKey_eqb Y (items near) = Some d ->
     __getitem__ R1 Y = Ok d /\ __contains__ R1 Y = true).
Proof.
  intros Hfb H1 _. repeat split.
  - now apply getitem_local.
  - now apply contains_local with (d := d1).
  - now apply getitem_miss.
  - now apply getitem_miss.
  - eapply chain_shadowing; eassumption.
  - eapply chain_shadowing; eassumption.
Qed.

Lemma fallback_shadowing_witness :
  __getitem__ Sample.R1 Sample.pressure
  = Ok (Sample.field Sample.pressure (Function 10)) /\
  __contains__ Sample.R1 Sample.pressure = true.
Proof.
  destruct (@fallback_shadowing Sample.R1 Sample.R2 Sample.pressure
              (Sample.field Sample.pressure (Function 10))
              (Sample.field Sample.pressure (Function 20))
              eq_refl eq_refl eq_refl) as [Hget [Hin _]].
  split; assumption.
Defined.

(** ** The [keys] method *)

Lemma keys_unfold (r : FieldInfoContainer) :
  keys r =
  match fallback r with
  | Some fb =>
      if truthy fb then
        match keys fb with
        | Ok fk => iadd_list (dict_keys (Dict.keys (items r))) (list_of_keys fk)
        | Raise e => Raise e
        end
      else Ok (dict_keys (Dict.keys (items r)))
  | None => Ok (dict_keys (Dict.keys (items r)))
  end.
Proof. destruct r; reflexivity. Qed.

(** The only exception [keys] can end in is the [TypeError] of [+=]. *)
Lemma keys_raises_TypeError (r : FieldInfoContainer) (e : Exc) :
  keys r = Raise e ->
  e = TypeError "unsupported operand type(s) for +=: 'dict_keys' and 'list'".
Proof.
  revert e.
  induction r as [r Hnone | r fb Hfb IH] using chain_ind; intros e;
    rewrite keys_unfold.
  - rewrite Hnone. discriminate.
  - rewrite Hfb. destruct (truthy fb); [|discriminate].
    destruct (keys fb) as [[ks]|e'] eqn:E.
    + simpl. now intros [= <-].
    + intros [= <-]. now apply IH.
Qed.

(** [keys] in one step: the own keys, unless the fallback is true. *)
Lemma keys_spec (r : FieldInfoContainer) :
  keys r =
  if match fallback r with Some fb => truthy fb | None => false end
  then Raise (TypeError
                "unsupported operand type(s) for +=: 'dict_keys' and 'list'")
  else Ok (dict_keys (Dict.keys (items r))).
Proof.
  rewrite keys_unfold. destruct (fallback r) as [fb|]; [|reflexivity].
  destruct (truthy fb); [|reflexivity].
  destruct (keys fb) as [[ks]|e] eqn:E; [reflexivity|].
  now rewrite (keys_raises_TypeError _ E).
Qed.

(** With a fallback whose own dictionary is not empty, [keys] reaches the
    [+=] of a [dict_keys] view and a list. *)
Lemma keys_truthy_fallback (r fb : FieldInfoContainer) :
  fallback r = Some fb -> truthy fb = true ->
  keys r = Raise (TypeError
                    "unsupported operand type(s) for +=: 'dict_keys' and 'list'").
Proof. intros Hfb Ht. now rewrite keys_spec, Hfb, Ht. Qed.

(** Without a fallback, or with one whose own dictionary is empty, [keys]
    is the view of the own keys. *)
Lemma keys_no_fallback (r : FieldInfoContainer) :
  fallback r = None -> keys r = Ok (dict_keys (Dict.keys (items r))).
Proof. intros H. now rewrite keys_unfold, H. Qed.

(** C6.  On the registry [R1], whose fallback [R2] holds two fields, the
    [keys] method does not return the keys of [R1] followed by those of
    [R2]: it ends in the [TypeError] of [+=] between the view that
    [dict.keys] returns and a list. *)
Theorem keys_with_fallback_raises :
  truthy Sample.R2 = true /\
  keys Sample.R1 =
    Raise (TypeError "unsupported operand type(s) for +=: 'dict_keys' and 'list'") /\
  __iter__ Sample.R1 = [Sample.pressure; Sample.pressure; Sample.density].
Proof. repeat split. Qed.

(** ** Lookup of a missing identity *)

(** C7 (as the code has it).  Looking up an identity that no registry of
    the chain defines raises [KeyError] with the message
    [No field named <identity>]; no handler of the container catches it: in
    [check_derived_fields] the lookup stands before the [try], and the
    error leaves the method with the state untouched. *)
Theorem lookup_missing_raises_KeyError (r : FieldInfoContainer) (X : FieldKey) :
  Forall (absent X) (chain r) ->
  __contains__ r X = false /\
  __getitem__ r X = Raise (KeyError (NoFieldNamed X)) /\
  (forall s acc, self s = r ->
     check_field X acc s = (Raise (KeyError (NoFieldNamed X)), s)) /\
  (forall s rest, self s = r ->
     check_derived_fields (Some (X :: rest)) s
     = (Raise (KeyError (NoFieldNamed X)), s)).
Proof.
  intros Habs.
  assert (Hget : __getitem__ r X = Raise (KeyError (NoFieldNamed X)))
    by now apply getitem_absent.
  assert (Hstep : forall s acc, self s = r ->
            check_field X acc s = (Raise (KeyError (NoFieldNamed X)), s)).
  { intros s acc <-. unfold check_field, bind, gets, lift. simpl.
    now rewrite Hget. }
  repeat split; try assumption.
  - now apply contains_false_chain.
  - intros s rest Hs. unfold check_derived_fields, fields_or_keys, bind, ret.
    simpl. unfold bind. now rewrite (Hstep s _ Hs).
Qed.

Lemma lookup_missing_raises_KeyError_witness :
  __getitem__ Sample.R1 Sample.ghost
  = Raise (KeyError (NoFieldNamed Sample.ghost)).
Proof.
  apply (@lookup_missing_raises_KeyError Sample.R1 Sample.ghost).
  repeat constructor.
Defined.

(** C7 as stated fails: the error of a missing lookup is not the
    [YTFieldNotFound] that the validation pass tells apart from other
    errors. *)
Lemma lookup_missing_is_not_YTFieldNotFound :
  __contains__ Sample.alone Sample.ghost = false /\
  __getitem__ Sample.alone Sample.ghost
  <> Raise (YTFieldNotFound Sample.ghost).
Proof. split; [reflexivity | discriminate]. Qed.

(** ** Sorting *)

Section KeySort.
Variables A K : Type.
Variable key : A -> K.
Variable ltb : K -> K -> bool.

Hypothesis ltb_irrefl : forall a, ltb a a = false.
Hypothesis ltb_trans :
  forall a b c, ltb a b = true -> ltb b c = true -> ltb a c = true.
Hypothesis ltb_connected :
  forall a b, ltb a b = false -> ltb b a = false -> a = b.

Local Notation "'kle'" := (key_le key ltb).
Local Notation "'ksort'" := (Py.sorted_key key ltb).
Local Notation "'kins'" := (Py.insert (fun a b => ltb (key a) (key b))).

Lemma ltb_asym (a b : K) : ltb a b = true -> ltb b a = false.
Proof.
  intros Hab. destruct (ltb b a) eqn:Hba; [|reflexivity].
  rewrite <- (ltb_irrefl a). symmetry. eapply ltb_trans; eassumption.
Qed.

Lemma le_trans (x y z : A) : kle x y -> kle y z -> kle x z.
Proof.
  unfold key_le. intros Hxy Hyz.
  destruct (ltb (key z) (key x)) eqn:Hzx; [|reflexivity].
  destruct (ltb (key x) (key y)) eqn:Hlt.
  - rewrite (ltb_trans Hzx Hlt) in Hyz. discriminate.
  - rewrite (ltb_connected Hlt Hxy) in Hzx. congruence.
Qed.

Lemma insert_perm (x : A) (l : list A) : Permutation (kins x l) (x :: l).
Proof.
  induction l as [|y l IH]; simpl; [reflexivity|].
  destruct (ltb (key y) (key x)); [|reflexivity].
  rewrite IH. apply perm_swap.
Qed.

Lemma sorted_perm (l : list A) : Permutation (ksort l) l.
Proof.
  unfold Py.sorted_key, Py.sorted.
  induction l as [|x l IH]; simpl; [reflexivity|].
  rewrite insert_perm. now constructor.
Qed.

Lemma insert_sorted (x : A) (l : list A) :
  StronglySorted kle l -> StronglySorted kle (kins x l).
Proof.
  induction 1 as [|y l Hs IH Hall]; simpl.
  - repeat constructor.
  - destruct (ltb (key y) (key x)) eqn:Hyx.
    + constructor; [assumption|].
      eapply Permutation_Forall; [symmetry; apply insert_perm|].
      constructor; [|assumption].
      unfold key_le. now apply ltb_asym.
    + constructor; [now constructor|].
      constructor; [exact Hyx|].
      eapply Forall_impl; [|exact Hall].
      intros z Hyz. eapply le_trans; [exact Hyx | exact Hyz].
Qed.

Lemma sorted_sorted (l : list A) : StronglySorted kle (ksort l).
Proof.
  unfold Py.sorted_key, Py.sorted.
  induction l as [|x l IH]; simpl; [constructor|].
  now apply insert_sorted.
Qed.

(** Two sorted lists with the same elements are the same list, when the
    key tells the elements apart. *)
Lemma sorted_unique (l1 : list A) :
  (forall x y, In x l1 -> In y l1 -> key x = key y -> x = y) ->
  forall l2,
    StronglySorted kle l1 -> StronglySorted kle l2 -> Permutation l1 l2 ->
    l1 = l2.
Proof.
  induction l1 as [|a l1 IH]; intros Hinj l2 Hs1 Hs2 Hp.
  - apply Permutation_nil in Hp. now subst.
  - destruct l2 as [|b l2].
    + apply Permutation_sym, Permutation_nil in Hp. discriminate.
    + inversion Hs1 as [|? ? Hs1' Hall1]; subst.
      inversion Hs2 as [|? ? Hs2' Hall2]; subst.
      assert (Hab : a = b).
      { assert (Ha : In a (b :: l2))
          by (eapply Permutation_in; [exact Hp | now left]).
        assert (Hb : In b (a :: l1))
          by (eapply Permutation_in; [symmetry; exact Hp | now left]).
        destruct Ha as [->|Ha]; [reflexivity|].
        destruct Hb as [->|Hb]; [reflexivity|].
        rewrite Forall_forall in Hall1, Hall2.
        apply Hinj; [now left | now right |].
        apply ltb_connected; [apply (Hall2 a Ha) | apply (Hall1 b Hb)]. }
      subst b. f_equal.
      apply IH; try assumption.
      * intros x y Hx Hy. apply Hinj; now right.
      * eapply Permutation_cons_inv. exact Hp.
Qed.

Lemma NoDup_map_injective (l : list A) :
  NoDup (map key l) ->
  forall x y, In x l -> In y l -> key x = key y -> x = y.
Proof.
  induction l as [|a l IH]; intros Hnd x y Hx Hy Hk; [contradiction|].
  inversion Hnd as [|? ? Hnotin Hnd']; subst.
  destruct Hx as [->|Hx], Hy as [->|Hy]; try reflexivity.
  - exfalso. apply Hnotin. rewrite Hk. now apply in_map.
  - exfalso. apply Hnotin. rewrite <- Hk. now apply in_map.
  - now apply IH.
Qed.

(** The sorted list does not depend on the order its elements came in. *)
Lemma sorted_key_permutation (l1 l2 : list A) :
  NoDup (map key l1) -> Permutation l1 l2 -> ksort l1 = ksort l2.
Proof.
  intros Hnd Hp.
  apply sorted_unique; try apply sorted_sorted.
  - intros x y Hx Hy. apply (@NoDup_map_injective l1 Hnd).
    + eapply Permutation_in; [apply sorted_perm | exact Hx].
    + eapply Permutation_in; [apply sorted_perm | exact Hy].
  - rewrite !sorted_perm. exact Hp.
Qed.
End KeySort.

(** The order of strings. *)

Lemma String_compare_OT (a b : string) :
  String.compare a b = OrdersEx.String_as_OT.compare a b.
Proof.
  revert b. induction a as [|c a IH]; intros [|d b]; reflexivity.
Qed.

Lemma String_ltb_lt (a b : string) :
  String.ltb a b = true <-> OrdersEx.String_as_OT.lt a b.
Proof.
  unfold String.ltb, OrdersEx.String_as_OT.lt. rewrite String_compare_OT.
  destruct (OrdersEx.String_as_OT.compare a b); split; congruence.
Qed.

Lemma String_ltb_irrefl (a : string) : String.ltb a a = false.
Proof.
  destruct (String.ltb a a) eqn:E; [|reflexivity].
  apply String_ltb_lt in E.
  now apply (StrictOrder_Irreflexive (R := OrdersEx.String_as_OT.lt)) in E.
Qed.

Lemma String_ltb_trans (a b c : string) :
  String.ltb a b = true -> String.ltb b c = true -> String.ltb a c = true.
Proof.
  rewrite !String_ltb_lt.
  apply (StrictOrder_Transitive (R := OrdersEx.String_as_OT.lt)).
Qed.

Lemma String_ltb_connected (a b : string) :
  String.ltb a b = false -> String.ltb b a = false -> a = b.
Proof.
  unfold String.ltb. rewrite (String.compare_antisym b a).
  destruct (String.compare a b) eqn:E; simpl; try discriminate.
  intros _ _. now apply String.compare_eq_iff.
Qed.

(** The order of tuples of two strings. *)

Lemma tuple_ltb_irrefl (a : string * string) : Py.tuple_ltb a a = false.
Proof.
  unfold Py.tuple_ltb. rewrite String.eqb_refl. apply String_ltb_irrefl.
Qed.

Lemma tuple_ltb_trans (a b c : string * string) :
  Py.tuple_ltb a b = true -> Py.tuple_ltb b c = true ->
  Py.tuple_ltb a c = true.
Proof.
  destruct a as [a1 a2], b as [b1 b2], c as [c1 c2]. unfold Py.tuple_ltb.
  cbn [fst snd].
  destruct (String.eqb_spec a1 b1) as [->|Hab];
    destruct (String.eqb_spec b1 c1) as [->|Hbc].
  - apply String_ltb_trans.
  - auto.
  - intros H _. destruct (String.eqb_spec a1 c1); [contradiction | exact H].
  - intros H1 H2. pose proof (String_ltb_trans _ _ _ H1 H2) as H13.
    destruct (String.eqb_spec a1 c1) as [->|]; [|exact H13].
    now rewrite String_ltb_irrefl in H13.
Qed.

Lemma tuple_ltb_connected (a b : string * string) :
  Py.tuple_ltb a b = false -> Py.tuple_ltb b a = false -> a = b.
Proof.
  destruct a as [a1 a2], b as [b1 b2]. unfold Py.tuple_ltb. cbn [fst snd].
  rewrite (String.eqb_sym b1 a1).
  destruct (String.eqb_spec a1 b1) as [->|Hne]; intros H1 H2.
  - f_equal. now apply String_ltb_connected.
  - exfalso. apply Hne. now apply String_ltb_connected.
Qed.

(** ** Registration *)

Lemma add_field_unfold :
  add_field = add_field_body (alias_body (add_field_rec (pred recursion_limit))).
Proof. reflexivity. Qed.

(** A call on a tuple name that is present, without the override flag:
    nothing happens. *)
Lemma add_field_present (name : FieldKey) (f : FieldFunction)
    (sampling_type : string) (kwargs : Kwargs) (s : State) :
  __contains__ (self s) name = true ->
  add_field name (Some f) sampling_type false kwargs s = (Ok RNone, s).
Proof.
  intros Hin. rewrite add_field_unfold.
  unfold add_field_body, bind, gets, ret. simpl. now rewrite Hin.
Qed.

(** A call on a tuple name that goes through: the definition is stored. *)
Lemma add_field_stores (c n : string) (f : FieldFunction)
    (sampling_type : string) (force_override : bool) (kwargs : Kwargs)
    (s : State) :
  negb force_override && __contains__ (self s) (Tup c n) = false ->
  add_field (Tup c n) (Some f) sampling_type force_override kwargs s
  = (Ok RNone,
     mkState (set_items
                (Dict.set FieldKey_eqb (Tup c n)
                   (mkDerivedField (Tup c n) sampling_type f kwargs)
                   (items (self s)))
                (self s))
             (mylog s)).
Proof.
  intros Hgo. rewrite add_field_unfold.
  unfold add_field_body, bind, gets, ret, __setitem__, modify. simpl.
  now rewrite Hgo.
Qed.

Lemma getitem_set_items_same (r : FieldInfoContainer) (k : FieldKey)
    (v : DerivedField) :
  __getitem__ (set_items (Dict.set FieldKey_eqb k v (items r)) r) k = Ok v.
Proof. apply getitem_local. simpl. apply get_set_same. Qed.

Lemma getitem_set_items_other (r : FieldInfoContainer) (k k' : FieldKey)
    (v : DerivedField) :
  k <> k' ->
  __getitem__ (set_items (Dict.set FieldKey_eqb k' v (items r)) r) k
  = __getitem__ r k.
Proof.
  intros Hne. rewrite !getitem_unfold. unfold __missing__. simpl.
  now rewrite get_set_other.
Qed.

(** C8.  Two calls of [add_field] on the same identity [(c, n)], each with
    a function.  Whatever the first call found, a second call without
    [force_override] returns [None] and leaves the state as it is, so the
    definition in place stays; with [force_override=True] the second call
    stores its own definition under the identity and touches no other
    key.  The definition in place after the first call is the one it
    built whenever that call had the flag or found the identity free. *)
Theorem add_field_twice (c n : string) (f1 f2 : FieldFunction)
    (st1 st2 : string) (kw1 kw2 : Kwargs) (o1 : bool) (s : State) :
  let name := Tup c n in
  let first := add_field name (Some f1) st1 o1 kw1 s in
  let s1 := snd first in
  let second := add_field name (Some f2) st2 true kw2 s1 in
  fst first = Ok RNone /\
  __getitem__ (self s1) name
  = (if negb o1 && __contains__ (self s) name
     then __getitem__ (self s) name
     else Ok (mkDerivedField name st1 f1 kw1)) /\
  add_field name (Some f2) st2 false kw2 s1 = (Ok RNone, s1) /\
  fst second = Ok RNone /\
  __getitem__ (self (snd second)) name = Ok (mkDerivedField name st2 f2 kw2) /\
  (forall k, k <> name ->
     __getitem__ (self (snd second)) k = __getitem__ (self s1) k).
Proof.
  intros name first s1 second.
  assert (Hfirst : fst first = Ok RNone /\
            __contains__ (self s1) name = true /\
            __getitem__ (self s1) name
            = (if negb o1 && __contains__ (self s) name
               then __getitem__ (self s) name
               else Ok (mkDerivedField name st1 f1 kw1))).
  { subst first s1 name.
    destruct (negb o1 && __contains__ (self s) (Tup c n)) eqn:Hgo.
    - apply andb_prop in Hgo as [Ho Hin].
      destruct o1; [discriminate|].
      rewrite add_field_present by assumption. simpl. auto.
    - rewrite add_field_stores by assumption. cbn [fst snd self].
      repeat split.
      + eapply contains_local. simpl. apply get_set_same.
      + apply getitem_set_items_same. }
  destruct Hfirst as [Hret [Hin Hdef]].
  assert (Hsecond : second =
            (Ok RNone,
             mkState (set_items
                        (Dict.set FieldKey_eqb name
                           (mkDerivedField name st2 f2 kw2) (items (self s1)))
                        (self s1))
                     (mylog s1))).
  { subst second name. apply add_field_stores. reflexivity. }
  split; [exact Hret|].
  split; [exact Hdef|].
  split; [now apply add_field_present|].
  rewrite Hsecond. cbn [fst snd self].
  split; [reflexivity|].
  split; [apply getitem_set_items_same|].
  intros k Hk. now apply getitem_set_items_other.
Qed.

(** ** Fluid aliases *)

(** The loop over the suffixes does not reach the decision: an alias of a
    curvilinear dataset is converted exactly when it ends in [_x], [_y] or
    [_z], whatever the gallery holds. *)
Lemma set_to_convert_suffix_only (alias_ : string)
    (aliases_gallery : list string) (to_convert : bool) :
  set_to_convert alias_ aliases_gallery to_convert
  = Py.str_in (Py.last2 alias_) ["_x"; "_y"; "_z"].
Proof.
  unfold set_to_convert.
  now destruct (Py.str_in (Py.last2 alias_) ["_x"; "_y"; "_z"]).
Qed.

(** The complete triple is renamed after the axes. *)
Lemma complete_triple_is_remapped :
  let run := __init__ Sample.known_triple Sample.spherical [Tup "enzo" "Foo"] None in
  fst run = Ok tt /\
  Dict.keys (items (self (snd run)))
  = [Tup "enzo" "Foo"; Tup "gas" "foo_r"; Tup "gas" "foo_theta";
     Tup "gas" "foo_phi"].
Proof. vm_compute. split; reflexivity. Qed.

(** C1.  On a spherical dataset with axes [r, theta, phi] whose catalog
    declares the incomplete pair of aliases [foo_x], [foo_y] for the on-disk
    field [("enzo", "Foo")], the pre-pass gallery holds no [foo_z], and yet
    the setup registers [foo_r] and [foo_theta]: [foo_x] is not registered
    unchanged. *)
Theorem incomplete_triple_is_remapped :
  let s0 :=
    mkState (mkFieldInfoContainer [] None Sample.known_pair [] Sample.spherical
               [Tup "enzo" "Foo"] None [] [] true) [] in
  let run := __init__ Sample.known_pair Sample.spherical [Tup "enzo" "Foo"] None in
  fst (get_aliases_gallery s0) = Ok ["foo_x"; "foo_y"] /\
  fst run = Ok tt /\
  Dict.keys (items (self (snd run)))
  = [Tup "enzo" "Foo"; Tup "gas" "foo_r"; Tup "gas" "foo_theta"] /\
  __contains__ (self (snd run)) (Tup "gas" "foo_x") = false /\
  field_aliases (self (snd run))
  = [(Tup "gas" "foo_r", Tup "enzo" "Foo");
     (Tup "gas" "foo_theta", Tup "enzo" "Foo")].
Proof. vm_compute. repeat split. Qed.

(** ** The depth of the calls between [add_field] and [alias] *)

Lemma acceptable_sampling (st : string) :
  Py.str_in st ["cell"; "particle"; "local"] = true ->
  st = "cell" \/ st = "particle" \/ st = "local".
Proof.
  unfold Py.str_in. cbn [existsb]. rewrite !orb_true_iff, !String.eqb_eq.
  intuition discriminate.
Qed.

Lemma sanitize_returns (st st' : string) (particle_type : bool) (s s' : State) :
  _sanitize_sampling_type st particle_type s = (Ok st', s') ->
  Py.str_in st' ["cell"; "particle"; "local"] = true /\ self s' = self s.
Proof.
  unfold _sanitize_sampling_type.
  destruct (Py.str_in (Py.lower st) ["cell"; "particle"; "local"]) eqn:Hin;
    cbn [negb]; [|discriminate].
  unfold bind, issue_deprecation_warning, log, ret, raise.
  destruct particle_type; cbn.
  - destruct (Py.lower st =? "particle"); cbn; [|discriminate].
    intros [= <- <-]. auto.
  - intros [= <- <-]. auto.
Qed.

Lemma sanitize_acceptable (st : string) (s : State) :
  Py.str_in st ["cell"; "particle"; "local"] = true ->
  _sanitize_sampling_type st false s = (Ok st, s).
Proof.
  intros H. destruct (acceptable_sampling _ H) as [->|[->| ->]]; reflexivity.
Qed.

(** A call of [add_field] on a bare name whose qualified identity is
    registered does not reach [alias]. *)
Lemma add_field_body_qualified (alias1 alias2 : FieldKey -> FieldKey ->
                                                option Units -> M unit)
    (bare : string) (f : FieldFunction) (st : string) (kwargs : Kwargs)
    (s : State) :
  kw_particle_type kwargs = false ->
  Py.str_in st ["cell"; "particle"; "local"] = true ->
  __contains__ (self s)
    (Tup (if st =? "particle" then "all" else default_fluid_type (ds (self s)))
         bare) = true ->
  add_field_body alias1 (Bare bare) (Some f) st false kwargs s
  = add_field_body alias2 (Bare bare) (Some f) st false kwargs s.
Proof.
  intros Hpt Hst Hin. unfold add_field_body, bind, gets. cbn.
  destruct (__contains__ (self s) (Bare bare)); [reflexivity|].
  rewrite Hpt, (sanitize_acceptable _ _ Hst).
  destruct (st =? "particle"); unfold ret; cbn; now rewrite Hin.
Qed.

(** The result of [add_field] does not depend on the depth left, from two
    frames on: the call that [alias] makes on the bare name finds the
    qualified identity just stored. *)
Lemma add_field_depth (d : nat) (name : FieldKey)
    (function : option FieldFunction) (sampling_type : string)
    (force_override : bool) (kwargs : Kwargs) (s : State) :
  add_field_rec (S (S d)) name function sampling_type force_override kwargs s
  = add_field_rec (S (S (S d))) name function sampling_type force_override
      kwargs s.
Proof.
  change (add_field_body (alias_body (add_field_rec (S d)))
            name function sampling_type force_override kwargs s
          = add_field_body (alias_body (add_field_rec (S (S d))))
              name function sampling_type force_override kwargs s).
  unfold add_field_body. unfold bind, gets. cbn [fst snd].
  destruct (negb force_override && __contains__ (self s) name); [reflexivity|].
  destruct function as [f|]; [|reflexivity].
  destruct name as [bare|c n]; [|reflexivity].
  destruct (_sanitize_sampling_type sampling_type (kw_particle_type kwargs) s)
    as [[st|e] s1] eqn:Hsan; [|reflexivity].
  apply sanitize_returns in Hsan as [Hst Hs1].
  assert (Hft : exists ftype,
            (if st =? "particle" then ret "all"
             else (fun s0 => (Ok (default_fluid_type (ds (self s0))), s0))) s1
            = (Ok ftype, s1) /\
            ftype = (if st =? "particle" then "all"
                     else default_fluid_type (ds (self s1)))).
  { destruct (st =? "particle"); eexists; split; reflexivity. }
  destruct Hft as (ftype & -> & Hftype).
  destruct (negb (__contains__ (self s1) (Tup ftype bare))); [|reflexivity].
  unfold __setitem__, modify. cbn [fst snd self mylog].
  set (D := mkDerivedField (Tup ftype bare) st f kwargs).
  set (s2 := mkState (set_items (Dict.set FieldKey_eqb (Tup ftype bare) D
                                   (items (self s1))) (self s1)) (mylog s1)).
  assert (Hget : __getitem__ (self s2) (Tup ftype bare) = Ok D).
  { subst s2. cbn [self]. apply getitem_set_items_same. }
  assert (Hin : __contains__ (self s2) (Tup ftype bare) = true).
  { subst s2. cbn [self]. eapply contains_local. cbn [items set_items].
    apply get_set_same. }
  assert (Halias : alias_body (add_field_rec (S d)) (Bare bare) (Tup ftype bare)
                     None s2
                   = alias_body (add_field_rec (S (S d))) (Bare bare)
                       (Tup ftype bare) None s2).
  { unfold alias_body, bind, gets, lift, modify. cbn [fst snd self mylog].
    rewrite Hin. cbn [negb]. rewrite Hget.
    assert (Hinner : forall u s3,
              self s3 = set_field_aliases
                          (Dict.set FieldKey_eqb (Bare bare) (Tup ftype bare)
                             (field_aliases (self s2))) (self s2) ->
              add_field_rec (S d) (Bare bare)
                (Some (TranslationFunc (Tup ftype bare)))
                (df_sampling_type D) false
                (mkKwargs u (df_display_name D) false []) s3
              = add_field_rec (S (S d)) (Bare bare)
                  (Some (TranslationFunc (Tup ftype bare)))
                  (df_sampling_type D) false
                  (mkKwargs u (df_display_name D) false []) s3).
    { intros u s3 Hs3.
      change (add_field_body (alias_body (add_field_rec d)) (Bare bare)
                (Some (TranslationFunc (Tup ftype bare)))
                (df_sampling_type D) false
                (mkKwargs u (df_display_name D) false []) s3
              = add_field_body (alias_body (add_field_rec (S d))) (Bare bare)
                  (Some (TranslationFunc (Tup ftype bare)))
                  (df_sampling_type D) false
                  (mkKwargs u (df_display_name D) false []) s3).
      apply add_field_body_qualified; [reflexivity | exact Hst |].
      rewrite Hs3. subst D s2. cbn [df_sampling_type self ds set_field_aliases
                                      set_items].
      rewrite <- Hftype.
      eapply contains_local. cbn [items]. apply get_set_same. }
    assert (Hget' : forall r, items r = items (self s2) ->
              fallback r = fallback (self s2) ->
              __getitem__ r (Tup ftype bare) = Ok D).
    { intros r Hi Hf. rewrite <- Hget.
      apply getitem_ext; [now rewrite Hi | exact Hf]. }
    destruct (unit_system_units (ds (self s2)) (df_units D)) as [u|];
      unfold ret; cbn [fst snd self mylog];
      rewrite Hget' by reflexivity; now rewrite Hinner. }
  now rewrite Halias.
Qed.

(** So the limit of the call stack is never what decides: two frames are
    all [add_field] uses. *)
Lemma add_field_two_frames (name : FieldKey) (function : option FieldFunction)
    (sampling_type : string) (force_override : bool) (kwargs : Kwargs)
    (s : State) :
  add_field name function sampling_type force_override kwargs s
  = add_field_rec 2 name function sampling_type force_override kwargs s.
Proof.
  assert (H : forall n,
            add_field_rec (n + 2) name function sampling_type force_override
              kwargs s
            = add_field_rec 2 name function sampling_type force_override
                kwargs s).
  { induction n as [|n IH]; [reflexivity|].
    rewrite <- IH.
    replace (S n + 2) with (S (S (S n))) by lia.
    replace (n + 2) with (S (S n)) by lia.
    symmetry. apply add_field_depth. }
  exact (H 998).
Qed.

(** ** One step of the validation loop *)

Lemma pop_local (field : FieldKey) (fi : DerivedField) (s : State) :
  Dict.get FieldKey_eqb field (items (self s)) = Some fi ->
  pop field s = (Ok fi, popped field s).
Proof. intros H. unfold pop. now rewrite H. Qed.

Lemma pop_absent (field : FieldKey) (s : State) :
  Dict.get FieldKey_eqb field (items (self s)) = None ->
  pop field s = (Raise (KeyError (MissingKey field)), s).
Proof. intros H. unfold pop. now rewrite H. Qed.

Lemma logged_nil (s : State) : logged [] s = s.
Proof. destruct s. unfold logged. simpl. now rewrite app_nil_r. Qed.

(** [check_field] acts as [verdict] decides. *)
Lemma check_field_verdict (field : FieldKey) (deps : Deps)
    (unavailable : list FieldKey) (s : State) :
  check_field field (deps, unavailable) s =
  match verdict (self s) field with
  | Failed e => (Raise e, s)
  | Kept fd =>
      (Ok (Dict.set FieldKey_eqb field fd deps, unavailable),
       logged (kept_log (self s) field) s)
  | Unsatisfied =>
      match pop field s with
      | (Ok _, s') => (Ok (deps, unavailable ++ [field]), s')
      | (Raise e, s') => (Raise e, s')
      end
  | Swallowed entry =>
      match pop field (logged entry s) with
      | (Ok _, s') => (Ok (deps, unavailable), s')
      | (Raise e, s') => (Raise e, s')
      end
  end.
Proof.
  unfold kept_log, verdict, check_field, bind, gets, lift, raise, ret. simpl.
  destruct (__getitem__ (self s) field) as [fi|e]; [|reflexivity].
  destruct (get_dependencies (ds (self s)) fi) as [e|fd].
  - destruct (key_in field (_show_field_errors (self s))); [reflexivity|].
    destruct (is_YTFieldNotFound e); simpl.
    + rewrite logged_nil. now destruct (pop field s) as [[?|?] ?].
    + destruct (_field_test_dataset (ds (self s))); [reflexivity|].
      unfold log, logged. simpl.
      now destruct (pop field _) as [[?|?] ?].
  - destruct (forallb _ (requested fd)); simpl.
    + reflexivity.
    + now destruct (pop field s) as [[?|?] ?].
Qed.

(** C4 (as the code has it).  When the dry run of a registered field
    raises [e]: with the field in [_show_field_errors] the error leaves
    [check_derived_fields], whatever its class; otherwise a
    [YTFieldNotFound] is swallowed and the field popped, with no log record
    and no entry in [unavailable]; any other error leaves the method on a
    field-test dataset, and is otherwise logged at debug level and the
    field popped, again without an entry in [unavailable]. *)
Theorem discovery_error_policy (field : FieldKey) (fi : DerivedField) (e : Exc)
    (deps : Deps) (unavailable rest : list FieldKey) (s : State) :
  Dict.get FieldKey_eqb field (items (self s)) = Some fi ->
  get_dependencies (ds (self s)) fi = Raises e ->
  let entry := Debug "Raises %s during field %s detection."
                 [LExcType e; LKey field] in
  check_field field (deps, unavailable) s =
    (if key_in field (_show_field_errors (self s)) then (Raise e, s)
     else if is_YTFieldNotFound e then
       (Ok (deps, unavailable), popped field s)
     else if _field_test_dataset (ds (self s)) then (Raise e, s)
     else (Ok (deps, unavailable), popped field (logged [entry] s))) /\
  (key_in field (_show_field_errors (self s))
   || negb (is_YTFieldNotFound e) && _field_test_dataset (ds (self s)) = true ->
   check_derived_fields (Some (field :: rest)) s = (Raise e, s)).
Proof.
  intros Hget Hdep entry.
  assert (Hstep : forall deps unavailable,
    check_field field (deps, unavailable) s =
    (if key_in field (_show_field_errors (self s)) then (Raise e, s)
     else if is_YTFieldNotFound e then
       (Ok (deps, unavailable), popped field s)
     else if _field_test_dataset (ds (self s)) then (Raise e, s)
     else (Ok (deps, unavailable), popped field (logged [entry] s)))).
  { intros deps' un'. subst entry. rewrite check_field_verdict. unfold verdict.
    rewrite (getitem_local _ _ Hget), Hdep.
    destruct (key_in field (_show_field_errors (self s))); [reflexivity|].
    destruct (is_YTFieldNotFound e).
    - rewrite logged_nil. now rewrite (pop_local _ _ Hget).
    - destruct (_field_test_dataset (ds (self s))); [reflexivity|].
      now rewrite (@pop_local field fi (logged _ s) Hget). }
  split; [apply Hstep|].
  intros Hraise.
  unfold check_derived_fields, fields_or_keys, bind, ret. simpl. unfold bind.
  rewrite Hstep.
  destruct (key_in field (_show_field_errors (self s))); [reflexivity|].
  simpl in Hraise. destruct (is_YTFieldNotFound e); [discriminate|].
  simpl in Hraise. now rewrite Hraise.
Qed.

Lemma discovery_error_policy_witness :
  check_field Sample.broken ([], []) Sample.only_broken
  = (Ok ([], []),
     popped Sample.broken
       (logged [Debug "Raises %s during field %s detection."
                  [LExcType (OtherException "ZeroDivisionError");
                   LKey Sample.broken]]
               Sample.only_broken)).
Proof.
  exact (proj1 (@discovery_error_policy Sample.broken
                  (Sample.field Sample.broken (Function 3))
                  (OtherException "ZeroDivisionError") [] [] []
                  Sample.only_broken eq_refl eq_refl)).
Defined.

(** C4 as stated fails twice.  A field whose dry run raises
    [YTFieldNotFound] is popped but not recorded: the pass over the registry
    that holds only such a field returns an empty [unavailable].  And with
    that field in [_show_field_errors] the same error leaves the method. *)
Lemma not_found_is_not_recorded :
  get_dependencies Sample.spherical (Sample.field Sample.lost (Function 2))
  = Raises (YTFieldNotFound (Tup "gas" "magnetic_field_x")) /\
  fst (check_derived_fields None Sample.only_lost) = Ok ([], []) /\
  items (self (snd (check_derived_fields None Sample.only_lost))) = [] /\
  check_derived_fields None Sample.strict_lost
  = (Raise (YTFieldNotFound (Tup "gas" "magnetic_field_x")), Sample.strict_lost).
Proof. repeat split. Qed.

(** ** The validation loop *)

Lemma for_each_cons (A B : Type) (x : A) (l : list A) (body : A -> B -> M B)
    (acc : B) (s : State) :
  for_each (x :: l) body acc s =
  match body x acc s with
  | (Ok acc', s') => for_each l body acc' s'
  | (Raise e, s') => (Raise e, s')
  end.
Proof. reflexivity. Qed.

(** The verdict on [k] reads the registry only through the lookup of [k],
    the on-disk list, the strict set and the dataset's dry run and flag. *)
Lemma verdict_ext (r r' : FieldInfoContainer) (k : FieldKey) :
  Dict.get FieldKey_eqb k (items r') = Dict.get FieldKey_eqb k (items r) ->
  fallback r' = fallback r ->
  get_dependencies (ds r') = get_dependencies (ds r) ->
  _field_test_dataset (ds r') = _field_test_dataset (ds r) ->
  field_list r' = field_list r ->
  _show_field_errors r' = _show_field_errors r ->
  verdict r' k = verdict r k.
Proof.
  intros Hget Hfb Hdep Hflag Hfl Hsfe. unfold verdict.
  now rewrite (getitem_ext _ _ _ Hget Hfb), Hdep, Hflag, Hfl, Hsfe.
Qed.

Lemma verdict_popped_other (r : FieldInfoContainer) (x k : FieldKey) :
  k <> x ->
  verdict (set_items (Dict.remove FieldKey_eqb x (items r)) r) k = verdict r k.
Proof.
  intros Hne. apply verdict_ext; try reflexivity.
  simpl. now apply get_remove_other.
Qed.

Lemma set_items_set_items (d d' : Dict.t FieldKey DerivedField)
    (r : FieldInfoContainer) :
  set_items d (set_items d' r) = set_items d r.
Proof. reflexivity. Qed.

Lemma set_items_same (r : FieldInfoContainer) : set_items (items r) r = r.
Proof. now destruct r. Qed.

Lemma filter_filter (A : Type) (p q : A -> bool) (l : list A) :
  filter p (filter q l) = filter (fun x => q x && p x) l.
Proof.
  induction l as [|x l IH]; simpl; [reflexivity|].
  destruct (q x); simpl; [destruct (p x)|]; now rewrite IH.
Qed.

Lemma fold_left_ext_in (A B : Type) (f g : B -> A -> B) (l : list A) :
  (forall b x, In x l -> f b x = g b x) ->
  forall b, fold_left f l b = fold_left g l b.
Proof.
  induction l as [|x l IH]; intros H b; simpl; [reflexivity|].
  rewrite H by now left. apply IH. intros; apply H; now right.
Qed.

Lemma filter_all (A : Type) (p : A -> bool) (l : list A) :
  (forall x, In x l -> p x = true) -> filter p l = l.
Proof.
  induction l as [|x l IH]; intros H; simpl; [reflexivity|].
  rewrite H by now left. f_equal. apply IH. intros; apply H; now right.
Qed.

Lemma key_in_cons (k x : FieldKey) (l : list FieldKey) :
  key_in k (x :: l) = FieldKey_eqb k x || key_in k l.
Proof. reflexivity. Qed.

(** A loop that returns has popped, among the fields of [l], exactly those
    that were not kept, and has recorded the kept ones. *)
Lemma loop_returns (l : list FieldKey) :
  NoDup l ->
  forall deps unavailable s deps' unavailable' s',
    for_each l check_field (deps, unavailable) s
    = (Ok (deps', unavailable'), s') ->
    self s' = set_items (survivors (self s) l) (self s) /\
    deps' = fold_left (record_kept (self s)) l deps /\
    unavailable' =
      unavailable ++
      filter (fun k => match verdict (self s) k with
                       | Unsatisfied => true | _ => false end) l /\
    (forall k, In k l -> is_kept (self s) k = false ->
       Dict.mem FieldKey_eqb k (items (self s)) = true) /\
    (forall k e, In k l -> verdict (self s) k <> Failed e).
Proof.
  induction 1 as [|x l Hx Hnd IH]; intros deps un s deps' un' s' Hrun.
  - cbn in Hrun. injection Hrun as <- <- <-. unfold survivors. simpl.
    rewrite app_nil_r. repeat split; [|tauto|tauto].
    rewrite filter_all by reflexivity.
    now rewrite set_items_same.
  - rewrite for_each_cons, check_field_verdict in Hrun.
    assert (Hother : forall r1,
              r1 = self s \/
              r1 = set_items (Dict.remove FieldKey_eqb x (items (self s))) (self s) ->
              forall k, In k l -> verdict r1 k = verdict (self s) k).
    { intros r1 [->| ->] k Hk; [reflexivity|].
      apply verdict_popped_other. intros ->. contradiction. }
    assert (Hfold : forall r1 d,
              (forall k, In k l -> verdict r1 k = verdict (self s) k) ->
              fold_left (record_kept r1) l d
              = fold_left (record_kept (self s)) l d).
    { intros r1 d Hv. apply fold_left_ext_in. intros b k Hk.
      unfold record_kept. now rewrite Hv. }
    assert (Hfilt : forall r1,
              (forall k, In k l -> verdict r1 k = verdict (self s) k) ->
              filter (fun k => match verdict r1 k with
                               | Unsatisfied => true | _ => false end) l
              = filter (fun k => match verdict (self s) k with
                                 | Unsatisfied => true | _ => false end) l).
    { intros r1 Hv. apply filter_ext_in. intros k Hk. now rewrite Hv. }
    assert (Hxl : key_in x l = false).
    { destruct (key_in x l) eqn:E; [|reflexivity].
      apply key_in_In in E. contradiction. }
    assert (Hpop : forall s0, self s0 = self s ->
              is_kept (self s) x = false ->
              survivors (set_items (Dict.remove FieldKey_eqb x (items (self s)))
                           (self s)) l
              = survivors (self s) (x :: l)).
    { intros s0 _ Hk.
      remember (set_items (Dict.remove FieldKey_eqb x (items (self s))) (self s))
        as r1 eqn:Hr1.
      unfold survivors.
      assert (items r1 = filter (fun kv => negb (FieldKey_eqb x (fst kv)))
                           (items (self s))) as ->
        by (subst r1; reflexivity).
      rewrite filter_filter. apply filter_ext_in. intros [k v] Hin. cbn [fst].
      rewrite key_in_cons.
      destruct (FieldKey_eqb_spec k x) as [->|Hne].
      - rewrite FieldKey_eqb_refl. simpl. now rewrite Hk.
      - assert (FieldKey_eqb x k = false) as ->
          by (apply FieldKey_eqb_neq; congruence).
        simpl. unfold is_kept. subst r1. now rewrite verdict_popped_other. }
    assert (Hloc_all : forall fi,
              Dict.get FieldKey_eqb x (items (self s)) = Some fi ->
              (forall k, In k l ->
                 is_kept (set_items (Dict.remove FieldKey_eqb x (items (self s)))
                            (self s)) k = false ->
                 Dict.mem FieldKey_eqb k
                   (items (set_items (Dict.remove FieldKey_eqb x (items (self s)))
                             (self s))) = true) ->
              forall k, In k (x :: l) -> is_kept (self s) k = false ->
                Dict.mem FieldKey_eqb k (items (self s)) = true).
    { intros fi Hloc Hl k [<-|Hk] Hnk.
      - unfold Dict.mem. now rewrite Hloc.
      - assert (Hne : k <> x) by (intros ->; contradiction).
        specialize (Hl k Hk). unfold is_kept in Hl, Hnk.
        rewrite verdict_popped_other in Hl by assumption.
        specialize (Hl Hnk). unfold Dict.mem in *. cbn [items set_items] in Hl.
        now rewrite get_remove_other in Hl. }
    destruct (verdict (self s) x) as [fd| |entry|e] eqn:Hv.
    + (* kept *)
      apply IH in Hrun as (Hs & Hd & Hu & Hl & Hnf). cbn [self logged] in *.
      repeat split; [| | |intros k [<-|Hk] Hnk;
                            [unfold is_kept in Hnk; now rewrite Hv in Hnk
                            |now apply Hl]
                     |intros k e [<-|Hk];
                            [now rewrite Hv | now apply Hnf]].
      * rewrite Hs. f_equal. unfold survivors. apply filter_ext_in.
        intros [k v] Hin. cbn [fst]. rewrite key_in_cons.
        destruct (FieldKey_eqb_spec k x) as [->|Hne]; simpl; [|reflexivity].
        rewrite Hxl. unfold is_kept. now rewrite Hv.
      * rewrite Hd. simpl. unfold record_kept at 3. now rewrite Hv.
      * rewrite Hu. simpl. now rewrite Hv.
    + (* unsatisfied *)
      destruct (Dict.get FieldKey_eqb x (items (self s))) as [fi|] eqn:Hloc.
      * rewrite (pop_local _ _ Hloc) in Hrun.
        apply IH in Hrun as (Hs & Hd & Hu & Hl & Hnf). cbn [self popped] in *.
        repeat split; [| | |apply (Hloc_all fi eq_refl Hl)
                       |intros k e [<-|Hk];
                          [now rewrite Hv
                          |rewrite <- (Hother _ (or_intror eq_refl) k Hk);
                           now apply Hnf]].
        -- rewrite Hs, set_items_set_items. f_equal.
           apply (Hpop s eq_refl). unfold is_kept. now rewrite Hv.
        -- rewrite Hd. simpl. unfold record_kept at 3. rewrite Hv.
           apply Hfold. apply Hother. now right.
        -- rewrite Hu. simpl. rewrite Hv, <- app_assoc. simpl.
           f_equal. f_equal. apply Hfilt. apply Hother. now right.
      * rewrite (pop_absent _ _ Hloc) in Hrun. discriminate.
    + (* swallowed *)
      destruct (Dict.get FieldKey_eqb x (items (self s))) as [fi|] eqn:Hloc.
      * rewrite (@pop_local x fi (logged entry s) Hloc) in Hrun.
        apply IH in Hrun as (Hs & Hd & Hu & Hl & Hnf).
        cbn [self popped logged] in *.
        repeat split; [| | |apply (Hloc_all fi eq_refl Hl)
                       |intros k e [<-|Hk];
                          [now rewrite Hv
                          |rewrite <- (Hother _ (or_intror eq_refl) k Hk);
                           now apply Hnf]].
        -- rewrite Hs, set_items_set_items. f_equal.
           apply (Hpop s eq_refl). unfold is_kept. now rewrite Hv.
        -- rewrite Hd. simpl. unfold record_kept at 3. rewrite Hv.
           apply Hfold. apply Hother. now right.
        -- rewrite Hu. simpl. rewrite Hv.
           f_equal. apply Hfilt. apply Hother. now right.
      * rewrite (@pop_absent x (logged entry s) Hloc) in Hrun. discriminate.
    + discriminate.
Qed.

(** ** The whole pass *)

Lemma fields_or_keys_state (fields_to_check : option (list FieldKey))
    (s : State) :
  snd (fields_or_keys fields_to_check s) = s.
Proof.
  destruct fields_to_check as [[|f l]|]; cbn; unfold bind, gets, lift; cbn;
    try reflexivity; now destruct (keys (self s)).
Qed.

(** The default selection: the own keys, unless [keys] raises. *)
Lemma fields_or_keys_None (s : State) :
  fields_or_keys None s =
  (if match fallback (self s) with Some fb => truthy fb | None => false end
   then Raise (TypeError
                 "unsupported operand type(s) for +=: 'dict_keys' and 'list'")
   else Ok (Dict.keys (items (self s))), s).
Proof.
  unfold fields_or_keys, bind, gets, lift, ret. cbn [fst snd].
  rewrite keys_spec.
  now destruct (match fallback (self s) with
                | Some fb => truthy fb | None => false end).
Qed.

Lemma fields_or_keys_default (s : State) (l : list FieldKey) :
  fst (fields_or_keys None s) = Ok l -> l = Dict.keys (items (self s)).
Proof.
  rewrite fields_or_keys_None. cbn [fst].
  destruct (match fallback (self s) with Some fb => truthy fb | None => false end);
    [intros H; discriminate H | now intros [= <-]].
Qed.

(** A pass that returns is its loop followed by the publication. *)
Lemma check_derived_fields_returns (fields_to_check : option (list FieldKey))
    (s s' : State) (deps : Deps) (unavailable : list FieldKey) :
  check_derived_fields fields_to_check s = (Ok (deps, unavailable), s') ->
  exists checked s_loop,
    fields_or_keys fields_to_check s = (Ok checked, s) /\
    for_each checked check_field ([], []) s = (Ok (deps, unavailable), s_loop) /\
    s' = snd (publish deps s_loop).
Proof.
  unfold check_derived_fields, bind.
  pose proof (fields_or_keys_state fields_to_check s) as Hst.
  destruct (fields_or_keys fields_to_check s) as [[checked|e] s0]; cbn in Hst;
    subst s0; [|intros H; discriminate H].
  destruct (for_each checked check_field _ s) as [[[d u]|e] s_loop] eqn:Hloop;
    cbn; [|intros H; discriminate H].
  intros [= <- <- <-]. exists checked, s_loop. repeat split. exact Hloop.
Qed.

Lemma get_fold_record_not_kept (r : FieldInfoContainer) (k : FieldKey)
    (l : list FieldKey) :
  is_kept r k = false ->
  forall d, Dict.get FieldKey_eqb k (fold_left (record_kept r) l d)
            = Dict.get FieldKey_eqb k d.
Proof.
  intros Hk. induction l as [|x l IH]; intros d; simpl; [reflexivity|].
  rewrite IH. unfold record_kept. unfold is_kept in Hk.
  destruct (verdict r x) eqn:Hv; try reflexivity.
  apply get_set_other. intros ->. now rewrite Hv in Hk.
Qed.

(** What one step leaves alone: every attribute of the container but the
    dictionary, every other key of the dictionary and of [deps], and the
    fields already in [unavailable]. *)
Lemma check_field_frame (x : FieldKey) (deps deps' : Deps)
    (un un' : list FieldKey) (s s' : State) :
  check_field x (deps, un) s = (Ok (deps', un'), s') ->
  self s' = set_items (items (self s')) (self s) /\
  (forall f, f <> x ->
     Dict.get FieldKey_eqb f (items (self s'))
     = Dict.get FieldKey_eqb f (items (self s)) /\
     Dict.get FieldKey_eqb f deps' = Dict.get FieldKey_eqb f deps) /\
  (forall y, In y un -> In y un').
Proof.
  rewrite check_field_verdict.
  destruct (verdict (self s) x) as [fd| |entry|e].
  - intros [= <- <- <-]. cbn [self logged]. rewrite set_items_same.
    repeat split; auto. now apply get_set_other.
  - unfold pop.
    destruct (Dict.get FieldKey_eqb x (items (self s))); [|discriminate].
    intros [= <- <- <-]. cbn [self items set_items]. repeat split.
    + now apply get_remove_other.
    + intros y Hy. apply in_or_app. now left.
  - unfold pop. cbn [self logged].
    destruct (Dict.get FieldKey_eqb x (items (self s))); [|discriminate].
    intros [= <- <- <-]. cbn [self items set_items]. repeat split; auto.
    now apply get_remove_other.
  - discriminate.
Qed.

(** A loop that never checks [f] leaves [f] alone. *)
Lemma loop_frame (f : FieldKey) (l : list FieldKey) :
  ~ In f l ->
  forall deps un s deps' un' s',
    for_each l check_field (deps, un) s = (Ok (deps', un'), s') ->
    self s' = set_items (items (self s')) (self s) /\
    Dict.get FieldKey_eqb f (items (self s'))
    = Dict.get FieldKey_eqb f (items (self s)) /\
    Dict.get FieldKey_eqb f deps' = Dict.get FieldKey_eqb f deps /\
    (forall y, In y un -> In y un').
Proof.
  induction l as [|x l IH]; intros Hf deps un s deps' un' s'.
  - cbn. intros [= <- <- <-]. rewrite set_items_same. auto.
  - rewrite for_each_cons.
    destruct (check_field x (deps, un) s) as [[[d1 u1]|e] s1] eqn:Hstep;
      [|discriminate].
    intros Hrest.
    apply check_field_frame in Hstep as (Hs1 & Hother & Hun1).
    apply IH in Hrest as (Hs' & Hget & Hdeps & Hun');
      [|intros Hin; apply Hf; now right].
    destruct (Hother f) as [Hget1 Hdeps1]; [intros ->; apply Hf; now left|].
    repeat split.
    + rewrite Hs', Hs1. reflexivity.
    + congruence.
    + congruence.
    + auto.
Qed.

Lemma for_each_app_returns (A B : Type) (body : A -> B -> M B)
    (l1 l2 : list A) :
  forall acc s acc' s',
    for_each (l1 ++ l2) body acc s = (Ok acc', s') ->
    exists acc1 s1,
      for_each l1 body acc s = (Ok acc1, s1) /\
      for_each l2 body acc1 s1 = (Ok acc', s').
Proof.
  induction l1 as [|x l1 IH]; intros acc s acc' s'; simpl app.
  - intros H. exists acc, s. split; [reflexivity | exact H].
  - rewrite !for_each_cons.
    destruct (body x acc s) as [[acc0|e] s0]; [apply IH | discriminate].
Qed.

Lemma count_occ_one_split (f : FieldKey) (l : list FieldKey) :
  count_occ FieldKey_eq_dec l f = 1 ->
  exists l1 l2, l = l1 ++ f :: l2 /\ ~ In f l1 /\ ~ In f l2.
Proof.
  induction l as [|x l IH]; simpl; [discriminate|].
  destruct (FieldKey_eq_dec x f) as [->|Hne].
  - intros [= H0]. exists [], l. repeat split; [tauto|].
    now apply (count_occ_not_In FieldKey_eq_dec).
  - intros H1. destruct (IH H1) as (l1 & l2 & -> & Hl1 & Hl2).
    exists (x :: l1), l2. repeat split; [|assumption].
    intros [->|Hin]; [now apply Hne | now apply Hl1].
Qed.

(** C3.  Let a pass return, and let [field] be checked once in it, the
    list [checked] being the one given or, by default, the keys.  If the
    dry run of the definition of [field] returns a detector that asks for
    something outside the on-disk list, then that definition was the
    registry's own, the registry returned has none for [field], [field] is
    in the returned [unavailable], and the returned [deps] has no entry
    for it. *)
Theorem unsatisfiable_field_is_pruned
    (fields_to_check : option (list FieldKey)) (checked : list FieldKey)
    (s s' : State) (deps : Deps) (unavailable : list FieldKey)
    (field : FieldKey) (fi : DerivedField) (fd : FieldDetector) :
  fields_or_keys fields_to_check s = (Ok checked, s) ->
  count_occ FieldKey_eq_dec checked field = 1 ->
  check_derived_fields fields_to_check s = (Ok (deps, unavailable), s') ->
  __getitem__ (self s) field = Ok fi ->
  get_dependencies (ds (self s)) fi = Detected fd ->
  forallb (fun f => key_in f (field_list (self s))) (requested fd) = false ->
  Dict.get FieldKey_eqb field (items (self s)) = Some fi /\
  Dict.get FieldKey_eqb field (items (self s')) = None /\
  In field unavailable /\
  Dict.get FieldKey_eqb field deps = None.
Proof.
  intros Hsel Honce Hrun Hget Hdep Hmiss.
  apply check_derived_fields_returns in Hrun
    as (checked' & s_loop & Hsel' & Hloop & ->).
  rewrite Hsel in Hsel'. injection Hsel' as <-.
  destruct (count_occ_one_split _ _ Honce) as (l1 & l2 & -> & Hl1 & Hl2).
  apply for_each_app_returns in Hloop as ([d1 u1] & s1 & Hfirst & Hrest).
  apply (@loop_frame field l1 Hl1) in Hfirst as (Hs1 & Hget1 & Hdeps1 & _).
  assert (Hv : verdict (self s1) field = Unsatisfied).
  { rewrite (@verdict_ext (self s) (self s1) field);
      try (rewrite Hs1; reflexivity); [|exact Hget1].
    unfold verdict. now rewrite Hget, Hdep, Hmiss. }
  rewrite for_each_cons, check_field_verdict, Hv in Hrest.
  destruct (Dict.get FieldKey_eqb field (items (self s1))) as [fi'|] eqn:Hloc;
    [|rewrite (pop_absent _ _ Hloc) in Hrest; discriminate].
  rewrite (pop_local _ _ Hloc) in Hrest.
  apply (@loop_frame field l2 Hl2) in Hrest as (_ & Hget2 & Hdeps2 & Hun2).
  cbn [self popped items set_items] in Hget2.
  rewrite get_remove_same in Hget2.
  repeat split.
  - symmetry in Hget1. rewrite (getitem_local _ _ Hget1) in Hget.
    congruence.
  - exact Hget2.
  - apply Hun2. apply in_or_app. right. now left.
  - rewrite Hdeps2, Hdeps1. reflexivity.
Qed.

Lemma NoDup_sample_keys : NoDup (Dict.keys Sample.mixed_items).
Proof.
  repeat (constructor; [cbn; intuition discriminate|]). constructor.
Qed.

Lemma unsatisfiable_field_is_pruned_witness :
  Dict.get FieldKey_eqb Sample.ghost (items (self Sample.mixed))
  = Some (Sample.field Sample.ghost (Function 1)) /\
  Dict.get FieldKey_eqb Sample.ghost
    (items (self (snd (check_derived_fields None Sample.mixed)))) = None /\
  In Sample.ghost [Sample.ghost] /\
  Dict.get FieldKey_eqb Sample.ghost
    [(Sample.density, mkFieldDetector [Tup "gas" "density"]);
     (Sample.pressure, mkFieldDetector [Tup "gas" "density"])] = None.
Proof.
  exact (@unsatisfiable_field_is_pruned None (Dict.keys Sample.mixed_items)
           Sample.mixed
           (snd (check_derived_fields None Sample.mixed))
           [(Sample.density, mkFieldDetector [Tup "gas" "density"]);
            (Sample.pressure, mkFieldDetector [Tup "gas" "density"])]
           [Sample.ghost]
           Sample.ghost (Sample.field Sample.ghost (Function 1))
           (mkFieldDetector [Tup "gas" "nonexistent"])
           eq_refl eq_refl eq_refl eq_refl eq_refl eq_refl).
Defined.

(** ** Running the pass again *)

(** A loop over fields that are all kept pops nothing and raises nothing. *)
Lemma loop_all_kept (l : list FieldKey) :
  forall deps unavailable s,
    (forall k, In k l -> is_kept (self s) k = true) ->
    for_each l check_field (deps, unavailable) s
    = (Ok (fold_left (record_kept (self s)) l deps, unavailable),
       logged (flat_map (kept_log (self s)) l) s).
Proof.
  induction l as [|x l IH]; intros deps un s Hall.
  - cbn. now rewrite logged_nil.
  - rewrite for_each_cons, check_field_verdict.
    assert (Hx : is_kept (self s) x = true) by (apply Hall; now left).
    unfold is_kept in Hx.
    destruct (verdict (self s) x) as [fd| | |] eqn:Hv; try discriminate.
    rewrite IH by (intros k Hk; apply Hall; now right).
    cbn [self logged mylog fold_left flat_map].
    assert (record_kept (self s) deps x = Dict.set FieldKey_eqb x fd deps) as ->
      by (unfold record_kept; now rewrite Hv).
    unfold logged. cbn [self mylog]. now rewrite app_assoc.
Qed.

Lemma fold_record_filter (r : FieldInfoContainer) (l : list FieldKey) :
  forall d, fold_left (record_kept r) (filter (is_kept r) l) d
            = fold_left (record_kept r) l d.
Proof.
  induction l as [|x l IH]; intros d; simpl; [reflexivity|].
  destruct (is_kept r x) eqn:Hk; simpl; rewrite IH; [reflexivity|].
  assert (record_kept r d x = d) as ->; [|reflexivity].
  unfold record_kept. unfold is_kept in Hk. now destruct (verdict r x).
Qed.

Lemma keys_filter (V : Type) (p : FieldKey -> bool) (d : Dict.t FieldKey V) :
  Dict.keys (filter (fun kv => p (fst kv)) d) = filter p (Dict.keys d).
Proof.
  unfold Dict.keys. induction d as [|[k v] d IH]; simpl; [reflexivity|].
  destruct (p k); simpl; now rewrite IH.
Qed.

(** When every own key is checked, the survivors are the kept fields. *)
Lemma survivors_all (r : FieldInfoContainer) :
  survivors r (Dict.keys (items r))
  = filter (fun kv => is_kept r (fst kv)) (items r).
Proof.
  unfold survivors. apply filter_ext_in. intros [k v] Hin. cbn [fst].
  assert (key_in k (Dict.keys (items r)) = true) as ->.
  { apply key_in_In. unfold Dict.keys. now apply (in_map fst) in Hin. }
  reflexivity.
Qed.

(** C2.  Let the pass over all registered fields return [deps] and
    [unavailable] on a registry whose dictionary has each key once.  Run
    again on the state it left, the pass returns the same [deps] and an
    empty [unavailable], and the dictionary is the one the first pass
    left: no survivor is removed. *)
Theorem validation_is_idempotent (s s1 : State) (deps : Deps)
    (unavailable : list FieldKey) :
  NoDup (Dict.keys (items (self s))) ->
  check_derived_fields None s = (Ok (deps, unavailable), s1) ->
  exists s2,
    check_derived_fields None s1 = (Ok (deps, []), s2) /\
    items (self s2) = items (self s1).
Proof.
  intros Hnd Hrun.
  apply check_derived_fields_returns in Hrun as (l & s_loop & Hsel & Hloop & ->).
  assert (Hl : l = Dict.keys (items (self s))).
  { apply fields_or_keys_default. now rewrite Hsel. }
  subst l.
  apply (loop_returns Hnd) in Hloop as (Hs & Hd & _ & _ & _).
  rewrite survivors_all in Hs.
  set (r := self s) in *.
  set (s1 := snd (publish deps s_loop)).
  set (l1 := filter (is_kept r) (Dict.keys (items r))).
  assert (Hitems : items (self s1)
                   = filter (fun kv => is_kept r (fst kv)) (items r)).
  { subst s1. cbn. now rewrite Hs. }
  assert (Hfb : fallback (self s1) = fallback r).
  { subst s1. cbn. now rewrite Hs. }
  assert (Hkeys : fields_or_keys None s1 = (Ok l1, s1)).
  { rewrite fields_or_keys_None, Hfb.
    rewrite fields_or_keys_None in Hsel. fold r in Hsel.
    destruct (match fallback r with Some fb => truthy fb | None => false end);
      [discriminate Hsel|].
    rewrite Hitems. now rewrite (keys_filter (is_kept r)). }
  assert (Hv : forall k, In k l1 -> verdict (self s1) k = verdict r k).
  { intros k Hk. apply filter_In in Hk as [_ Hk].
    apply verdict_ext; try (subst s1; cbn; now rewrite Hs).
    rewrite Hitems, (get_filter (is_kept r)). now rewrite Hk. }
  assert (Hall : forall k, In k l1 -> is_kept (self s1) k = true).
  { intros k Hk. unfold is_kept. rewrite (Hv k Hk).
    apply filter_In in Hk as [_ Hk]. exact Hk. }
  assert (Hdeps : fold_left (record_kept (self s1)) l1 [] = deps).
  { rewrite Hd. unfold l1.
    rewrite <- (fold_record_filter r (Dict.keys (items r))).
    apply fold_left_ext_in. intros b k Hk. unfold record_kept.
    now rewrite (Hv k Hk). }
  eexists. split.
  - unfold check_derived_fields, bind. rewrite Hkeys.
    rewrite (loop_all_kept l1 [] [] s1 Hall). rewrite Hdeps. cbn. reflexivity.
  - reflexivity.
Qed.

Lemma validation_is_idempotent_witness :
  exists s2,
    check_derived_fields None (snd (check_derived_fields None Sample.mixed))
    = (Ok ([(Sample.density, mkFieldDetector [Tup "gas" "density"]);
            (Sample.pressure, mkFieldDetector [Tup "gas" "density"])], []),
       s2) /\
    items (self s2)
    = items (self (snd (check_derived_fields None Sample.mixed))).
Proof.
  exact (@validation_is_idempotent Sample.mixed
           (snd (check_derived_fields None Sample.mixed))
           [(Sample.density, mkFieldDetector [Tup "gas" "density"]);
            (Sample.pressure, mkFieldDetector [Tup "gas" "density"])]
           [Sample.ghost] NoDup_sample_keys eq_refl).
Defined.

(** ** When the pass returns *)

(** Without strict fields and off the field tests, no verdict on a field
    the registry can look up is a failure. *)
Lemma lenient_verdict (r : FieldInfoContainer) (k : FieldKey) (fi : DerivedField) :
  __getitem__ r k = Ok fi ->
  _show_field_errors r = [] ->
  _field_test_dataset (ds r) = false ->
  forall e, verdict r k <> Failed e.
Proof.
  intros Hget Hsfe Htest e. unfold verdict. rewrite Hget, Hsfe, Htest. cbn.
  destruct (get_dependencies (ds r) fi) as [e'|fd].
  - now destruct (is_YTFieldNotFound e').
  - now destruct (forallb _ (requested fd)).
Qed.

Lemma lenient_loop_returns (l : list FieldKey) :
  NoDup l ->
  forall acc s,
    (forall k, In k l -> Dict.mem FieldKey_eqb k (items (self s)) = true) ->
    _show_field_errors (self s) = [] ->
    _field_test_dataset (ds (self s)) = false ->
    exists acc' s', for_each l check_field acc s = (Ok acc', s').
Proof.
  induction 1 as [|x l Hx Hnd IH]; intros [deps un] s Hloc Hsfe Htest.
  - do 2 eexists. reflexivity.
  - rewrite for_each_cons, check_field_verdict.
    assert (Hmem : Dict.mem FieldKey_eqb x (items (self s)) = true)
      by (apply Hloc; now left).
    unfold Dict.mem in Hmem.
    destruct (Dict.get FieldKey_eqb x (items (self s))) as [fi|] eqn:Hget;
      [clear Hmem | discriminate].
    pose proof (@lenient_verdict _ _ _ (getitem_local _ _ Hget) Hsfe Htest) as Hok.
    assert (Hrest : forall k, In k l ->
              Dict.mem FieldKey_eqb k
                (Dict.remove FieldKey_eqb x (items (self s))) = true).
    { intros k Hk. unfold Dict.mem. rewrite get_remove_other.
      - apply Hloc. now right.
      - intros ->. contradiction. }
    destruct (verdict (self s) x) as [fd| |entry|e].
    + apply IH; try assumption. intros k Hk. apply Hloc. now right.
    + rewrite (pop_local _ _ Hget). now apply IH.
    + rewrite (@pop_local x fi (logged entry s) Hget). now apply IH.
    + now destruct (Hok e).
Qed.

(** In the everyday configuration (no fallback, no strict field, not a
    field-test dataset) the pass over all fields returns. *)
Lemma lenient_pass_returns (s : State) :
  NoDup (Dict.keys (items (self s))) ->
  fallback (self s) = None ->
  _show_field_errors (self s) = [] ->
  _field_test_dataset (ds (self s)) = false ->
  exists deps unavailable s',
    check_derived_fields None s = (Ok (deps, unavailable), s').
Proof.
  intros Hnd Hfb Hsfe Htest.
  unfold check_derived_fields, bind.
  rewrite fields_or_keys_None, Hfb.
  assert (Hloc : forall k, In k (Dict.keys (items (self s))) ->
            Dict.mem FieldKey_eqb k (items (self s)) = true).
  { intros k Hk. apply In_keys_get in Hk as [v Hv]. unfold Dict.mem.
    now rewrite Hv. }
  destruct (@lenient_loop_returns (Dict.keys (items (self s))) Hnd
              (([] : Deps), ([] : list FieldKey)) s Hloc Hsfe Htest)
    as ([deps un] & s1 & Hloop).
  exists deps, un. eexists.
  match goal with
  | |- context [for_each ?l ?b ?a s] =>
      change (for_each l b a s)
        with (for_each (Dict.keys (items (self s))) check_field
                (([] : Deps), ([] : list FieldKey)) s)
  end.
    rewrite Hloop. cbn. reflexivity.
Qed.

(** ** The order in which the fields are checked *)

(** The condition under which the loop returns: no verdict is a failure,
    and every field to pop is in the own dictionary. *)
Lemma loop_returns_when (l : list FieldKey) :
  NoDup l ->
  forall acc s,
    (forall k, In k l ->
       (forall e, verdict (self s) k <> Failed e) /\
       (is_kept (self s) k = false ->
        Dict.mem FieldKey_eqb k (items (self s)) = true)) ->
    exists acc' s', for_each l check_field acc s = (Ok acc', s').
Proof.
  induction 1 as [|x l Hx Hnd IH]; intros [deps un] s Hok.
  - do 2 eexists. reflexivity.
  - rewrite for_each_cons, check_field_verdict.
    destruct (Hok x (or_introl eq_refl)) as [Hnf Hloc].
    assert (Hrest : forall s1,
              self s1 = set_items (Dict.remove FieldKey_eqb x (items (self s)))
                          (self s) ->
              forall k, In k l ->
                (forall e, verdict (self s1) k <> Failed e) /\
                (is_kept (self s1) k = false ->
                 Dict.mem FieldKey_eqb k (items (self s1)) = true)).
    { intros s1 Hs1 k Hk.
      assert (Hne : k <> x) by (intros ->; contradiction).
      destruct (Hok k (or_intror Hk)) as [Hnf' Hloc'].
      unfold is_kept. rewrite Hs1, verdict_popped_other by assumption.
      split; [exact Hnf'|]. intros Hnk. unfold Dict.mem. cbn [items set_items].
      rewrite get_remove_other by assumption. now apply Hloc'. }
    assert (Hpop : is_kept (self s) x = false ->
              exists fi, Dict.get FieldKey_eqb x (items (self s)) = Some fi).
    { intros Hnk. specialize (Hloc Hnk). unfold Dict.mem in Hloc.
      destruct (Dict.get FieldKey_eqb x (items (self s))) as [fi|];
        [eauto | discriminate]. }
    unfold is_kept in Hpop.
    destruct (verdict (self s) x) as [fd| |entry|e].
    + apply IH. intros k Hk. apply Hok. now right.
    + destruct (Hpop eq_refl) as [fi Hget]. rewrite (pop_local _ _ Hget).
      apply IH. now apply Hrest.
    + destruct (Hpop eq_refl) as [fi Hget].
      rewrite (@pop_local x fi (logged entry s) Hget).
      apply IH. now apply Hrest.
    + now destruct (Hnf e).
Qed.

(** The entry of [deps] for [k] after the loop over [l]. *)
Lemma get_fold_record (r : FieldInfoContainer) (k : FieldKey)
    (l : list FieldKey) :
  forall d,
    Dict.get FieldKey_eqb k (fold_left (record_kept r) l d)
    = if key_in k l && is_kept r k
      then match verdict r k with Kept fd => Some fd | _ => None end
      else Dict.get FieldKey_eqb k d.
Proof.
  induction l as [|x l IH]; intros d; [reflexivity|].
  cbn [fold_left]. rewrite IH, key_in_cons.
  destruct (key_in k l && is_kept r k) eqn:Hin.
  - apply andb_prop in Hin as [Hl Hk]. now rewrite Hl, Hk, orb_true_r.
  - destruct (FieldKey_eqb_spec k x) as [->|Hne]; cbn [orb].
    + unfold record_kept, is_kept.
      destruct (verdict r x) as [fd| | |]; cbn [andb]; try reflexivity.
      apply get_set_same.
    + rewrite Hin. unfold record_kept.
      destruct (verdict r x) as [fd| | |]; try reflexivity.
      now apply get_set_other.
Qed.

Lemma key_in_permutation (k : FieldKey) (l1 l2 : list FieldKey) :
  Permutation l1 l2 -> key_in k l1 = key_in k l2.
Proof.
  intros Hp. destruct (key_in k l1) eqn:E1; symmetry.
  - apply key_in_In. apply key_in_In in E1.
    eapply Permutation_in; eassumption.
  - destruct (key_in k l2) eqn:E2; [|reflexivity].
    apply key_in_In in E2.
    apply (Permutation_in _ (Permutation_sym Hp)) in E2.
    apply key_in_In in E2. congruence.
Qed.

Lemma filter_permutation (A : Type) (p : A -> bool) (l1 l2 : list A) :
  Permutation l1 l2 -> Permutation (filter p l1) (filter p l2).
Proof.
  induction 1 as [|x l l' Hp IH|x y l|l l' l'' H1 IH1 H2 IH2]; simpl.
  - constructor.
  - destruct (p x); [now constructor | assumption].
  - destruct (p x), (p y); try reflexivity. apply perm_swap.
  - now transitivity (filter p l').
Qed.

Lemma NoDup_map_on (A B : Type) (f : A -> B) (l : list A) :
  NoDup l ->
  (forall x y, In x l -> In y l -> f x = f y -> x = y) ->
  NoDup (map f l).
Proof.
  induction 1 as [|a l Ha Hnd IH]; intros Hinj; simpl; constructor.
  - intros Hin. apply in_map_iff in Hin as (b & Hfb & Hb).
    assert (b = a) by (apply Hinj; [now right | now left | assumption]).
    subst b. contradiction.
  - apply IH. intros x y Hx Hy. apply Hinj; now right.
Qed.

(** The pass over a list that is not empty. *)
Lemma check_derived_fields_Some (x : FieldKey) (l : list FieldKey) (s : State) :
  check_derived_fields (Some (x :: l)) s =
  match for_each (x :: l) check_field (([] : Deps), ([] : list FieldKey)) s with
  | (Ok acc, s') => (Ok acc, snd (publish (fst acc) s'))
  | (Raise e, s') => (Raise e, s')
  end.
Proof.
  unfold check_derived_fields, fields_or_keys, bind, ret. cbn [fst snd].
  now destruct (for_each (x :: l) check_field _ s) as [[acc|e] s'].
Qed.

(** Two passes over the same fields in two orders: both return or both
    raise; when they return, they leave the same registry, with the same
    published list, and [deps] with the same entries.  The published list
    needs [tupleize] to tell the keys apart. *)
Lemma check_order_irrelevant (x : FieldKey) (l l2 : list FieldKey) (s : State) :
  NoDup (x :: l) ->
  Permutation (x :: l) l2 ->
  (forall a b,
     In a (derived_field_list (ds (self s)) ++ x :: l) ->
     In b (derived_field_list (ds (self s)) ++ x :: l) ->
     tupleize a = tupleize b -> a = b) ->
  match check_derived_fields (Some (x :: l)) s,
        check_derived_fields (Some l2) s with
  | (Ok (deps1, unavailable1), s1), (Ok (deps2, unavailable2), s2) =>
      self s1 = self s2 /\
      (forall k, Dict.get FieldKey_eqb k deps1 = Dict.get FieldKey_eqb k deps2) /\
      Permutation unavailable1 unavailable2
  | (Raise _, _), (Raise _, _) => True
  | _, _ => False
  end.
Proof.
  intros Hnd Hp Hinj.
  assert (Hnd2 : NoDup l2) by (eapply Permutation_NoDup; eassumption).
  destruct l2 as [|y l2];
    [apply Permutation_sym, Permutation_nil in Hp; discriminate|].
  rewrite !check_derived_fields_Some.
  set (l1 := x :: l) in *. set (l2' := y :: l2) in *.
  set (start := (([] : Deps), ([] : list FieldKey))).
  assert (Hcond : forall la lb, Permutation la lb ->
            (forall k, In k la ->
               (forall e, verdict (self s) k <> Failed e) /\
               (is_kept (self s) k = false ->
                Dict.mem FieldKey_eqb k (items (self s)) = true)) ->
            (forall k, In k lb ->
               (forall e, verdict (self s) k <> Failed e) /\
               (is_kept (self s) k = false ->
                Dict.mem FieldKey_eqb k (items (self s)) = true))).
  { intros la lb Hpab H k Hk. apply H.
    eapply Permutation_in; [apply Permutation_sym; exact Hpab | exact Hk]. }
  assert (Hcond_of : forall la acc' s', NoDup la ->
            for_each la check_field start s = (Ok acc', s') ->
            forall k, In k la ->
              (forall e, verdict (self s) k <> Failed e) /\
              (is_kept (self s) k = false ->
               Dict.mem FieldKey_eqb k (items (self s)) = true)).
  { intros la [d u] s' Hnda Hrun k Hk.
    apply (loop_returns Hnda) in Hrun as (_ & _ & _ & Hl & Hnf).
    split; [intros e; now apply Hnf | now apply Hl]. }
  destruct (for_each l1 check_field start s) as [[[d1 u1]|e1] s1] eqn:H1;
    destruct (for_each l2' check_field start s) as [[[d2 u2]|e2] s2] eqn:H2;
    try exact I.
  - (* both return *)
    apply (loop_returns Hnd) in H1 as (Hs1 & Hd1 & Hu1 & _ & _).
    apply (loop_returns Hnd2) in H2 as (Hs2 & Hd2 & Hu2 & _ & _).
    assert (Hdeps : forall k,
              Dict.get FieldKey_eqb k d1 = Dict.get FieldKey_eqb k d2).
    { intros k. rewrite Hd1, Hd2, !get_fold_record.
      now rewrite (key_in_permutation k Hp). }
    assert (Hloop : self s1 = self s2).
    { rewrite Hs1, Hs2. f_equal. unfold survivors. apply filter_ext.
      intros [k v]. cbn [fst]. now rewrite (key_in_permutation k Hp). }
    split; [|split].
    + cbn [fst snd publish modify self]. unfold publish, modify.
      cbn [fst snd self]. rewrite <- Hloop. do 2 f_equal.
      assert (Hsame : forall k, In k (Dict.keys d1) <-> In k (Dict.keys d2)).
      { intros k. split; intros Hk; apply In_keys_get in Hk as [v Hv].
        - rewrite Hdeps in Hv. eapply get_In_keys; eassumption.
        - rewrite <- Hdeps in Hv. eapply get_In_keys; eassumption. }
      assert (Hsub : forall k, In k (Dict.keys d1) -> In k l1).
      { intros k Hk. apply In_keys_get in Hk as [v Hv].
        rewrite Hd1, get_fold_record in Hv.
        destruct (key_in k l1) eqn:E; [now apply key_in_In|].
        cbn in Hv. discriminate. }
      unfold sorted_by_tupleize.
      apply (sorted_key_permutation tupleize Py.tuple_ltb
               tuple_ltb_irrefl tuple_ltb_trans tuple_ltb_connected).
      * apply NoDup_map_on; [apply NoDup_nodup|].
        intros a b Ha Hb. unfold set_union, set_of in Ha, Hb.
        apply nodup_In in Ha, Hb. rewrite Hs1 in Ha, Hb.
        cbn [ds set_items] in Ha, Hb.
        apply Hinj; apply in_or_app;
          [apply in_app_or in Ha as [Ha|Ha] | apply in_app_or in Hb as [Hb|Hb]];
          auto.
      * unfold set_union, set_of.
        apply NoDup_Permutation; try apply NoDup_nodup.
        intros k. rewrite !nodup_In, !in_app_iff, Hsame. reflexivity.
    + exact Hdeps.
    + rewrite Hu1, Hu2. cbn [app]. now apply filter_permutation.
  - (* the first returns, the second raises *)
    destruct (@loop_returns_when l2' Hnd2 start s) as (acc' & s' & Hok).
    + apply (Hcond l1 l2' Hp). eapply Hcond_of; eassumption.
    + congruence.
  - (* the first raises, the second returns *)
    destruct (@loop_returns_when l1 Hnd start s) as (acc' & s' & Hok).
    + apply (Hcond l2' l1 (Permutation_sym Hp)). eapply Hcond_of; eassumption.
    + congruence.
Qed.

(** ** Plugins *)

Lemma for_each_ext (A B : Type) (body1 body2 : A -> B -> M B) (l : list A) :
  (forall x acc s, body1 x acc s = body2 x acc s) ->
  forall acc s, for_each l body1 acc s = for_each l body2 acc s.
Proof.
  intros Hext. induction l as [|x l IH]; intros acc s; [reflexivity|].
  rewrite !for_each_cons, Hext.
  destruct (body2 x acc s) as [[acc'|e] s']; [apply IH | reflexivity].
Qed.

Section Tables.
Variable V : Type.
Implicit Types (P : Dict.t string V).

Lemma table_get_In P (n : string) (f : V) :
  NoDup (Dict.keys P) ->
  (Dict.get String.eqb n P = Some f <-> In (n, f) P).
Proof.
  unfold Dict.keys. induction P as [|[m g] P IH]; simpl; intros Hnd.
  - split; [discriminate | contradiction].
  - inversion Hnd as [|? ? Hnotin Hnd']; subst.
    destruct (String.eqb_spec n m) as [->|Hne].
    + split.
      * intros [= ->]. now left.
      * intros [[= ->]|Hin]; [reflexivity|].
        exfalso. apply Hnotin. now apply (in_map fst) in Hin.
    + rewrite (IH Hnd'). split; [now right|].
      intros [[= -> ->]|Hin]; [contradiction | assumption].
Qed.

(** A table answers a name in the same way however its entries were
    put in. *)
Lemma table_get_permutation P1 P2 (n : string) :
  NoDup (Dict.keys P1) -> Permutation P1 P2 ->
  Dict.get String.eqb n P1 = Dict.get String.eqb n P2.
Proof.
  intros Hnd1 Hp.
  assert (Hnd2 : NoDup (Dict.keys P2)).
  { eapply Permutation_NoDup; [|exact Hnd1].
    unfold Dict.keys. now apply Permutation_map. }
  destruct (Dict.get String.eqb n P1) as [f|] eqn:E1.
  - symmetry. apply (table_get_In _ _ _ Hnd2).
    apply (table_get_In _ _ _ Hnd1) in E1.
    eapply Permutation_in; eassumption.
  - destruct (Dict.get String.eqb n P2) as [f|] eqn:E2; [|reflexivity].
    apply (table_get_In _ _ _ Hnd2) in E2.
    apply (Permutation_in _ (Permutation_sym Hp)) in E2.
    apply (table_get_In _ _ _ Hnd1) in E2. congruence.
Qed.
End Tables.



Lemma sorted_by_tupleize_sorted (l : list FieldKey) :
  StronglySorted (key_le tupleize Py.tuple_ltb) (sorted_by_tupleize l).
Proof.
  apply (sorted_sorted tupleize Py.tuple_ltb
           tuple_ltb_irrefl tuple_ltb_trans tuple_ltb_connected).
Qed.












(** The order matters: the routines of the sample table applied in the
    order [b_fields], [a_fields] leave another state than
    [load_all_plugins] does. *)
Example registration_order_is_not_followed :
  load_all_plugins Sample.table_ba "gas" (mkState Sample.alone [])
  <> Spec.load_all_plugins
       [("b_fields", Sample.plugin_b); ("a_fields", Sample.plugin_a)]
       "gas" (mkState Sample.alone []).
Proof.
  intros H. apply (f_equal (fun x => mylog (snd x))) in H.
  vm_compute in H. discriminate H.
Qed.

(** A routine that returns and leaves the dictionary as it was has loaded
    nothing. *)
Lemma item_in_self (kv : FieldKey * DerivedField)
    (l : list (FieldKey * DerivedField)) :
  In kv l -> item_in kv l = true.
Proof.
  intros Hin. unfold item_in. apply existsb_exists. exists kv.
  split; [assumption|]. rewrite FieldKey_eqb_refl.
  now destruct (DerivedField_eq_dec (snd kv) (snd kv)).
Qed.

Lemma filter_none (A : Type) (p : A -> bool) (l : list A) :
  (forall x, In x l -> p x = false) -> filter p l = [].
Proof.
  induction l as [|x l IH]; intros H; simpl; [reflexivity|].
  rewrite H by now left. apply IH. intros; apply H; now right.
Qed.

Lemma load_plugin_nothing_new (field_plugins : Dict.t string Plugin)
    (f : Plugin) (ftype : string) (s s' : State) :
  f ftype (slice_info (self s)) s = (Ok tt, s') ->
  items (self s') = items (self s) ->
  load_plugin field_plugins (inl f) ftype s = (Ok [], s').
Proof.
  intros Hf Hitems. unfold load_plugin, bind, gets, ret. cbn.
  rewrite Hf. cbn. rewrite Hitems. f_equal. f_equal.
  rewrite filter_none; [reflexivity|].
  intros kv Hin. now rewrite item_in_self.
Qed.

(** C10.  An empty list of fields to check selects what [None] selects:
    the pass is the same, and without a fallback the fields checked are
    all the keys of the registry.  So when the routines of
    [load_all_plugins] have loaded nothing, the pass that follows is the
    one over every registered field, with its pruning. *)
Theorem empty_selection_checks_everything :
  (forall s, check_derived_fields (Some []) s = check_derived_fields None s) /\
  (forall s, fallback (self s) = None ->
     fields_or_keys (Some []) s = (Ok (Dict.keys (items (self s))), s)) /\
  (forall (field_plugins : Dict.t string Plugin) (ftype : string) (s s1 : State),
     load_loop field_plugins (Py.sorted String.ltb (Dict.keys field_plugins))
       ftype s = (Ok [], s1) ->
     load_all_plugins field_plugins ftype s
     = (acc <- check_derived_fields None ;;
        modify (fun r =>
          set_ds (set_field_dependencies
                    (dict_update (field_dependencies (ds r)) (fst acc))
                    (ds r)) r) ;;;
        publish (fst acc) ;;;
        ret tt) s1).
Proof.
  split; [reflexivity|]. split.
  - intros s Hfb.
    change (fields_or_keys (Some []) s) with (fields_or_keys None s).
    now rewrite fields_or_keys_None, Hfb.
  - intros field_plugins ftype s s1 Hloop.
    unfold load_all_plugins, bind at 1. rewrite Hloop.
    unfold find_dependencies, bind.
    change (check_derived_fields (Some []) s1)
      with (check_derived_fields None s1).
    destruct (check_derived_fields None s1) as [[acc|e] s2]; reflexivity.
Qed.

Lemma empty_selection_checks_everything_witness :
  fst (load_all_plugins Sample.table_idle "gas" Sample.only_ghost) = Ok tt /\
  Dict.keys (items (self (snd (load_all_plugins Sample.table_idle "gas"
                                 Sample.only_ghost))))
  = [Sample.density].
Proof.
  destruct empty_selection_checks_everything as (_ & _ & Hload).
  rewrite (Hload Sample.table_idle "gas" Sample.only_ghost
             (logged [Debug "Loaded %s (%s new fields)" [LStr "idle"; LNat 0]]
                     Sample.only_ghost) eq_refl).
  split; reflexivity.
Defined.

(* ===================================================================== *)
(** * Further properties of the container *)
(* ===================================================================== *)

(** ** Containment, lookup and iteration agree *)

(** X1.  [key in self] is true exactly when [self[key]] returns a
    definition: containment and lookup walk the same chain. *)
Theorem contains_iff_lookup_returns (r : FieldInfoContainer) (key : FieldKey) :
  __contains__ r key
  = match __getitem__ r key with Ok _ => true | Raise _ => false end.
Proof.
  induction r as [r Hnone | r fb Hfb IH] using chain_ind;
    rewrite contains_unfold, getitem_unfold; unfold __missing__, Dict.mem;
    destruct (Dict.get FieldKey_eqb key (items r)); try reflexivity.
  - now rewrite Hnone.
  - now rewrite Hfb.
Qed.

(** X2.  [has_key] answers as [in] does: its second look into the fallback
    never changes the answer. *)
Theorem has_key_is_contains (r : FieldInfoContainer) (key : FieldKey) :
  has_key r key = __contains__ r key.
Proof.
  unfold has_key. destruct (__contains__ r key) eqn:E; [reflexivity|].
  rewrite contains_unfold in E.
  destruct (Dict.mem FieldKey_eqb key (items r)); [discriminate|].
  destruct (fallback r); [exact E | reflexivity].
Qed.

Lemma iter_unfold (r : FieldInfoContainer) :
  __iter__ r
  = Dict.keys (items r) ++
    match fallback r with None => [] | Some fb => __iter__ fb end.
Proof. destruct r; reflexivity. Qed.

Lemma key_in_app (k : FieldKey) (l1 l2 : list FieldKey) :
  key_in k (l1 ++ l2) = key_in k l1 || key_in k l2.
Proof. unfold key_in. apply existsb_app. Qed.

Lemma key_in_keys (V : Type) (k : FieldKey) (d : Dict.t FieldKey V) :
  key_in k (Dict.keys d) = Dict.mem FieldKey_eqb k d.
Proof.
  unfold Dict.mem, Dict.keys.
  induction d as [|[k' v] d IH]; simpl; [reflexivity|].
  destruct (FieldKey_eqb k k'); [reflexivity | exact IH].
Qed.

Lemma key_in_iter (r : FieldInfoContainer) (key : FieldKey) :
  key_in key (__iter__ r) = __contains__ r key.
Proof.
  induction r as [r Hnone | r fb Hfb IH] using chain_ind;
    rewrite iter_unfold, contains_unfold, key_in_app, key_in_keys.
  - rewrite Hnone. change (key_in key []) with false.
    rewrite orb_false_r.
    now destruct (Dict.mem FieldKey_eqb key (items r)).
  - rewrite Hfb, IH.
    now destruct (Dict.mem FieldKey_eqb key (items r)).
Qed.

(** X3.  Iterating over a container yields exactly the keys that are [in]
    it, the own keys first; a key defined at several levels of the chain is
    yielded once per level, so the number of keys yielded is the sum of the
    sizes of the dictionaries of the chain. *)
Theorem iteration_matches_containment (r : FieldInfoContainer) :
  (forall key, key_in key (__iter__ r) = __contains__ r key) /\
  length (__iter__ r) = list_sum (map (fun c => length (items c)) (chain r)) /\
  firstn (length (items r)) (__iter__ r) = Dict.keys (items r).
Proof.
  split; [|split].
  - intros key. apply key_in_iter.
  - induction r as [r Hnone | r fb Hfb IH] using chain_ind;
      rewrite iter_unfold, chain_unfold, length_app; unfold Dict.keys;
      rewrite length_map; cbn [map list_sum].
    + now rewrite Hnone.
    + rewrite Hfb. now rewrite IH.
  - rewrite iter_unfold.
    replace (length (items r)) with (length (Dict.keys (items r)) + 0)
      by (unfold Dict.keys; rewrite length_map; lia).
    rewrite firstn_app_2. cbn [firstn]. now rewrite app_nil_r.
Qed.

(** X4.  [keys] never returns a key of the fallback: it returns the own
    keys when there is no fallback or when the fallback's own dictionary is
    empty (whatever stands further down the chain), and raises the
    [TypeError] of [+=] in every other case. *)
Theorem keys_returns_own_keys_or_raises (r : FieldInfoContainer) :
  keys r
  = match fallback r with
    | None => Ok (dict_keys (Dict.keys (items r)))
    | Some fb =>
        match items fb with
        | [] => Ok (dict_keys (Dict.keys (items r)))
        | _ :: _ =>
            Raise (TypeError
              "unsupported operand type(s) for +=: 'dict_keys' and 'list'")
        end
    end.
Proof.
  rewrite keys_spec. destruct (fallback r) as [fb|]; [|reflexivity].
  unfold truthy. now destruct (items fb).
Qed.

(** ** Aliases *)

Lemma contains_ext (r r' : FieldInfoContainer) (k : FieldKey) :
  items r' = items r -> fallback r' = fallback r ->
  __contains__ r' k = __contains__ r k.
Proof.
  intros Hi Hf. rewrite !contains_unfold. now rewrite Hi, Hf.
Qed.

Lemma getitem_ok_contains (r : FieldInfoContainer) (k : FieldKey)
    (d : DerivedField) :
  __getitem__ r k = Ok d -> __contains__ r k = true.
Proof.
  induction r as [r Hnone | r fb Hfb IH] using chain_ind;
    rewrite contains_unfold, getitem_unfold; unfold __missing__, Dict.mem;
    destruct (Dict.get FieldKey_eqb k (items r)); try reflexivity.
  - rewrite Hnone. discriminate.
  - now rewrite Hfb.
Qed.

(** The unit an alias gets: the one given, else the unit system's unit for
    the dimensions of the original, else the original's own unit. *)
Lemma alias_unfold (alias_name original_name : FieldKey) (units : option Units)
    (orig : DerivedField) (s : State) :
  __getitem__ (self s) original_name = Ok orig ->
  alias alias_name original_name units s
  = (let u := match units with
              | Some u => u
              | None =>
                  match unit_system_units (ds (self s)) (df_units orig) with
                  | Some p => UStr p
                  | None => df_units orig
                  end
              end in
     let s1 := mkState
                 (set_field_aliases
                    (Dict.set FieldKey_eqb alias_name original_name
                       (field_aliases (self s))) (self s))
                 (mylog s) in
     match add_field alias_name (Some (TranslationFunc original_name))
             (df_sampling_type orig) false
             (mkKwargs u (df_display_name orig) false []) s1 with
     | (Ok _, s2) => (Ok tt, s2)
     | (Raise e, s2) => (Raise e, s2)
     end).
Proof.
  intros Hget. unfold alias, alias_body, bind, gets, lift, modify, ret.
  cbn [fst snd self mylog].
  rewrite (getitem_ok_contains _ _ Hget). cbn [negb].
  assert (Hget1 : __getitem__
                    (set_field_aliases
                       (Dict.set FieldKey_eqb alias_name original_name
                          (field_aliases (self s))) (self s)) original_name
                  = Ok orig).
  { rewrite <- Hget. now apply getitem_ext. }
  destruct units as [u|]; cbn [fst snd self mylog].
  - now rewrite Hget1.
  - rewrite Hget.
    destruct (unit_system_units (ds (self s)) (df_units orig));
      cbn [fst snd self mylog]; rewrite ?Hget; cbn [fst snd self mylog];
      now rewrite Hget1.
Qed.

(** X5.  Aliasing a free identity to a field the registry can look up
    stores a translation of that field: its function is
    [TranslationFunc(original)], its sampling type and display name are
    the original's, its unit is the one given or else the unit system's
    (the original's own when it is dimensionless).  The relation is noted
    in [field_aliases], every other key answers as before, and nothing is
    logged. *)
Theorem alias_registers_translation (c n : string) (original_name : FieldKey)
    (units : option Units) (orig : DerivedField) (s : State) :
  __getitem__ (self s) original_name = Ok orig ->
  __contains__ (self s) (Tup c n) = false ->
  let u := match units with
           | Some u => u
           | None =>
               match unit_system_units (ds (self s)) (df_units orig) with
               | Some p => UStr p
               | None => df_units orig
               end
           end in
  let run := alias (Tup c n) original_name units s in
  fst run = Ok tt /\
  __getitem__ (self (snd run)) (Tup c n)
  = Ok (mkDerivedField (Tup c n) (df_sampling_type orig)
          (TranslationFunc original_name)
          (mkKwargs u (df_display_name orig) false [])) /\
  Dict.get FieldKey_eqb (Tup c n) (field_aliases (self (snd run)))
  = Some original_name /\
  (forall k, k <> Tup c n ->
     __getitem__ (self (snd run)) k = __getitem__ (self s) k) /\
  mylog (snd run) = mylog s.
Proof.
  intros Hget Hfree u run. subst run.
  rewrite (@alias_unfold _ _ units _ _ Hget). cbn zeta. fold u.
  rewrite add_field_stores
    by (cbn [negb andb self]; rewrite <- Hfree; now apply contains_ext).
  cbn [fst snd self mylog]. repeat split.
  - apply getitem_local. cbn [items set_items set_field_aliases].
    apply get_set_same.
  - cbn [field_aliases set_items set_field_aliases]. apply get_set_same.
  - intros k Hk. rewrite !getitem_unfold. unfold __missing__.
    cbn [items fallback set_items set_field_aliases].
    now rewrite get_set_other.
Qed.

(** X6.  Aliasing onto an identity that is already [in] the registry
    (its own or the fallback's) leaves every definition as it is, also the
    one under that identity, and still overwrites the entry of
    [field_aliases]: the note can name an original that the stored
    definition does not translate. *)
Theorem alias_never_overwrites (alias_name original_name : FieldKey)
    (units : option Units) (s : State) :
  __contains__ (self s) alias_name = true ->
  __contains__ (self s) original_name = true ->
  let run := alias alias_name original_name units s in
  fst run = Ok tt /\
  items (self (snd run)) = items (self s) /\
  Dict.get FieldKey_eqb alias_name (field_aliases (self (snd run)))
  = Some original_name /\
  mylog (snd run) = mylog s.
Proof.
  intros Hin Horig run. subst run.
  destruct (getitem_contains _ _ Horig) as [orig Hget].
  rewrite (@alias_unfold _ _ units _ _ Hget). cbn zeta.
  rewrite add_field_unfold.
  unfold add_field_body, bind, gets, ret. cbn [fst snd self mylog negb andb].
  assert (__contains__
            (set_field_aliases
               (Dict.set FieldKey_eqb alias_name original_name
                  (field_aliases (self s))) (self s)) alias_name = true) as ->
    by (rewrite <- Hin; now apply contains_ext).
  cbn [fst snd self mylog]. repeat split.
  cbn [field_aliases set_field_aliases]. apply get_set_same.
Qed.

(** ** Registration under tuple names and under bare names *)

Lemma add_field_rec_S (d : nat) :
  add_field_rec (S d) = add_field_body (alias_body (add_field_rec d)).
Proof. reflexivity. Qed.

Lemma alias_body_unfold
    (add_field_ : FieldKey -> option FieldFunction -> string -> bool ->
                  Kwargs -> M AddFieldReturn)
    (alias_name original_name : FieldKey) (units : option Units)
    (orig : DerivedField) (s : State) :
  __getitem__ (self s) original_name = Ok orig ->
  alias_body add_field_ alias_name original_name units s
  = (let u := match units with
              | Some u => u
              | None =>
                  match unit_system_units (ds (self s)) (df_units orig) with
                  | Some p => UStr p
                  | None => df_units orig
                  end
              end in
     let s1 := mkState
                 (set_field_aliases
                    (Dict.set FieldKey_eqb alias_name original_name
                       (field_aliases (self s))) (self s))
                 (mylog s) in
     match add_field_ alias_name (Some (TranslationFunc original_name))
             (df_sampling_type orig) false
             (mkKwargs u (df_display_name orig) false []) s1 with
     | (Ok _, s2) => (Ok tt, s2)
     | (Raise e, s2) => (Raise e, s2)
     end).
Proof.
  intros Hget. unfold alias_body, bind, gets, lift, modify, ret.
  cbn [fst snd self mylog].
  rewrite (getitem_ok_contains _ _ Hget). cbn [negb].
  assert (Hget1 : __getitem__
                    (set_field_aliases
                       (Dict.set FieldKey_eqb alias_name original_name
                          (field_aliases (self s))) (self s)) original_name
                  = Ok orig).
  { rewrite <- Hget. now apply getitem_ext. }
  destruct units as [u|]; cbn [fst snd self mylog].
  - now rewrite Hget1.
  - rewrite Hget.
    destruct (unit_system_units (ds (self s)) (df_units orig));
      cbn [fst snd self mylog]; rewrite ?Hget; cbn [fst snd self mylog];
      now rewrite Hget1.
Qed.

Lemma sanitize_lower (st : string) (s : State) :
  Py.str_in (Py.lower st) ["cell"; "particle"; "local"] = true ->
  _sanitize_sampling_type st false s = (Ok (Py.lower st), s).
Proof.
  intros H. unfold _sanitize_sampling_type. rewrite H. reflexivity.
Qed.

Lemma sanitize_invalid (st : string) (particle_type : bool) (s : State) :
  Py.str_in (Py.lower st) ["cell"; "particle"; "local"] = false ->
  _sanitize_sampling_type st particle_type s
  = (Raise (ValueError "Invalid sampling type %s. Valid sampling types are %s"),
     s).
Proof.
  intros H. unfold _sanitize_sampling_type. rewrite H. reflexivity.
Qed.

Lemma contains_set_other (r : FieldInfoContainer) (k k' : FieldKey)
    (v : DerivedField) :
  k <> k' ->
  __contains__ (set_items (Dict.set FieldKey_eqb k' v (items r)) r) k
  = __contains__ r k.
Proof.
  intros Hne. rewrite !contains_unfold. unfold Dict.mem.
  cbn [items fallback set_items]. now rewrite get_set_other.
Qed.

(** X7.  [add_field] checks the sampling type of a bare name only.  With
    a sampling type that is none of cell, particle, local (in any case of
    letters), a call that gets past the presence test raises [ValueError]
    on a bare name and leaves the registry as it was; on a tuple name it
    returns and stores the definition with that sampling type as given. *)
Theorem sampling_type_is_checked_for_bare_names_only (c n : string)
    (f : FieldFunction) (sampling_type : string) (force_override : bool)
    (kwargs : Kwargs) (s : State) :
  Py.str_in (Py.lower sampling_type) ["cell"; "particle"; "local"] = false ->
  negb force_override && __contains__ (self s) (Bare n) = false ->
  negb force_override && __contains__ (self s) (Tup c n) = false ->
  add_field (Bare n) (Some f) sampling_type force_override kwargs s
  = (Raise (ValueError "Invalid sampling type %s. Valid sampling types are %s"),
     s) /\
  fst (add_field (Tup c n) (Some f) sampling_type force_override kwargs s)
  = Ok RNone /\
  __getitem__
    (self (snd (add_field (Tup c n) (Some f) sampling_type force_override
                  kwargs s))) (Tup c n)
  = Ok (mkDerivedField (Tup c n) sampling_type f kwargs).
Proof.
  intros Hbad Hbare Htup. split; [|split].
  - rewrite add_field_unfold. unfold add_field_body, bind, gets.
    cbn [fst snd]. rewrite Hbare.
    now rewrite (sanitize_invalid _ _ _ Hbad).
  - now rewrite add_field_stores.
  - rewrite add_field_stores by assumption. cbn [snd self].
    apply getitem_set_items_same.
Qed.

(** The state a first registration under a bare name leaves. *)
Lemma add_field_bare_fresh (n : string) (f : FieldFunction)
    (sampling_type : string) (force_override : bool) (kwargs : Kwargs)
    (s : State) :
  Py.str_in (Py.lower sampling_type) ["cell"; "particle"; "local"] = true ->
  kw_particle_type kwargs = false ->
  __contains__ (self s) (Bare n) = false ->
  let st := Py.lower sampling_type in
  let ftype := if st =? "particle" then "all"
               else default_fluid_type (ds (self s)) in
  __contains__ (self s) (Tup ftype n) = false ->
  let u := match unit_system_units (ds (self s)) (kw_units kwargs) with
           | Some p => UStr p
           | None => kw_units kwargs
           end in
  add_field (Bare n) (Some f) sampling_type force_override kwargs s
  = (Ok RNone,
     mkState
       (set_items
          (Dict.set FieldKey_eqb (Bare n)
             (mkDerivedField (Bare n) st (TranslationFunc (Tup ftype n))
                (mkKwargs u (kw_display_name kwargs) false []))
             (Dict.set FieldKey_eqb (Tup ftype n)
                (mkDerivedField (Tup ftype n) st f kwargs)
                (items (self s))))
          (set_field_aliases
             (Dict.set FieldKey_eqb (Bare n) (Tup ftype n)
                (field_aliases (self s)))
             (self s)))
       (mylog s)).
Proof.
  intros Hst Hpt Hbare st ftype Hfree u.
  unfold add_field, recursion_limit.
  change 1000 with (S (S 998)). rewrite add_field_rec_S.
  unfold add_field_body at 1. unfold bind, gets. cbn [fst snd].
  rewrite Hbare, andb_false_r, Hpt, (sanitize_lower _ _ Hst).
  fold st.
  assert (Hft : (if st =? "particle" then ret "all"
                 else fun s0 => (Ok (default_fluid_type (ds (self s0))), s0)) s
                = (Ok ftype, s)).
  { subst ftype. now destruct (st =? "particle"). }
  rewrite Hft, Hfree. cbn [negb].
  unfold __setitem__, modify. cbn [fst snd self mylog].
  set (D1 := mkDerivedField (Tup ftype n) st f kwargs).
  set (s2 := mkState (set_items (Dict.set FieldKey_eqb (Tup ftype n) D1
                                   (items (self s))) (self s)) (mylog s)).
  assert (Hget : __getitem__ (self s2) (Tup ftype n) = Ok D1).
  { subst s2. cbn [self]. apply getitem_set_items_same. }
  rewrite (@alias_body_unfold _ _ _ None _ _ Hget). cbn zeta.
  rewrite add_field_rec_S.
  unfold add_field_body, bind, gets. cbn [fst snd self mylog negb andb].
  assert (Hbare2 : __contains__
                     (set_field_aliases
                        (Dict.set FieldKey_eqb (Bare n) (Tup ftype n)
                           (field_aliases (self s2))) (self s2)) (Bare n)
                   = false).
  { rewrite <- Hbare. subst s2. cbn [self].
    rewrite <- (@contains_set_other (self s) (Bare n) (Tup ftype n) D1)
      by discriminate.
    now apply contains_ext. }
  rewrite Hbare2. cbn [kw_particle_type df_sampling_type D1].
  subst D1. cbn [df_sampling_type].
  rewrite (sanitize_acceptable _ _ Hst).
  assert (Hft2 : forall s3, ds (self s3) = ds (self s) ->
            (if st =? "particle" then ret "all"
             else fun s0 => (Ok (default_fluid_type (ds (self s0))), s0)) s3
            = (Ok ftype, s3)).
  { intros s3 Hds. subst ftype. destruct (st =? "particle");
      [reflexivity | unfold ret; now rewrite Hds]. }
  rewrite Hft2 by reflexivity.
  assert (Hin2 : __contains__
                   (set_field_aliases
                      (Dict.set FieldKey_eqb (Bare n) (Tup ftype n)
                         (field_aliases (self s2))) (self s2)) (Tup ftype n)
                 = true).
  { eapply contains_local. subst s2. cbn [self items set_items set_field_aliases].
    apply get_set_same. }
  cbn [self mylog]. rewrite Hin2. cbn [negb]. unfold __setitem__, modify, ret.
  cbn [fst snd self mylog]. reflexivity.
Qed.

(** X8.  The first registration under a bare name [n] makes two entries:
    the definition under the qualified identity [(ftype, n)], where
    [ftype] is ["all"] for the particle sampling type and the dataset's
    default fluid type otherwise, and under [n] itself a translation to
    that identity, which carries the display name and the units of the
    definition converted by the unit system; the pair is recorded in
    [field_aliases], the sampling type of both is the lower-cased one, and
    every other entry is as before. *)
Theorem bare_name_registers_qualified_identity (n : string)
    (f : FieldFunction) (sampling_type : string) (force_override : bool)
    (kwargs : Kwargs) (s : State) :
  Py.str_in (Py.lower sampling_type) ["cell"; "particle"; "local"] = true ->
  kw_particle_type kwargs = false ->
  __contains__ (self s) (Bare n) = false ->
  let st := Py.lower sampling_type in
  let ftype := if st =? "particle" then "all"
               else default_fluid_type (ds (self s)) in
  __contains__ (self s) (Tup ftype n) = false ->
  let u := match unit_system_units (ds (self s)) (kw_units kwargs) with
           | Some p => UStr p
           | None => kw_units kwargs
           end in
  let out := add_field (Bare n) (Some f) sampling_type force_override kwargs s in
  fst out = Ok RNone /\
  __getitem__ (self (snd out)) (Tup ftype n)
  = Ok (mkDerivedField (Tup ftype n) st f kwargs) /\
  __getitem__ (self (snd out)) (Bare n)
  = Ok (mkDerivedField (Bare n) st (TranslationFunc (Tup ftype n))
          (mkKwargs u (kw_display_name kwargs) false [])) /\
  Dict.get FieldKey_eqb (Bare n) (field_aliases (self (snd out)))
  = Some (Tup ftype n) /\
  (forall k, k <> Bare n -> k <> Tup ftype n ->
     __getitem__ (self (snd out)) k = __getitem__ (self s) k) /\
  mylog (snd out) = mylog s.
Proof.
  intros Hst Hpt Hbare st ftype Hfree u out.
  subst out. rewrite (@add_field_bare_fresh n f sampling_type force_override kwargs s
             Hst Hpt Hbare Hfree).
  fold st ftype u. cbn [fst snd self mylog].
  split; [reflexivity|]. split; [|split; [|split; [|split]]].
  - apply getitem_local. cbn [items set_items set_field_aliases].
    rewrite get_set_other by discriminate. apply get_set_same.
  - apply getitem_local. cbn [items set_items set_field_aliases].
    apply get_set_same.
  - cbn [field_aliases set_items set_field_aliases]. apply get_set_same.
  - intros k Hk1 Hk2. apply getitem_ext; [|reflexivity].
    cbn [items set_items set_field_aliases].
    now rewrite !get_set_other by assumption.
  - reflexivity.
Qed.

(** X9.  A bare name whose qualified identity is already registered gets
    a definition of its own under the bare key: no alias is made, the
    qualified identity keeps its definition and [field_aliases] is not
    touched. *)
Theorem bare_name_beside_qualified_identity (n : string) (f : FieldFunction)
    (sampling_type : string) (force_override : bool) (kwargs : Kwargs)
    (s : State) :
  Py.str_in (Py.lower sampling_type) ["cell"; "particle"; "local"] = true ->
  kw_particle_type kwargs = false ->
  negb force_override && __contains__ (self s) (Bare n) = false ->
  let st := Py.lower sampling_type in
  let ftype := if st =? "particle" then "all"
               else default_fluid_type (ds (self s)) in
  __contains__ (self s) (Tup ftype n) = true ->
  add_field (Bare n) (Some f) sampling_type force_override kwargs s
  = (Ok RNone,
     mkState
       (set_items
          (Dict.set FieldKey_eqb (Bare n)
             (mkDerivedField (Bare n) st f kwargs) (items (self s)))
          (self s))
       (mylog s)) /\
  __getitem__
    (self (snd (add_field (Bare n) (Some f) sampling_type force_override
                  kwargs s))) (Tup ftype n)
  = __getitem__ (self s) (Tup ftype n).
Proof.
  intros Hst Hpt Hbare st ftype Htaken.
  assert (Hrun : add_field (Bare n) (Some f) sampling_type force_override
                   kwargs s
                 = (Ok RNone,
                    mkState
                      (set_items
                         (Dict.set FieldKey_eqb (Bare n)
                            (mkDerivedField (Bare n) st f kwargs)
                            (items (self s)))
                         (self s))
                      (mylog s))).
  { rewrite add_field_unfold. unfold add_field_body, bind, gets.
    cbn [fst snd]. rewrite Hbare, Hpt, (sanitize_lower _ _ Hst). fold st.
    assert (Hft : (if st =? "particle" then ret "all"
                   else fun s0 => (Ok (default_fluid_type (ds (self s0))), s0)) s
                  = (Ok ftype, s)).
    { subst ftype. now destruct (st =? "particle"). }
    rewrite Hft, Htaken. reflexivity. }
  split; [exact Hrun|].
  rewrite Hrun. cbn [snd self].
  now rewrite getitem_set_items_other by discriminate.
Qed.

(** X10.  The decorator use of [add_field] (no function given) changes
    nothing and returns a closure, and the presence test is made when the
    closure is obtained, not when it is applied: if the name was present
    and not overridden the closure hands its argument back and never
    registers; otherwise it stores [DerivedField(name, sampling_type, f)]
    under [name] in whatever registry state it is applied to, bare names
    included, without validation of the sampling type.  Applied at once to
    a tuple name it leaves the state of the direct call. *)
Theorem decorator_decides_when_obtained (name : FieldKey)
    (sampling_type : string) (force_override : bool) (kwargs : Kwargs)
    (s : State) :
  exists d,
    add_field name None sampling_type force_override kwargs s
    = (Ok (RCreateFunction d), s) /\
    (forall f s',
       create_function d f s'
       = if negb force_override && __contains__ (self s) name then (Ok f, s')
         else (Ok f,
               mkState
                 (set_items
                    (Dict.set FieldKey_eqb name
                       (mkDerivedField name sampling_type f kwargs)
                       (items (self s')))
                    (self s'))
                 (mylog s'))) /\
    (forall c n f, name = Tup c n ->
       snd (create_function d f s)
       = snd (add_field name (Some f) sampling_type force_override kwargs s)).
Proof.
  rewrite add_field_unfold. unfold add_field_body, bind, gets, ret.
  cbn [fst snd].
  destruct (negb force_override && __contains__ (self s) name) eqn:Hp.
  - exists ReturnsArgument. split; [reflexivity|]. split; [reflexivity|].
    intros c n f ->. reflexivity.
  - exists (Registers name sampling_type kwargs).
    split; [reflexivity|]. split; [reflexivity|].
    intros c n f ->. reflexivity.
Qed.


(* ===================================================================== *)
(** * The setup of the on-disk fields and of their aliases *)
(* ===================================================================== *)

(** The outcomes of [resolve_units], by the override in force. *)
Lemma resolve_units_table (args : KnownField) (field : FieldKey) (f1 : string)
    (r : FieldInfoContainer) (s : State) :
  resolve_units args field f1 r s
  = (let u := unit_in_force args field f1 (field_units (ds r)) in
     match u with
     | UStr t => (Ok (UStr t), s)
     | _ =>
         if units_of args =? "" then
           match ne_one u with
           | inr msg => (Raise (ValueError msg), s)
           | inl true =>
               (Ok (UStr ""),
                mkState (self s)
                  (mylog s ++
                   [Warning
                      "Cannot interpret units: %s * %s, setting to dimensionless."
                      [LStr (format_units u); LStr (units_of args)]]))
           | inl false =>
               match eq_one u with
               | inr msg => (Raise (ValueError msg), s)
               | inl true => (Ok (UStr ""), s)
               | inl false => (Ok u, s)
               end
           end
         else
           (Ok (UStr ("((" ++ units_of args ++ ")*" ++ format_units u ++ ")")),
            s)
     end).
Proof.
  unfold resolve_units, unit_in_force, dict_get_default. cbv zeta.
  set (u := match Dict.get FieldKey_eqb field (field_units (ds r)) with
            | Some v => v
            | None =>
                match Dict.get FieldKey_eqb (Bare f1) (field_units (ds r)) with
                | Some v => v
                | None => UStr (units_of args)
                end
            end).
  destruct u as [t | one text | ne eq text];
    cbn [isinstance_str isinstance_number negb andb].
  - destruct (units_of args =? ""); reflexivity.
  - destruct (units_of args =? ""); [|reflexivity].
    destruct one; reflexivity.
  - destruct (units_of args =? ""); [|reflexivity].
    destruct ne as [[|]|msg]; try reflexivity.
    destruct eq as [[|]|msg]; reflexivity.
Qed.


Lemma resolve_units_self (args : KnownField) (field : FieldKey) (f1 : string)
    (r : FieldInfoContainer) (s : State) :
  self (snd (resolve_units args field f1 r s)) = self s.
Proof.
  rewrite resolve_units_table. cbv zeta.
  destruct (unit_in_force args field f1 (field_units (ds r)))
    as [t | one text | ne eq text]; [reflexivity | |];
    (destruct (units_of args =? ""); [|reflexivity]).
  - cbn [ne_one eq_one]. destruct one; reflexivity.
  - cbn [ne_one eq_one].
    destruct ne as [[|]|msg]; try reflexivity.
    destruct eq as [[|]|msg]; reflexivity.
Qed.

Lemma resolve_units_value (args : KnownField) (field : FieldKey) (f1 : string)
    (r : FieldInfoContainer) (s s' : State) (u : Units) :
  resolve_units args field f1 r s = (Ok u, s') ->
  u = resolved_unit args field f1 (field_units (ds r)) /\ self s' = self s.
Proof.
  intros H. split.
  - rewrite resolve_units_table in H. cbv zeta in H. unfold resolved_unit.
    destruct (unit_in_force args field f1 (field_units (ds r)))
      as [t | one text | ne eq text].
    + now injection H as <- _.
    + cbn [ne_one eq_one format_units] in *.
      destruct (units_of args =? ""); [destruct one|]; now injection H as <- _.
    + cbn [ne_one eq_one format_units] in *.
      destruct (units_of args =? ""); [|now injection H as <- _].
      destruct ne as [[|]|msg]; [now injection H as <- _ | | discriminate H].
      destruct eq as [[|]|msg]; [| | discriminate H]; now injection H as <- _.
  - pose proof (resolve_units_self args field f1 r s) as Hs.
    now rewrite H in Hs.
Qed.

Lemma setup_fluid_aliases_unfold (ftype : string) (s : State) :
  setup_fluid_aliases ftype s
  = match get_aliases_gallery s with
    | (Raise e, s1) => (Raise e, s1)
    | (Ok aliases_gallery, s1) =>
        match sorted_field_list (field_list (self s1)) with
        | Raise e => (Raise e, s1)
        | Ok fields =>
            match for_each fields (field_step (self s1) ftype aliases_gallery)
                    false s1 with
            | (Raise e, s2) => (Raise e, s2)
            | (Ok _, s2) => (Ok tt, s2)
            end
        end
    end.
Proof.
  unfold setup_fluid_aliases, bind, gets, lift, ret.
  destruct (get_aliases_gallery s) as [[g|e] s1]; [|reflexivity].
  cbn [fst snd].
  destruct (sorted_field_list (field_list (self s1))); reflexivity.
Qed.

Lemma get_aliases_gallery_unfold (s : State) :
  get_aliases_gallery s
  = if curvilinear (self s) then
      match sorted_field_list (field_list (self s)) with
      | Raise e => (Raise e, s)
      | Ok fields => for_each fields (gallery_step (self s)) [] s
      end
    else (Ok [], s).
Proof.
  unfold get_aliases_gallery, bind, gets, lift, ret. cbn [fst snd].
  destruct (curvilinear (self s)); [|reflexivity].
  destruct (sorted_field_list (field_list (self s))); reflexivity.
Qed.

(** ** Entries that stay *)

Lemma keeps_present_refl (r : FieldInfoContainer) : keeps_present r r.
Proof. now intros k _. Qed.

Lemma keeps_present_contains (r r' : FieldInfoContainer) (k : FieldKey) :
  keeps_present r r' -> __contains__ r k = true -> __contains__ r' k = true.
Proof.
  intros Hk Hin. destruct (getitem_contains _ _ Hin) as [d Hd].
  apply getitem_ok_contains with (d := d). now rewrite (Hk k Hin).
Qed.

Lemma keeps_present_trans (r1 r2 r3 : FieldInfoContainer) :
  keeps_present r1 r2 -> keeps_present r2 r3 -> keeps_present r1 r3.
Proof.
  intros H12 H23 k Hin.
  rewrite (H23 k (@keeps_present_contains r1 r2 k H12 Hin)). now apply H12.
Qed.

(** What [alias] does on a tuple name whose original is registered. *)
Lemma alias_tuple_state (c a : string) (field : FieldKey)
    (units : option Units) (orig : DerivedField) (s : State) :
  __getitem__ (self s) field = Ok orig ->
  alias (Tup c a) field units s
  = (Ok tt,
     let fa := Dict.set FieldKey_eqb (Tup c a) field (field_aliases (self s)) in
     let u := match units with
              | Some u => u
              | None =>
                  match unit_system_units (ds (self s)) (df_units orig) with
                  | Some p => UStr p
                  | None => df_units orig
                  end
              end in
     mkState
       (if __contains__ (self s) (Tup c a)
        then set_field_aliases fa (self s)
        else set_items
               (Dict.set FieldKey_eqb (Tup c a)
                  (mkDerivedField (Tup c a) (df_sampling_type orig)
                     (TranslationFunc field)
                     (mkKwargs u (df_display_name orig) false []))
                  (items (self s)))
               (set_field_aliases fa (self s)))
       (mylog s)).
Proof.
  intros Hget. rewrite (@alias_unfold _ _ units _ _ Hget). cbn zeta.
  destruct (__contains__ (self s) (Tup c a)) eqn:Hin.
  - rewrite add_field_present; [reflexivity|].
    cbn [self]. rewrite <- Hin. now apply contains_ext.
  - rewrite add_field_stores; [reflexivity|].
    cbn [self negb andb]. rewrite <- Hin. now apply contains_ext.
Qed.

Lemma alias_tuple_keeps (c a : string) (field : FieldKey)
    (units : option Units) (orig : DerivedField) (s : State) :
  __getitem__ (self s) field = Ok orig ->
  let out := alias (Tup c a) field units s in
  fst out = Ok tt /\
  keeps_present (self s) (self (snd out)) /\
  __contains__ (self (snd out)) (Tup c a) = true /\
  field_aliases (self (snd out))
  = Dict.set FieldKey_eqb (Tup c a) field (field_aliases (self s)) /\
  mylog (snd out) = mylog s.
Proof.
  intros Hget out. subst out. rewrite (@alias_tuple_state c a field units orig s Hget).
  cbn [fst snd self mylog]. split; [reflexivity|].
  destruct (__contains__ (self s) (Tup c a)) eqn:Hin.
  - split; [|split; [|split; reflexivity]].
    + intros k _. now apply getitem_ext.
    + rewrite <- Hin. now apply contains_ext.
  - split; [|split; [|split; reflexivity]].
    + intros k Hk. apply getitem_ext; [|reflexivity].
      cbn [items set_items set_field_aliases].
      apply get_set_other. intros ->. congruence.
    + eapply contains_local. cbn [items set_items]. apply get_set_same.
Qed.

(** ** The loops of the setup *)

Lemma sorted_field_list_perm (l fields : list FieldKey) :
  sorted_field_list l = Ok fields -> Permutation fields l.
Proof.
  unfold sorted_field_list.
  destruct (forallb isinstance_tuple l
            || forallb (fun k => negb (isinstance_tuple k)) l); [|discriminate].
  intros [= <-]. exact (sorted_perm (fun x => x) FieldKey_ltb l).
Qed.

(** The gallery is collected without touching the state; the only error
    of its loop is the index error of a bare string that is too short. *)
Lemma gallery_loop (r : FieldInfoContainer) (fields : list FieldKey) :
  forall acc s,
    snd (for_each fields (gallery_step r) acc s) = s /\
    (forall e, fst (for_each fields (gallery_step r) acc s) = Raise e ->
               e = IndexError "string index out of range").
Proof.
  induction fields as [|f fields IH]; intros acc s.
  - split; [reflexivity | discriminate].
  - rewrite for_each_cons.
    assert (Hstep : (exists acc', gallery_step r f acc s = (Ok acc', s)) \/
                    gallery_step r f acc s
                    = (Raise (IndexError "string index out of range"), s)).
    { assert (H0 : forall e, index0 f = Raise e ->
                e = IndexError "string index out of range").
      { destruct f as [b|c n]; cbn [index0]; [|discriminate].
        destruct (Py.chars b); [now intros e [= <-] | discriminate]. }
      assert (H1 : forall e, index1 f = Raise e ->
                e = IndexError "string index out of range").
      { destruct f as [b|c n]; cbn [index1]; [|discriminate].
        destruct (Py.chars b) as [|? [|? ?]];
          [now intros e [= <-] | now intros e [= <-] | discriminate]. }
      unfold gallery_step, bind, lift, ret.
      destruct (index0 f) as [f0|e0]; cbn [fst snd];
        [|right; now rewrite (H0 e0 eq_refl)].
      destruct (Py.str_in f0 (particle_types (ds r))); [eauto|].
      destruct (index1 f) as [f1|e1]; cbn [fst snd];
        [eauto | right; now rewrite (H1 e1 eq_refl)]. }
    destruct Hstep as [[acc' ->] | ->]; [apply IH|].
    split; [reflexivity | now intros e [= <-]].
Qed.

Lemma gallery_outcome (s : State) :
  snd (get_aliases_gallery s) = s /\
  (forall e, fst (get_aliases_gallery s) = Raise e ->
     sorted_field_list (field_list (self s)) = Raise e \/
     e = IndexError "string index out of range").
Proof.
  rewrite get_aliases_gallery_unfold.
  destruct (curvilinear (self s)); [|split; [reflexivity | discriminate]].
  destruct (sorted_field_list (field_list (self s))) as [fields|e0].
  - destruct (gallery_loop (self s) fields [] s) as [Hs He].
    split; [exact Hs | intros e H; right; now apply He].
  - split; [reflexivity | intros e [= <-]; now left].
Qed.

Lemma gallery_loop_tuples (r : FieldInfoContainer) (fields : list FieldKey) :
  forallb isinstance_tuple fields = true ->
  forall acc s,
    for_each fields (gallery_step r) acc s
    = (Ok (acc ++ flat_map (gallery_of r) fields), s).
Proof.
  induction fields as [|f fields IH]; intros Htup acc s.
  - cbn. now rewrite app_nil_r.
  - cbn [forallb] in Htup. apply andb_true_iff in Htup as [Hf Htup].
    destruct f as [b|c n]; [discriminate Hf|].
    rewrite for_each_cons. unfold gallery_step, bind, lift, ret.
    cbn [index0 index1 fst snd flat_map]. unfold gallery_of at 1.
    cbn [is_fluid name_of].
    destruct (Py.str_in c (particle_types (ds r))); cbn [negb];
      rewrite (IH Htup); [reflexivity | now rewrite app_assoc].
Qed.

(** One alias: an index error of the renaming, or a call of [alias]. *)
Lemma alias_step_cases (r : FieldInfoContainer) (ftype : string)
    (gallery : list string) (field : FieldKey) (alias_ : string)
    (to_convert : bool) (d : DerivedField) (s : State) :
  __getitem__ (self s) field = Ok d ->
  (exists e, alias_step r ftype gallery field alias_ to_convert s
             = (Raise e, s)) \/
  (exists a' tc',
     alias_step r ftype gallery field alias_ to_convert s
     = (Ok tc', snd (alias (Tup ftype a') field None s)) /\
     (curvilinear r = false -> a' = alias_ /\ tc' = to_convert)).
Proof.
  intros Hget.
  assert (Hcall : forall (a' : string) (tc' : bool),
            (let (r0, s') := alias (Tup ftype a') field None s in
             match r0 with
             | Ok _ => (Ok tc', s')
             | Raise e => (Raise e, s')
             end) = (Ok tc', snd (alias (Tup ftype a') field None s))).
  { intros a' tc'.
    destruct (@alias_tuple_keeps ftype a' field None d s Hget) as [Hok _].
    destruct (alias (Tup ftype a') field None s) as [[[]|e] s1];
      [reflexivity | discriminate Hok]. }
  unfold alias_step. destruct (curvilinear r) eqn:Hc; cbv beta iota zeta.
  - destruct (set_to_convert alias_ gallery to_convert).
    + unfold bind, lift, ret.
      destruct (convert_alias alias_ (axis_order (ds r))) as [a'|e];
        [|left; now exists e].
      right. exists a', true. split; [apply Hcall | discriminate].
    + right. exists alias_, false. unfold bind, ret.
      split; [apply Hcall | discriminate].
  - right. exists alias_, to_convert. unfold bind, ret.
    split; [apply Hcall | now split].
Qed.

(** The aliases of one field never change an entry that was there. *)
Lemma alias_loop_keeps (r : FieldInfoContainer) (ftype : string)
    (gallery : list string) (field : FieldKey) (d : DerivedField)
    (aliases : list string) :
  forall tc s,
    __getitem__ (self s) field = Ok d ->
    keeps_present (self s)
      (self (snd (for_each aliases (alias_step r ftype gallery field) tc s))).
Proof.
  induction aliases as [|a aliases IH]; intros tc s Hget.
  - apply keeps_present_refl.
  - rewrite for_each_cons.
    destruct (@alias_step_cases r ftype gallery field a tc d s Hget)
      as [[e ->] | [a' [tc' [-> _]]]]; [apply keeps_present_refl|].
    destruct (@alias_tuple_keeps ftype a' field None d s Hget) as [_ [Hk _]].
    eapply keeps_present_trans; [exact Hk|].
    apply IH. rewrite <- Hget. apply Hk.
    now apply getitem_ok_contains with (d := d).
Qed.

(** One on-disk field: a bare string stops the loop, a particle field is
    passed over, any other tuple is registered and then aliased. *)
Lemma field_step_bare (r : FieldInfoContainer) (ftype : string)
    (gallery : list string) (b : string) (tc : bool) (s : State) :
  field_step r ftype gallery (Bare b) tc s = (Raise (RuntimeError ""), s).
Proof. reflexivity. Qed.

Lemma field_step_particle (r : FieldInfoContainer) (ftype : string)
    (gallery : list string) (c n : string) (tc : bool) (s : State) :
  Py.str_in c (particle_types (ds r)) = true ->
  field_step r ftype gallery (Tup c n) tc s = (Ok tc, s).
Proof.
  intros Hp. unfold field_step, bind, lift, ret.
  cbn [isinstance_tuple negb index0 fst snd]. now rewrite Hp.
Qed.

Lemma field_step_fluid (r : FieldInfoContainer) (ftype : string)
    (gallery : list string) (c n : string) (tc tc' : bool) (s s' : State) :
  Py.str_in c (particle_types (ds r)) = false ->
  field_step r ftype gallery (Tup c n) tc s = (Ok tc', s') ->
  exists log',
    for_each (aliases_of (known_get (known_other_fields r) n))
      (alias_step r ftype gallery (Tup c n)) tc
      (mkState
         (set_items
            (Dict.set FieldKey_eqb (Tup c n)
               (on_disk_definition (known_other_fields r) (ds r) (Tup c n))
               (items (self s)))
            (self s))
         log')
    = (Ok tc', s').
Proof.
  intros Hp. unfold field_step, bind, lift.
  cbn [isinstance_tuple negb index0 index1 fst snd]. rewrite Hp.
  destruct (resolve_units (known_get (known_other_fields r) n) (Tup c n) n r s)
    as [[u|e] s0] eqn:Hu; [|discriminate].
  apply resolve_units_value in Hu as [-> Hs0].
  unfold add_output_field, __setitem__, modify. cbn [fst snd self mylog].
  rewrite Hs0. intros H. exists (mylog s0). exact H.
Qed.

Lemma is_fluid_tuple (d : Dataset) (k : FieldKey) :
  is_fluid d k = true ->
  exists c n, k = Tup c n /\ Py.str_in c (particle_types d) = false.
Proof.
  destruct k as [b|c n]; [discriminate|]. cbn [is_fluid].
  intros H. exists c, n. split; [reflexivity|].
  now destruct (Py.str_in c (particle_types d)).
Qed.

(** The loop over the on-disk fields: the fields it has passed, particle
    fields apart, hold their passthrough definition when it ends. *)
Lemma field_loop_passthrough (r : FieldInfoContainer) (ftype : string)
    (gallery : list string) (fields : list FieldKey) :
  forall (Q : FieldKey -> Prop) tc s tc' s',
    for_each fields (field_step r ftype gallery) tc s = (Ok tc', s') ->
    (forall k, Q k ->
       __getitem__ (self s) k
       = Ok (on_disk_definition (known_other_fields r) (ds r) k)) ->
    forall k, Q k \/ (In k fields /\ is_fluid (ds r) k = true) ->
      __getitem__ (self s') k
      = Ok (on_disk_definition (known_other_fields r) (ds r) k).
Proof.
  induction fields as [|f fields IH]; intros Q tc s tc' s' Hrun HQ k Hk.
  - injection Hrun as _ <-. destruct Hk as [Hk | [[] _]]. now apply HQ.
  - rewrite for_each_cons in Hrun.
    destruct (field_step r ftype gallery f tc s) as [[tc1|e] s1] eqn:Hstep;
      [|discriminate].
    apply (IH (fun k => Q k \/ (k = f /\ is_fluid (ds r) f = true))
              tc1 s1 tc' s' Hrun).
    + clear k Hk. intros k Hk.
      destruct f as [b|c n]; [rewrite field_step_bare in Hstep; discriminate|].
      destruct (Py.str_in c (particle_types (ds r))) eqn:Hp.
      * rewrite (@field_step_particle r ftype gallery c n tc s Hp) in Hstep.
        injection Hstep as _ <-.
        destruct Hk as [Hk | [_ Hfl]]; [now apply HQ|].
        cbn [is_fluid] in Hfl. rewrite Hp in Hfl. discriminate.
      * destruct (@field_step_fluid r ftype gallery c n tc tc1 s s1 Hp Hstep)
          as [log' Heq].
        set (D := on_disk_definition (known_other_fields r) (ds r) (Tup c n))
          in *.
        set (s2 := mkState
                     (set_items (Dict.set FieldKey_eqb (Tup c n) D
                                   (items (self s))) (self s)) log') in *.
        assert (Hget : __getitem__ (self s2) (Tup c n) = Ok D)
          by apply getitem_set_items_same.
        pose proof (@alias_loop_keeps r ftype gallery (Tup c n) D
                      (aliases_of (known_get (known_other_fields r) n))
                      tc s2 Hget) as Hkeep.
        rewrite Heq in Hkeep. cbn [snd] in Hkeep.
        assert (Hk2 : __getitem__ (self s2) k
                      = Ok (on_disk_definition (known_other_fields r) (ds r) k)).
        { destruct (FieldKey_eq_dec k (Tup c n)) as [-> | Hne];
            [exact Hget|].
          destruct Hk as [Hk | [Hk _]]; [|contradiction].
          subst s2. cbn [self].
          rewrite getitem_set_items_other by assumption. now apply HQ. }
        rewrite <- Hk2. apply Hkeep.
        now apply getitem_ok_contains with (d := on_disk_definition
                                                  (known_other_fields r) (ds r) k).
    + destruct Hk as [Hk | [[-> | Hin] Hfl]]; auto.
Qed.



(** X14.  When the constructor returns, every on-disk field whose type is
    not a particle type is registered under its own tuple as a passthrough:
    the [NullFunc] definition with the cell sampling type, the catalog's
    display name and the resolved unit.  No alias made during the setup
    stands in its place, whatever the catalog declares. *)
Theorem on_disk_fields_are_passthrough (known : list (string * KnownField))
    (ds_ : Dataset) (field_list_ : list FieldKey) (slice_info_ : option nat) :
  fst (__init__ known ds_ field_list_ slice_info_) = Ok tt ->
  forall k, In k field_list_ -> is_fluid ds_ k = true ->
    __getitem__ (self (snd (__init__ known ds_ field_list_ slice_info_))) k
    = Ok (on_disk_definition known ds_ k).
Proof.
  unfold __init__. rewrite setup_fluid_aliases_unfold.
  set (s0 := mkState _ []).
  destruct (gallery_outcome s0) as [Hs _].
  destruct (get_aliases_gallery s0) as [[g|e] s1]; cbn [fst snd] in Hs;
    subst s1; [|discriminate].
  change (field_list (self s0)) with field_list_.
  destruct (sorted_field_list field_list_) as [fields|e] eqn:Hsort;
    [|discriminate].
  destruct (for_each fields (field_step (self s0) "gas" g) false s0)
    as [[tc'|e] s'] eqn:Hrun; [|discriminate].
  intros _ k Hin Hfl. cbn [snd].
  apply (@field_loop_passthrough (self s0) "gas" g fields
           (fun _ => False) false s0 tc' s' Hrun).
  - intros ? [].
  - right. split; [|exact Hfl].
    apply Permutation_in with (l := field_list_); [|exact Hin].
    symmetry. now apply sorted_field_list_perm.
Qed.

(** ** Datasets that are not curvilinear *)

Lemma contains_set_mono (r : FieldInfoContainer) (k k' : FieldKey)
    (v : DerivedField) :
  __contains__ r k' = true ->
  __contains__ (set_items (Dict.set FieldKey_eqb k v (items r)) r) k' = true.
Proof.
  intros Hin. destruct (FieldKey_eq_dec k' k) as [-> | Hne].
  - eapply contains_local. cbn [items set_items]. apply get_set_same.
  - now rewrite contains_set_other.
Qed.

Lemma alias_step_target (r : FieldInfoContainer) (ftype : string)
    (gallery : list string) (field : FieldKey) (alias_ : string)
    (to_convert : bool) (d : DerivedField) (s : State) (a' : string) :
  alias_target r alias_ = Ok a' ->
  __getitem__ (self s) field = Ok d ->
  exists tc',
    alias_step r ftype gallery field alias_ to_convert s
    = (Ok tc', snd (alias (Tup ftype a') field None s)).
Proof.
  intros Ht Hget.
  assert (Hcall : forall (a : string) (tc' : bool),
            (let (r0, s') := alias (Tup ftype a) field None s in
             match r0 with
             | Ok _ => (Ok tc', s')
             | Raise e => (Raise e, s')
             end) = (Ok tc', snd (alias (Tup ftype a) field None s))).
  { intros a tc'.
    destruct (@alias_tuple_keeps ftype a field None d s Hget) as [Hok _].
    destruct (alias (Tup ftype a) field None s) as [[[]|e] s1];
      [reflexivity | discriminate Hok]. }
  unfold alias_target in Ht. unfold alias_step.
  destruct (curvilinear r); cbv beta iota zeta.
  - rewrite set_to_convert_suffix_only.
    destruct (Py.str_in (Py.last2 alias_) ["_x"; "_y"; "_z"]).
    + unfold bind, lift, ret. rewrite Ht. exists true. apply Hcall.
    + injection Ht as <-. exists false. unfold bind, ret. apply Hcall.
  - injection Ht as <-. exists to_convert. unfold bind, ret. apply Hcall.
Qed.

Lemma alias_loop_renamed (r : FieldInfoContainer) (ftype : string)
    (gallery : list string) (field : FieldKey) (d : DerivedField)
    (rename : string -> string) (aliases : list string) :
  (forall a, alias_target r a = Ok (rename a)) ->
  forall tc s,
    __getitem__ (self s) field = Ok d ->
    exists tc' s',
      for_each aliases (alias_step r ftype gallery field) tc s
      = (Ok tc', s') /\
      keeps_present (self s) (self s') /\
      (forall a, In a aliases ->
         __contains__ (self s') (Tup ftype (rename a)) = true /\
         Dict.get FieldKey_eqb (Tup ftype (rename a)) (field_aliases (self s'))
         = Some field) /\
      (forall k, (forall a, In a aliases -> k <> Tup ftype (rename a)) ->
         Dict.get FieldKey_eqb k (field_aliases (self s'))
         = Dict.get FieldKey_eqb k (field_aliases (self s))).
Proof.
  intros Hren. induction aliases as [|a aliases IH]; intros tc s Hget.
  - exists tc, s. split; [reflexivity|]. split; [apply keeps_present_refl|].
    split; [intros ? [] | reflexivity].
  - destruct (@alias_step_target r ftype gallery field a tc d s (rename a)
                (Hren a) Hget) as [tc1 Hstep].
    rewrite for_each_cons, Hstep.
    destruct (@alias_tuple_keeps ftype (rename a) field None d s Hget)
      as [_ [Hk [Hin [Hfa _]]]].
    set (s1 := snd (alias (Tup ftype (rename a)) field None s)) in *.
    assert (Hget1 : __getitem__ (self s1) field = Ok d).
    { rewrite <- Hget. apply Hk.
      now apply getitem_ok_contains with (d := d). }
    destruct (IH tc1 s1 Hget1) as [tc' [s' [Hrun [Hk' [Hal Hother]]]]].
    exists tc', s'. split; [exact Hrun|].
    split; [eapply keeps_present_trans; eassumption|]. split.
    + intros a0 Ha0.
      destruct (in_dec string_dec (rename a0) (map rename aliases))
        as [Hrest | Hnot].
      * apply in_map_iff in Hrest as [a1 [Heq Ha1]]. rewrite <- Heq.
        now apply Hal.
      * destruct Ha0 as [<- | Ha0];
          [|exfalso; apply Hnot; now apply in_map].
        split.
        -- now apply (@keeps_present_contains _ _ _ Hk').
        -- rewrite Hother, Hfa; [apply get_set_same|].
           intros a' Ha' [= Heq]. apply Hnot. rewrite Heq. now apply in_map.
    + intros k Hk0. rewrite Hother, Hfa.
      * apply get_set_other. apply Hk0. now left.
      * intros a' Ha'. apply Hk0. now right.
Qed.

Lemma field_loop_renamed (r : FieldInfoContainer) (ftype : string)
    (gallery : list string) (rename : string -> string)
    (all : list FieldKey) :
  (forall a, alias_target r a = Ok (rename a)) ->
  forall fields,
    incl fields all ->
    forall (A : string -> Prop) tc s tc' s',
      for_each fields (field_step r ftype gallery) tc s = (Ok tc', s') ->
      aliases_recorded ftype rename all r A (self s) ->
      aliases_recorded ftype rename all r
        (fun a => A a \/
                  exists f, In f fields /\
                            declares (known_other_fields r) (ds r) f a)
        (self s').
Proof.
  intros Hren. induction fields as [|f fields IH];
    intros Hincl A tc s tc' s' Hrun HA.
  - injection Hrun as _ <-.
    intros a [Ha | [f [[] _]]]. now apply HA.
  - assert (Hincl' : incl fields all)
      by (intros x Hx; apply Hincl; now right).
    assert (Hfall : In f all) by (apply Hincl; now left).
    rewrite for_each_cons in Hrun.
    destruct (field_step r ftype gallery f tc s) as [[tc1|e] s1] eqn:Hstep;
      [|discriminate].
    assert (HA1 : aliases_recorded ftype rename all r
                    (fun a => A a \/
                              declares (known_other_fields r) (ds r) f a)
                    (self s1)).
    { destruct f as [b|c n]; [rewrite field_step_bare in Hstep; discriminate|].
      destruct (Py.str_in c (particle_types (ds r))) eqn:Hp.
      - rewrite (@field_step_particle r ftype gallery c n tc s Hp) in Hstep.
        injection Hstep as _ <-.
        intros a [Ha | [Hfl _]]; [now apply HA|].
        cbn [is_fluid] in Hfl. rewrite Hp in Hfl. discriminate.
      - destruct (@field_step_fluid r ftype gallery c n tc tc1 s s1 Hp Hstep)
          as [log' Heq].
        set (D := on_disk_definition (known_other_fields r) (ds r) (Tup c n))
          in *.
        set (s2 := mkState
                     (set_items (Dict.set FieldKey_eqb (Tup c n) D
                                   (items (self s))) (self s)) log') in *.
        assert (Hget : __getitem__ (self s2) (Tup c n) = Ok D)
          by apply getitem_set_items_same.
        destruct (@alias_loop_renamed r ftype gallery (Tup c n) D rename
                    (aliases_of (known_get (known_other_fields r) n)) Hren
                    tc s2 Hget) as [tc1' [s1' [Hrun' [Hk [Hal Hother]]]]].
        rewrite Heq in Hrun'. injection Hrun' as _ <-.
        intros a Ha.
        destruct (in_dec string_dec (rename a)
                    (map rename
                       (aliases_of (known_get (known_other_fields r) n))))
          as [Hdecl | Hnot].
        + apply in_map_iff in Hdecl as [a1 [Heq1 Ha1]].
          destruct (Hal a1 Ha1) as [Hin Hfa]. rewrite Heq1 in Hin, Hfa.
          split; [exact Hin|].
          exists (Tup c n), a1. split; [exact Hfa|]. split; [exact Hfall|].
          split; [|exact Heq1]. split; [|exact Ha1].
          cbn [is_fluid]. now rewrite Hp.
        + destruct Ha as [Ha | [_ Hdecl]];
            [|exfalso; apply Hnot; now apply in_map].
          destruct (HA a Ha) as [Hin [g [a1 [Hfa Hg]]]]. split.
          * apply (@keeps_present_contains _ _ _ Hk). subst s2. cbn [self].
            now apply contains_set_mono.
          * exists g, a1. split; [|exact Hg].
            rewrite Hother; [exact Hfa|].
            intros a' Ha' [= Heq']. apply Hnot. rewrite Heq'.
            now apply in_map. }
    pose proof (IH Hincl' _ tc1 s1 tc' s' Hrun HA1) as HA'.
    intros a Ha. apply HA'.
    destruct Ha as [Ha | [f' [[<- | Hin] Hd]]]; eauto.
Qed.

(** The constructor that returns, when every alias has a name to be
    registered under. *)
Lemma init_renamed (known : list (string * KnownField)) (ds_ : Dataset)
    (field_list_ : list FieldKey) (slice_info_ : option nat)
    (rename : string -> string) :
  (forall a,
     alias_target
       (mkFieldInfoContainer [] None known [] ds_ field_list_ slice_info_
          [] [] (geometry_is_curvilinear ds_)) a = Ok (rename a)) ->
  let out := __init__ known ds_ field_list_ slice_info_ in
  fst out = Ok tt ->
  forall f a, In f field_list_ -> declares known ds_ f a ->
    __contains__ (self (snd out)) (Tup "gas" (rename a)) = true /\
    exists g a',
      Dict.get FieldKey_eqb (Tup "gas" (rename a))
        (field_aliases (self (snd out))) = Some g /\
      In g field_list_ /\ declares known ds_ g a' /\ rename a' = rename a.
Proof.
  intros Hren out. subst out.
  unfold __init__. rewrite setup_fluid_aliases_unfold.
  set (s0 := mkState _ []).
  destruct (gallery_outcome s0) as [Hs _].
  destruct (get_aliases_gallery s0) as [[g|e] s1]; cbn [fst snd] in Hs;
    subst s1; [|discriminate].
  change (field_list (self s0)) with field_list_.
  destruct (sorted_field_list field_list_) as [fields|e] eqn:Hsort;
    [|discriminate].
  pose proof (sorted_field_list_perm _ Hsort) as Hperm.
  destruct (for_each fields (field_step (self s0) "gas" g) false s0)
    as [[tc'|e] s'] eqn:Hrun; [|discriminate].
  intros _ f a Hf Hd. cbn [snd].
  assert (Hincl : incl fields field_list_).
  { intros k Hk. now apply (Permutation_in _ Hperm). }
  apply (@field_loop_renamed (self s0) "gas" g rename field_list_ Hren
           fields Hincl (fun _ => False) false s0 tc' s' Hrun).
  - intros ? [].
  - right. exists f. split; [|exact Hd].
    apply Permutation_in with (l := field_list_); [now symmetry | exact Hf].
Qed.

(** X15.  On a dataset that is not curvilinear, when the constructor
    returns, each alias the catalog declares for an on-disk fluid field is
    registered under the type gas and recorded in [field_aliases] for an
    on-disk field that declares it. *)
Theorem cartesian_setup_registers_aliases
    (known : list (string * KnownField)) (ds_ : Dataset)
    (field_list_ : list FieldKey) (slice_info_ : option nat) :
  geometry_is_curvilinear ds_ = false ->
  let out := __init__ known ds_ field_list_ slice_info_ in
  fst out = Ok tt ->
  forall f a, In f field_list_ -> declares known ds_ f a ->
    __contains__ (self (snd out)) (Tup "gas" a) = true /\
    exists g,
      Dict.get FieldKey_eqb (Tup "gas" a) (field_aliases (self (snd out)))
      = Some g /\
      In g field_list_ /\ declares known ds_ g a.
Proof.
  intros Hgeo out Hok f a Hf Hd. subst out.
  destruct (@init_renamed known ds_ field_list_ slice_info_ (fun a => a))
    with (f := f) (a := a)
    as [Hin [g [a' [Hfa [Hg [Hd' Heq]]]]]]; try assumption.
  - intros a0. unfold alias_target. cbn [curvilinear]. now rewrite Hgeo.
  - split; [exact Hin|]. exists g. subst a'. auto.
Qed.

(** X30.  On a curvilinear dataset with three axes, when the constructor
    returns, each alias the catalog declares for an on-disk fluid field is
    registered under the name it has after the axes: a name that ends in
    [_x], [_y] or [_z] takes the first, second or third axis name for its
    last letter, whether or not the catalog declares its siblings, and any
    other name is kept. *)
Theorem curvilinear_setup_renames_aliases
    (known : list (string * KnownField)) (ds_ : Dataset)
    (field_list_ : list FieldKey) (slice_info_ : option nat)
    (a0 a1 a2 : string) (more : list string) :
  geometry_is_curvilinear ds_ = true ->
  axis_order ds_ = a0 :: a1 :: a2 :: more ->
  let out := __init__ known ds_ field_list_ slice_info_ in
  fst out = Ok tt ->
  forall f a, In f field_list_ -> declares known ds_ f a ->
    __contains__ (self (snd out)) (Tup "gas" (rename_after a0 a1 a2 a)) = true.
Proof.
  intros Hgeo Hax out Hok f a Hf Hd. subst out.
  destruct (@init_renamed known ds_ field_list_ slice_info_
              (rename_after a0 a1 a2)) with (f := f) (a := a)
    as [Hin _]; try assumption.
  intros a3. unfold alias_target, convert_alias, rename_after.
  cbn [curvilinear ds]. rewrite Hgeo, Hax.
  unfold Py.str_in. cbn [existsb axis_name nth_error].
  destruct (Py.last2 a3 =? "_x"); [reflexivity|].
  destruct (Py.last2 a3 =? "_y"); [reflexivity|].
  destruct (Py.last2 a3 =? "_z"); reflexivity.
Qed.



(* ===================================================================== *)
(** * Repeated aliases and forced registrations *)
(* ===================================================================== *)

(** X16.  Two aliases under one fresh tuple name: the registry keeps the
    translation to the first original, since [add_field] never overwrites
    without the override flag, while [field_aliases] records the second
    one. *)
Theorem repeated_alias_keeps_first (c a : string) (o1 o2 : FieldKey)
    (d1 d2 : DerivedField) (s : State) :
  __getitem__ (self s) o1 = Ok d1 ->
  __getitem__ (self s) o2 = Ok d2 ->
  __contains__ (self s) (Tup c a) = false ->
  let out := (alias (Tup c a) o1 None ;;; alias (Tup c a) o2 None) s in
  fst out = Ok tt /\
  (exists d, __getitem__ (self (snd out)) (Tup c a) = Ok d /\
             df_function d = TranslationFunc o1 /\
             df_sampling_type d = df_sampling_type d1) /\
  Dict.get FieldKey_eqb (Tup c a) (field_aliases (self (snd out))) = Some o2.
Proof.
  intros H1 H2 Hfree out. subst out. unfold bind.
  rewrite (@alias_tuple_state c a o1 None d1 s H1). cbv zeta. rewrite Hfree.
  match goal with
  | |- context [alias (Tup c a) o2 None ?st] => set (s1 := st)
  end.
  assert (Hin1 : __contains__ (self s1) (Tup c a) = true).
  { eapply contains_local. subst s1. cbn [self items set_items].
    apply get_set_same. }
  assert (Ho2 : __getitem__ (self s1) o2 = Ok d2).
  { rewrite <- H2. subst s1. cbn [self].
    apply getitem_ext; [|reflexivity]. cbn [items set_items set_field_aliases].
    apply get_set_other. intros ->.
    rewrite (getitem_ok_contains _ _ H2) in Hfree. discriminate. }
  rewrite (@alias_tuple_state c a o2 None d2 s1 Ho2). cbv zeta.
  rewrite Hin1. cbn [fst snd self]. split; [reflexivity|]. split.
  - eexists. split; [|split].
    + apply getitem_local. subst s1.
      cbn [self items set_items set_field_aliases]. apply get_set_same.
    + reflexivity.
    + reflexivity.
  - cbn [field_aliases set_field_aliases]. apply get_set_same.
Qed.

(** The state a forced registration leaves under a bare name that is
    already registered, the qualified identity being free. *)
Lemma add_field_bare_forced (n : string) (f : FieldFunction)
    (sampling_type : string) (kwargs : Kwargs) (s : State) :
  Py.str_in (Py.lower sampling_type) ["cell"; "particle"; "local"] = true ->
  kw_particle_type kwargs = false ->
  __contains__ (self s) (Bare n) = true ->
  let st := Py.lower sampling_type in
  let ftype := if st =? "particle" then "all"
               else default_fluid_type (ds (self s)) in
  __contains__ (self s) (Tup ftype n) = false ->
  add_field (Bare n) (Some f) sampling_type true kwargs s
  = (Ok RNone,
     mkState
       (set_items
          (Dict.set FieldKey_eqb (Tup ftype n)
             (mkDerivedField (Tup ftype n) st f kwargs)
             (items (self s)))
          (set_field_aliases
             (Dict.set FieldKey_eqb (Bare n) (Tup ftype n)
                (field_aliases (self s)))
             (self s)))
       (mylog s)).
Proof.
  intros Hst Hpt Hbare st ftype Hfree.
  unfold add_field, recursion_limit.
  change 1000 with (S (S 998)). rewrite add_field_rec_S.
  unfold add_field_body at 1. unfold bind, gets. cbn [fst snd negb andb].
  rewrite Hpt, (sanitize_lower _ _ Hst). fold st.
  assert (Hft : (if st =? "particle" then ret "all"
                 else fun s0 => (Ok (default_fluid_type (ds (self s0))), s0)) s
                = (Ok ftype, s)).
  { subst ftype. now destruct (st =? "particle"). }
  rewrite Hft, Hfree. cbn [negb].
  unfold __setitem__, modify. cbn [fst snd self mylog].
  set (D1 := mkDerivedField (Tup ftype n) st f kwargs).
  set (s2 := mkState (set_items (Dict.set FieldKey_eqb (Tup ftype n) D1
                                   (items (self s))) (self s)) (mylog s)).
  assert (Hget : __getitem__ (self s2) (Tup ftype n) = Ok D1).
  { subst s2. cbn [self]. apply getitem_set_items_same. }
  rewrite (@alias_body_unfold _ _ _ None _ _ Hget). cbn zeta.
  rewrite add_field_rec_S.
  unfold add_field_body, bind, gets. cbn [fst snd self mylog negb andb].
  assert (Hbare2 : __contains__
                     (set_field_aliases
                        (Dict.set FieldKey_eqb (Bare n) (Tup ftype n)
                           (field_aliases (self s2))) (self s2)) (Bare n)
                   = true).
  { rewrite <- Hbare. subst s2. cbn [self].
    rewrite <- (@contains_set_other (self s) (Bare n) (Tup ftype n) D1)
      by discriminate.
    now apply contains_ext. }
  rewrite Hbare2. reflexivity.
Qed.

(** X17.  The override flag does not reach the alias.  A forced
    registration under a bare name that is already registered, with the
    qualified identity free, stores the new definition under the qualified
    identity only: the bare name keeps the definition it had, although
    [field_aliases] now maps it to the qualified identity. *)
Theorem override_does_not_reach_bare_name (n : string) (f : FieldFunction)
    (sampling_type : string) (kwargs : Kwargs) (s : State) :
  Py.str_in (Py.lower sampling_type) ["cell"; "particle"; "local"] = true ->
  kw_particle_type kwargs = false ->
  __contains__ (self s) (Bare n) = true ->
  let st := Py.lower sampling_type in
  let ftype := if st =? "particle" then "all"
               else default_fluid_type (ds (self s)) in
  __contains__ (self s) (Tup ftype n) = false ->
  let out := add_field (Bare n) (Some f) sampling_type true kwargs s in
  fst out = Ok RNone /\
  __getitem__ (self (snd out)) (Bare n) = __getitem__ (self s) (Bare n) /\
  __getitem__ (self (snd out)) (Tup ftype n)
  = Ok (mkDerivedField (Tup ftype n) st f kwargs) /\
  Dict.get FieldKey_eqb (Bare n) (field_aliases (self (snd out)))
  = Some (Tup ftype n).
Proof.
  intros Hst Hpt Hbare st ftype Hfree out. subst out.
  rewrite (@add_field_bare_forced n f sampling_type kwargs s
             Hst Hpt Hbare Hfree).
  fold st ftype. cbn [fst snd self]. split; [reflexivity|].
  split; [|split].
  - apply getitem_ext; [|reflexivity].
    cbn [items set_items set_field_aliases].
    apply get_set_other. discriminate.
  - apply getitem_local. cbn [items set_items set_field_aliases].
    apply get_set_same.
  - cbn [field_aliases set_items set_field_aliases]. apply get_set_same.
Qed.

(* ===================================================================== *)
(** * What the validation pass leaves *)
(* ===================================================================== *)

(** The loop of the pass changes the dictionary and the log only. *)
Lemma loop_attrs (l : list FieldKey) :
  forall acc s,
    self (snd (for_each l check_field acc s))
    = set_items (items (self (snd (for_each l check_field acc s)))) (self s).
Proof.
  induction l as [|x l IH]; intros [deps un] s.
  - cbn [for_each ret snd]. now rewrite set_items_same.
  - rewrite for_each_cons, check_field_verdict.
    assert (Hpop : forall s0 (acc1 : Deps * list FieldKey),
              self s0 = self s ->
              let out := match pop x s0 with
                         | (Ok _, s') => for_each l check_field acc1 s'
                         | (Raise e, s') => (Raise e, s')
                         end in
              self (snd out) = set_items (items (self (snd out))) (self s)).
    { intros s0 acc1 Hs0 out. subst out. unfold pop.
      destruct (Dict.get FieldKey_eqb x (items (self s0))).
      - rewrite IH at 1. cbn [self]. now rewrite Hs0.
      - cbn [snd]. now rewrite Hs0, set_items_same. }
    destruct (verdict (self s) x) as [fd| |entry|e].
    + rewrite IH at 1. reflexivity.
    + specialize (Hpop s (deps, un ++ [x]) eq_refl). cbv zeta in Hpop.
      destruct (pop x s) as [[?|?] ?]; exact Hpop.
    + specialize (Hpop (logged entry s) (deps, un) eq_refl).
      cbv zeta in Hpop.
      destruct (pop x (logged entry s)) as [[?|?] ?]; exact Hpop.
    + cbn [snd]. now rewrite set_items_same.
Qed.

Lemma publish_state (deps : Deps) (s : State) :
  publish deps s
  = (Ok tt,
     mkState
       (set_ds
          (set_derived_field_list
             (sorted_by_tupleize
                (set_union (derived_field_list (ds (self s))) (Dict.keys deps)))
             (ds (self s)))
          (self s))
       (mylog s)).
Proof. reflexivity. Qed.

Lemma sorted_by_tupleize_perm (l : list FieldKey) :
  Permutation (sorted_by_tupleize l) l.
Proof. exact (sorted_perm tupleize Py.tuple_ltb l). Qed.

Lemma In_published (old ks : list FieldKey) (k : FieldKey) :
  In k (sorted_by_tupleize (set_union old ks)) <-> In k old \/ In k ks.
Proof.
  split.
  - intros H. apply (Permutation_in _ (sorted_by_tupleize_perm _)) in H.
    unfold set_union, set_of in H. apply nodup_In in H.
    now apply in_app_or.
  - intros H.
    apply (Permutation_in _ (Permutation_sym (sorted_by_tupleize_perm _))).
    unfold set_union, set_of. apply nodup_In. now apply in_or_app.
Qed.

Lemma NoDup_published (old ks : list FieldKey) :
  NoDup (sorted_by_tupleize (set_union old ks)).
Proof.
  apply (Permutation_NoDup (Permutation_sym (sorted_by_tupleize_perm _))).
  apply NoDup_nodup.
Qed.

(** X18.  What a pass of [check_derived_fields] touches.  Whether it
    returns or raises, nothing of the registry but its dictionary and its
    dataset is changed; when it raises the dataset is as before too.  When
    it returns, the dataset differs in [derived_field_list] only, which
    then holds exactly the identities published before and the keys of
    [deps], each once, in the order of [tupleize]. *)
Theorem validation_publication (fields_to_check : option (list FieldKey))
    (s : State) :
  let out := check_derived_fields fields_to_check s in
  match fst out with
  | Ok (deps, unavailable) =>
      let dfl := derived_field_list (ds (self (snd out))) in
      self (snd out)
      = set_ds (set_derived_field_list dfl (ds (self s)))
          (set_items (items (self (snd out))) (self s)) /\
      (forall k, In k dfl <->
                 In k (derived_field_list (ds (self s))) \/
                 In k (Dict.keys deps)) /\
      NoDup dfl /\
      StronglySorted (key_le tupleize Py.tuple_ltb) dfl
  | Raise _ =>
      self (snd out) = set_items (items (self (snd out))) (self s)
  end.
Proof.
  intros out. subst out. unfold check_derived_fields, bind.
  pose proof (fields_or_keys_state fields_to_check s) as Hst.
  destruct (fields_or_keys fields_to_check s) as [[checked|e] s0];
    cbn [snd] in Hst; subst s0; [|cbn [fst snd]; now rewrite set_items_same].
  pose proof (loop_attrs checked ([], []) s) as Hattr.
  destruct (for_each checked check_field _ s) as [[[deps un]|e] s1];
    cbn [snd] in Hattr; [|exact Hattr].
  rewrite publish_state. unfold ret. cbn [fst snd self]. cbv zeta.
  assert (Hds : ds (self s1) = ds (self s)) by (rewrite Hattr; reflexivity).
  split; [|split; [|split]].
  - cbn [ds set_ds set_items derived_field_list set_derived_field_list items].
    rewrite Hds, <- Hattr. reflexivity.
  - intros k. cbn [ds set_ds derived_field_list set_derived_field_list].
    rewrite Hds. apply In_published.
  - cbn [ds set_ds derived_field_list set_derived_field_list].
    apply NoDup_published.
  - cbn [ds set_ds derived_field_list set_derived_field_list].
    apply sorted_by_tupleize_sorted.
Qed.

Lemma kept_is_satisfiable (r : FieldInfoContainer) (k : FieldKey)
    (fd : FieldDetector) :
  verdict r k = Kept fd ->
  NoDup (requested fd) /\
  forall f, In f (requested fd) -> key_in f (field_list r) = true.
Proof.
  unfold verdict.
  destruct (__getitem__ r k) as [fi|e]; [|discriminate].
  destruct (get_dependencies (ds r) fi) as [e|fd0].
  - destruct (key_in k (_show_field_errors r)); [discriminate|].
    destruct (is_YTFieldNotFound e); [discriminate|].
    destruct (_field_test_dataset (ds r)); discriminate.
  - destruct (forallb (fun f => key_in f (field_list r)) (requested fd0))
      eqn:Hall; [|discriminate].
    intros [= <-]. cbn [requested]. unfold set_of. split.
    + apply NoDup_nodup.
    + intros f Hf. apply nodup_In in Hf.
      rewrite forallb_forall in Hall. now apply Hall.
Qed.

(** X19.  What a returning pass returns, each field being checked once.
    Every entry of [deps] belongs to a checked field that is still
    registered with the definition it had, and its [requested] list has no
    repetition and names on-disk fields only.  Every field of
    [unavailable] was checked, has no entry in [deps] and is gone from the
    dictionary. *)
Theorem returned_deps_are_satisfiable
    (fields_to_check : option (list FieldKey)) (checked : list FieldKey)
    (s s' : State) (deps : Deps) (unavailable : list FieldKey) :
  fields_or_keys fields_to_check s = (Ok checked, s) ->
  NoDup checked ->
  check_derived_fields fields_to_check s = (Ok (deps, unavailable), s') ->
  (forall k fd, Dict.get FieldKey_eqb k deps = Some fd ->
     In k checked /\
     NoDup (requested fd) /\
     (forall f, In f (requested fd) ->
        key_in f (field_list (self s)) = true) /\
     __getitem__ (self s') k = __getitem__ (self s) k) /\
  (forall k, In k unavailable ->
     In k checked /\
     Dict.get FieldKey_eqb k deps = None /\
     Dict.get FieldKey_eqb k (items (self s')) = None).
Proof.
  intros Hsel Hnd Hrun.
  apply check_derived_fields_returns in Hrun
    as (checked' & s_loop & Hsel' & Hloop & ->).
  rewrite Hsel in Hsel'. injection Hsel' as <-.
  apply (loop_returns Hnd) in Hloop as (Hs & Hd & Hun & _ & _).
  rewrite publish_state. cbn [snd self].
  set (r := self s) in *.
  assert (Hitems : forall k,
            Dict.get FieldKey_eqb k (items (self s_loop))
            = if negb (key_in k checked) || is_kept r k
              then Dict.get FieldKey_eqb k (items r) else None).
  { intros k. rewrite Hs. cbn [items set_items]. unfold survivors.
    apply (get_filter (fun k => negb (key_in k checked) || is_kept r k)). }
  split.
  - intros k fd Hget. rewrite Hd, get_fold_record in Hget.
    destruct (key_in k checked) eqn:Hin; cbn [andb] in Hget;
      [|discriminate Hget].
    destruct (is_kept r k) eqn:Hkept; [|discriminate Hget].
    destruct (verdict r k) as [fd'| | |] eqn:Hv; try discriminate Hget.
    injection Hget as ->.
    split; [now apply key_in_In|].
    destruct (kept_is_satisfiable _ _ Hv) as [Hnd' Hreq].
    split; [exact Hnd'|]. split; [exact Hreq|].
    apply getitem_ext.
    + cbn [items set_ds]. rewrite Hitems, Hkept. now rewrite orb_true_r.
    + cbn [fallback set_ds]. now rewrite Hs.
  - intros k Hk. rewrite Hun in Hk. cbn [app] in Hk.
    apply filter_In in Hk as [Hin Hv].
    assert (Hkept : is_kept r k = false).
    { unfold is_kept. now destruct (verdict r k). }
    split; [exact Hin|]. split.
    + rewrite Hd. now rewrite get_fold_record_not_kept.
    + cbn [items set_ds]. rewrite Hitems, Hkept.
      assert (key_in k checked = true) as -> by now apply key_in_In.
      reflexivity.
Qed.

(** X20.  A field that only the fallback provides cannot be dropped:
    [pop] looks into the own dictionary alone.  When the pass has to drop
    such a field, because it requests a field that is not on disk or
    because its dry run raised an error that is swallowed, it ends in
    [KeyError] instead, with the registry as it was. *)
Theorem fallback_field_cannot_be_pruned (field : FieldKey) (fi : DerivedField)
    (acc : Deps * list FieldKey) (s : State) :
  absent field (self s) ->
  __getitem__ (self s) field = Ok fi ->
  match get_dependencies (ds (self s)) fi with
  | Detected fd =>
      forallb (fun f => key_in f (field_list (self s))) (requested fd) = false ->
      check_field field acc s = (Raise (KeyError (MissingKey field)), s)
  | Raises e =>
      key_in field (_show_field_errors (self s)) = false ->
      is_YTFieldNotFound e = true \/ _field_test_dataset (ds (self s)) = false ->
      fst (check_field field acc s) = Raise (KeyError (MissingKey field)) /\
      self (snd (check_field field acc s)) = self s
  end.
Proof.
  intros Habs Hget. destruct acc as [deps un].
  rewrite check_field_verdict. unfold verdict. rewrite Hget.
  destruct (get_dependencies (ds (self s)) fi) as [e|fd].
  - intros Hstrict Hsw. rewrite Hstrict.
    destruct (is_YTFieldNotFound e).
    + cbv beta iota. rewrite logged_nil. now rewrite (pop_absent _ _ Habs).
    + destruct Hsw as [Hsw | Hsw]; [discriminate|]. rewrite Hsw.
      cbv beta iota.
      now rewrite (@pop_absent field (logged _ s) Habs).
  - intros Hmiss. rewrite Hmiss. cbv beta iota.
    now rewrite (pop_absent _ _ Habs).
Qed.

(** ** The dependencies recorded on the dataset *)

Lemma keys_set (V : Type) (k : FieldKey) (v : V) (d : Dict.t FieldKey V) :
  Dict.keys (Dict.set FieldKey_eqb k v d)
  = if Dict.mem FieldKey_eqb k d then Dict.keys d else Dict.keys d ++ [k].
Proof.
  unfold Dict.keys, Dict.mem.
  induction d as [|[k' v'] d IH]; cbn; [reflexivity|].
  destruct (FieldKey_eqb k k'); [reflexivity|].
  cbn. rewrite IH. now destruct (Dict.get FieldKey_eqb k d).
Qed.

Lemma NoDup_keys_set (V : Type) (k : FieldKey) (v : V)
    (d : Dict.t FieldKey V) :
  NoDup (Dict.keys d) -> NoDup (Dict.keys (Dict.set FieldKey_eqb k v d)).
Proof.
  intros Hnd. rewrite keys_set.
  destruct (Dict.mem FieldKey_eqb k d) eqn:Hm; [exact Hnd|].
  apply NoDup_app; [exact Hnd | repeat constructor; tauto |].
  intros x Hx [<- | []].
  apply In_keys_get in Hx as [v' Hv]. unfold Dict.mem in Hm.
  now rewrite Hv in Hm.
Qed.

(** The keys of [deps] stay distinct along the loop. *)
Lemma loop_deps_NoDup (l : list FieldKey) :
  forall deps un s deps' un' s',
    for_each l check_field (deps, un) s = (Ok (deps', un'), s') ->
    NoDup (Dict.keys deps) -> NoDup (Dict.keys deps').
Proof.
  induction l as [|x l IH]; intros deps un s deps' un' s' Hrun Hnd.
  - now injection Hrun as <- _ _.
  - rewrite for_each_cons, check_field_verdict in Hrun.
    destruct (verdict (self s) x) as [fd| |entry|e].
    + eapply IH; [exact Hrun|]. now apply NoDup_keys_set.
    + destruct (pop x s) as [[?|?] ?]; [|discriminate]. eapply IH; eassumption.
    + destruct (pop x (logged entry s)) as [[?|?] ?]; [|discriminate].
      eapply IH; eassumption.
    + discriminate.
Qed.

Lemma get_dict_update (deps : Deps) :
  NoDup (Dict.keys deps) ->
  forall (d : Deps) k,
    Dict.get FieldKey_eqb k (dict_update d deps)
    = match Dict.get FieldKey_eqb k deps with
      | Some fd => Some fd
      | None => Dict.get FieldKey_eqb k d
      end.
Proof.
  unfold dict_update.
  induction deps as [|[k1 v1] deps IH]; intros Hnd d k; [reflexivity|].
  cbn [Dict.keys map fst] in Hnd. inversion Hnd as [|? ? Hnot Hnd']; subst.
  cbn [fold_left fst snd Dict.get]. rewrite (IH Hnd').
  destruct (FieldKey_eqb_spec k k1) as [-> | Hne].
  - destruct (Dict.get FieldKey_eqb k1 deps) as [v|] eqn:Hg.
    + exfalso. apply Hnot. now apply get_In_keys with (v := v).
    + apply get_set_same.
  - destruct (Dict.get FieldKey_eqb k deps); [reflexivity|].
    now apply get_set_other.
Qed.

(** X21.  [find_dependencies] is the pass over the loaded fields followed
    by the record of its result.  An error of the pass is passed on.
    Otherwise the list returned is the argument itself, pruned fields
    included; [field_dependencies] takes every entry of [deps] and keeps
    its other entries; the dictionary is the one the pass left; and the
    second publication adds no identity to [derived_field_list]. *)
Theorem find_dependencies_outcome (loaded : list FieldKey) (s : State) :
  match check_derived_fields (Some loaded) s with
  | (Raise e, s1) => find_dependencies loaded s = (Raise e, s1)
  | (Ok (deps, unavailable), s1) =>
      exists s2,
        find_dependencies loaded s = (Ok (loaded, unavailable), s2) /\
        items (self s2) = items (self s1) /\
        (forall k,
           Dict.get FieldKey_eqb k (field_dependencies (ds (self s2)))
           = match Dict.get FieldKey_eqb k deps with
             | Some fd => Some fd
             | None =>
                 Dict.get FieldKey_eqb k (field_dependencies (ds (self s)))
             end) /\
        (forall k, In k (derived_field_list (ds (self s2))) <->
                   In k (derived_field_list (ds (self s1))))
  end.
Proof.
  unfold find_dependencies, bind.
  destruct (check_derived_fields (Some loaded) s) as [[[deps un]|e] s1] eqn:Hrun;
    [|reflexivity].
  unfold modify. rewrite publish_state. unfold ret. cbn [fst snd self mylog].
  eexists. split; [reflexivity|]. cbn [self].
  pose proof Hrun as Hrun'.
  apply check_derived_fields_returns in Hrun'
    as (checked & s_loop & _ & Hloop & Hs1).
  pose proof (loop_attrs checked ([], []) s) as Hattr.
  rewrite Hloop in Hattr. cbn [snd] in Hattr.
  assert (Hnd : NoDup (Dict.keys deps)).
  { eapply loop_deps_NoDup; [exact Hloop | constructor]. }
  split; [reflexivity|]. split.
  - intros k. cbn [ds set_ds field_dependencies set_derived_field_list
                   set_field_dependencies].
    rewrite (@get_dict_update deps Hnd). subst s1. rewrite publish_state.
    cbn [snd self ds set_ds field_dependencies set_derived_field_list].
    now rewrite Hattr.
  - intros k. cbn [ds set_ds derived_field_list set_derived_field_list
                   set_field_dependencies].
    rewrite In_published. subst s1. rewrite publish_state.
    cbn [snd self ds set_ds derived_field_list set_derived_field_list].
    rewrite In_published. tauto.
Qed.

(** ** What a plugin is reported to have loaded *)

Lemma item_in_In (kv : FieldKey * DerivedField)
    (orig : list (FieldKey * DerivedField)) :
  item_in kv orig = true <-> In kv orig.
Proof.
  unfold item_in. rewrite existsb_exists. split.
  - intros [[k' v'] [Hin Heq]]. cbn [fst snd] in Heq.
    apply andb_true_iff in Heq as [Hk Hv].
    apply FieldKey_eqb_eq in Hk.
    destruct (DerivedField_eq_dec (snd kv) v') as [Hv'|]; [|discriminate].
    destruct kv as [k v]. cbn [fst snd] in *. now subst.
  - intros Hin. exists kv. split; [exact Hin|].
    rewrite FieldKey_eqb_refl.
    now destruct (DerivedField_eq_dec (snd kv) (snd kv)).
Qed.

(** X22.  [load_plugin] runs the routine on the registry with the type
    and the registry's [slice_info], and passes its error on.  The list it
    returns holds keys of the dictionary the routine left, so never a field
    the routine removed, and it holds every key that is new or that has
    another definition than before.  A name that is not in the table is a
    [KeyError] before anything is run; a name of the table stands for its
    routine. *)
Theorem load_plugin_reports (field_plugins : Dict.t string Plugin)
    (f : Plugin) (ftype : string) (s : State) :
  match f ftype (slice_info (self s)) s with
  | (Raise e, s1) =>
      load_plugin field_plugins (inl f) ftype s = (Raise e, s1)
  | (Ok _, s1) =>
      exists loaded,
        load_plugin field_plugins (inl f) ftype s = (Ok loaded, s1) /\
        (forall k, In k loaded -> In k (Dict.keys (items (self s1)))) /\
        (forall k v, In (k, v) (items (self s1)) ->
                     ~ In (k, v) (items (self s)) -> In k loaded)
  end /\
  forall n,
    load_plugin field_plugins (inr n) ftype s
    = match Dict.get String.eqb n field_plugins with
      | Some g => load_plugin field_plugins (inl g) ftype s
      | None => (Raise (KeyError (MissingName n)), s)
      end.
Proof.
  split.
  - unfold load_plugin, bind, gets, ret. cbn [fst snd].
    destruct (f ftype (slice_info (self s)) s) as [[[]|e] s1]; [|reflexivity].
    eexists. split; [reflexivity|]. split.
    + intros k Hk. apply in_map_iff in Hk as [[k' v] [<- Hin]].
      apply filter_In in Hin as [Hin _].
      unfold Dict.keys. now apply (in_map fst) in Hin.
    + intros k v Hin Hnew.
      change k with (fst (k, v)). apply in_map. apply filter_In.
      split; [exact Hin|].
      destruct (item_in (k, v) (items (self s))) eqn:Hi; [|reflexivity].
      apply item_in_In in Hi. contradiction.
  - intros n. unfold load_plugin, bind, ret, raise.
    destruct (Dict.get String.eqb n field_plugins); reflexivity.
Qed.

(* ===================================================================== *)
(** * The aliases of the index fields *)
(* ===================================================================== *)

Lemma index_names_loop (keys : list FieldKey) :
  forallb isinstance_tuple keys = true ->
  forall acc s,
    for_each keys index_name_step acc s = (Ok (acc ++ index_names keys), s).
Proof.
  induction keys as [|k keys IH]; intros Htup acc s.
  - cbn. now rewrite app_nil_r.
  - cbn [forallb] in Htup. apply andb_true_iff in Htup as [Hk Htup].
    destruct k as [b|t f]; [discriminate Hk|].
    rewrite for_each_cons. unfold index_name_step, bind, lift, ret.
    cbn [unpack2 fst snd index_names flat_map].
    destruct (t =? "index"); rewrite (IH Htup).
    + now rewrite <- app_assoc.
    + reflexivity.
Qed.

Lemma In_index_names (keys : list FieldKey) (f : string) :
  In f (index_names keys) <-> In (Tup "index" f) keys.
Proof.
  unfold index_names. rewrite in_flat_map. split.
  - intros [[b|t f'] [Hin Hf]]; [destruct Hf|].
    destruct (String.eqb_spec t "index") as [-> | Hne]; [|destruct Hf].
    destruct Hf as [<- | []]. exact Hin.
  - intros Hin. exists (Tup "index" f). split; [exact Hin|].
    rewrite String.eqb_refl. now left.
Qed.

Lemma unpack2_short (b : string) :
  length (Py.chars b) <> 2 ->
  exists msg, unpack2 (Bare b) = Raise (ValueError msg).
Proof.
  cbn [unpack2]. destruct (Py.chars b) as [|a [|c [|x l]]]; cbn [length];
    intros H; eauto. now destruct H.
Qed.

Lemma unpack2_raises (k : FieldKey) (e : Exc) :
  unpack2 k = Raise e -> exists msg, e = ValueError msg.
Proof.
  destruct k as [b|t f]; cbn [unpack2]; [|discriminate].
  destruct (Py.chars b) as [|a [|c [|x l]]]; try discriminate;
    intros [= <-]; eauto.
Qed.

(** The comprehension stops with [ValueError] at a bare key that does not
    have two characters, and never touches the state. *)
Lemma index_names_bare (keys : list FieldKey) (b : string) :
  In (Bare b) keys -> length (Py.chars b) <> 2 ->
  forall acc s,
    exists msg,
      for_each keys index_name_step acc s = (Raise (ValueError msg), s).
Proof.
  intros Hin Hlen.
  induction keys as [|k keys IH]; intros acc s; [destruct Hin|].
  rewrite for_each_cons. unfold index_name_step at 1. unfold bind, lift.
  destruct (FieldKey_eq_dec k (Bare b)) as [-> | Hne].
  - destruct (@unpack2_short b Hlen) as [msg ->]. now exists msg.
  - assert (Hin' : In (Bare b) keys) by (destruct Hin; congruence).
    destruct (unpack2 k) as [[t f]|e] eqn:Hu.
    + cbn [fst snd]. destruct (t =? "index"); apply (IH Hin').
    + destruct (unpack2_raises _ Hu) as [msg ->]. eauto.
Qed.

(** One pair of a fluid type and an index field. *)
Lemma index_alias_step_run (fluid_types : list string) (ftype f : string)
    (s0 s : State) :
  In ftype fluid_types ->
  __contains__ (self s0) (Tup "index" f) = true ->
  keeps_present (self s0) (self s) ->
  (forall k, __contains__ (self s0) k = false ->
             __contains__ (self s) k = true ->
             index_alias_of fluid_types (self s0) (self s) k) ->
  exists s',
    index_alias_step ftype f tt s = (Ok tt, s') /\
    keeps_present (self s) (self s') /\
    __contains__ (self s') (Tup ftype f) = true /\
    (forall k, __contains__ (self s0) k = false ->
               __contains__ (self s') k = true ->
               index_alias_of fluid_types (self s0) (self s') k).
Proof.
  intros Hft Hidx Hkeep Hnew.
  unfold index_alias_step, bind, gets. cbn [fst snd].
  destruct (__contains__ (self s) (Tup ftype f)) eqn:Hin.
  - exists s. split; [reflexivity|]. split; [apply keeps_present_refl|].
    split; [exact Hin | exact Hnew].
  - destruct (getitem_contains _ _ Hidx) as [d0 Hd0].
    assert (Hget : __getitem__ (self s) (Tup "index" f) = Ok d0).
    { rewrite <- Hd0. now apply Hkeep. }
    destruct (@alias_tuple_keeps ftype f (Tup "index" f) None d0 s Hget)
      as [Hok [Hk [Hin' _]]].
    pose proof (@alias_tuple_state ftype f (Tup "index" f) None d0 s Hget)
      as Hstate.
    destruct (alias (Tup ftype f) (Tup "index" f) None s) as [[[]|e] s']
      eqn:Hrun; [|discriminate Hok].
    cbn [snd] in Hk, Hin'. exists s'. split; [reflexivity|].
    split; [exact Hk|]. split; [exact Hin'|].
    intros k Hk0 Hk1.
    destruct (FieldKey_eq_dec k (Tup ftype f)) as [-> | Hne].
    + exists ftype, f.
      injection Hstate as ->. cbv zeta. rewrite Hin. cbn [self].
      eexists. split; [reflexivity|]. split; [exact Hft|].
      split; [exact Hidx|]. split.
      * apply getitem_local. cbn [items set_items]. apply get_set_same.
      * reflexivity.
    + assert (Hsame : __getitem__ (self s') k = __getitem__ (self s) k).
      { injection Hstate as ->. cbv zeta. rewrite Hin. cbn [self].
        apply getitem_ext; [|reflexivity].
        cbn [items set_items set_field_aliases]. now apply get_set_other. }
      assert (Hk1' : __contains__ (self s) k = true).
      { destruct (getitem_contains _ _ Hk1) as [d Hd].
        rewrite Hsame in Hd. now apply getitem_ok_contains with (d := d). }
      destruct (Hnew k Hk0 Hk1') as (t & f' & d & -> & Ht & Hi & Hg & Hf).
      exists t, f', d. repeat split; try assumption. now rewrite Hsame.
Qed.

(** The loop over the index fields, for one fluid type. *)
Lemma index_alias_loop (fluid_types : list string) (ftype : string)
    (s0 : State) (fields : list string) :
  In ftype fluid_types ->
  (forall f, In f fields -> __contains__ (self s0) (Tup "index" f) = true) ->
  forall s,
    keeps_present (self s0) (self s) ->
    (forall k, __contains__ (self s0) k = false ->
               __contains__ (self s) k = true ->
               index_alias_of fluid_types (self s0) (self s) k) ->
    exists s',
      for_each fields (index_alias_step ftype) tt s = (Ok tt, s') /\
      keeps_present (self s) (self s') /\
      (forall f, In f fields -> __contains__ (self s') (Tup ftype f) = true) /\
      (forall k, __contains__ (self s0) k = false ->
                 __contains__ (self s') k = true ->
                 index_alias_of fluid_types (self s0) (self s') k).
Proof.
  intros Hft. induction fields as [|f fields IH]; intros Hidx s Hkeep Hnew.
  - exists s. split; [reflexivity|]. split; [apply keeps_present_refl|].
    split; [intros ? [] | exact Hnew].
  - destruct (@index_alias_step_run fluid_types ftype f s0 s Hft
                (Hidx f (or_introl eq_refl)) Hkeep Hnew)
      as (s1 & Hstep & Hk1 & Hin1 & Hnew1).
    destruct (IH (fun f' H => Hidx f' (or_intror H)) s1
                 (keeps_present_trans Hkeep Hk1) Hnew1)
      as (s' & Hrun & Hk' & Hin' & Hnew').
    exists s'. rewrite for_each_cons, Hstep. split; [exact Hrun|].
    split; [eapply keeps_present_trans; eassumption|].
    split; [|exact Hnew'].
    intros f' [<- | Hf']; [|now apply Hin'].
    now apply (@keeps_present_contains _ _ _ Hk').
Qed.

(** The loop over the fluid types. *)
Lemma fluid_type_loop (fluid_types : list string) (s0 : State)
    (fields : list string) (types : list string) :
  incl types fluid_types ->
  (forall f, In f fields -> __contains__ (self s0) (Tup "index" f) = true) ->
  forall s,
    keeps_present (self s0) (self s) ->
    (forall k, __contains__ (self s0) k = false ->
               __contains__ (self s) k = true ->
               index_alias_of fluid_types (self s0) (self s) k) ->
    exists s',
      for_each types (fluid_type_step fields) tt s = (Ok tt, s') /\
      keeps_present (self s) (self s') /\
      (forall ftype f,
         In ftype types -> Py.str_in ftype ["index"; "deposit"] = false ->
         In f fields -> __contains__ (self s') (Tup ftype f) = true) /\
      (forall k, __contains__ (self s0) k = false ->
                 __contains__ (self s') k = true ->
                 index_alias_of fluid_types (self s0) (self s') k).
Proof.
  intros Hincl Hidx.
  induction types as [|t types IH]; intros s Hkeep Hnew.
  - exists s. split; [reflexivity|]. split; [apply keeps_present_refl|].
    split; [intros ? ? [] | exact Hnew].
  - assert (Hincl' : incl types fluid_types)
      by (intros x Hx; apply Hincl; now right).
    assert (Ht : In t fluid_types) by (apply Hincl; now left).
    assert (Hstep : exists s1,
              fluid_type_step fields t tt s = (Ok tt, s1) /\
              keeps_present (self s) (self s1) /\
              (Py.str_in t ["index"; "deposit"] = false ->
               forall f, In f fields ->
                         __contains__ (self s1) (Tup t f) = true) /\
              (forall k, __contains__ (self s0) k = false ->
                         __contains__ (self s1) k = true ->
                         index_alias_of fluid_types (self s0) (self s1) k)).
    { unfold fluid_type_step.
      destruct (Py.str_in t ["index"; "deposit"]).
      - exists s. split; [reflexivity|]. split; [apply keeps_present_refl|].
        split; [discriminate | exact Hnew].
      - destruct (@index_alias_loop fluid_types t s0 fields Ht Hidx s
                    Hkeep Hnew) as (s1 & Hrun & Hk1 & Hin1 & Hnew1).
        exists s1. split; [exact Hrun|]. split; [exact Hk1|].
        split; [intros _; exact Hin1 | exact Hnew1]. }
    destruct Hstep as (s1 & Hstep & Hk1 & Hin1 & Hnew1).
    destruct (IH Hincl' s1 (keeps_present_trans Hkeep Hk1) Hnew1)
      as (s' & Hrun & Hk' & Hin' & Hnew').
    exists s'. rewrite for_each_cons, Hstep. split; [exact Hrun|].
    split; [eapply keeps_present_trans; eassumption|].
    split; [|exact Hnew'].
    intros ftype f [<- | Hft] Hns Hf; [|now apply Hin'].
    apply (@keeps_present_contains _ _ _ Hk'). now apply Hin1.
Qed.

(** X23.  On a registry whose keys, the fallback's included, are all
    tuples, [setup_fluid_index_fields] returns; afterwards every index
    field is registered under every fluid type other than index and
    deposit; nothing that was registered is changed; and every identity it
    has added translates an index field to a fluid type. *)
Theorem index_fields_reach_every_fluid_type (fluid_types : list string)
    (s : State) :
  forallb isinstance_tuple (__iter__ (self s)) = true ->
  let out := setup_fluid_index_fields fluid_types s in
  fst out = Ok tt /\
  keeps_present (self s) (self (snd out)) /\
  (forall ftype f,
     In ftype fluid_types -> Py.str_in ftype ["index"; "deposit"] = false ->
     __contains__ (self s) (Tup "index" f) = true ->
     __contains__ (self (snd out)) (Tup ftype f) = true) /\
  (forall k, __contains__ (self s) k = false ->
             __contains__ (self (snd out)) k = true ->
             index_alias_of fluid_types (self s) (self (snd out)) k).
Proof.
  intros Htup out. subst out.
  unfold setup_fluid_index_fields, bind, gets, index_fields_of.
  cbn [fst snd]. rewrite (index_names_loop _ Htup). cbn [app].
  set (fields := nodup string_dec (index_names (__iter__ (self s)))).
  assert (Hfields : forall f, In f fields <->
                              __contains__ (self s) (Tup "index" f) = true).
  { intros f. subst fields. rewrite nodup_In, In_index_names.
    rewrite <- key_in_iter. symmetry. apply key_in_In. }
  destruct (@fluid_type_loop fluid_types s fields fluid_types
              (incl_refl _) (fun f Hf => proj1 (Hfields f) Hf) s
              (keeps_present_refl _))
    as (s' & Hrun & Hk & Hin & Hnew).
  { intros k H0 H1. congruence. }
  unfold alias_index_fields. rewrite Hrun. cbn [fst snd].
  split; [reflexivity|]. split; [exact Hk|]. split; [|exact Hnew].
  intros ftype f Hft Hns Hidx. apply Hin; try assumption.
  now apply Hfields.
Qed.

(** X24.  A bare string among the keys, the fallback's included, that
    does not have two characters (counted as Python counts them, a
    character of several bytes once) makes [setup_fluid_index_fields] fail
    with the [ValueError] of the unpacking, before anything is
    registered. *)
Theorem bare_key_stops_index_setup (fluid_types : list string) (b : string)
    (s : State) :
  In (Bare b) (__iter__ (self s)) ->
  length (Py.chars b) <> 2 ->
  exists msg,
    setup_fluid_index_fields fluid_types s = (Raise (ValueError msg), s).
Proof.
  intros Hin Hlen.
  unfold setup_fluid_index_fields, bind, gets, index_fields_of.
  cbn [fst snd].
  destruct (@index_names_bare (__iter__ (self s)) b Hin Hlen [] s)
    as [msg ->].
  now exists msg.
Qed.

(* ===================================================================== *)
(** * The sort key *)
(* ===================================================================== *)

(** X25.  [tupleize] gives two identities the same sort key exactly when
    they are equal or when one is a bare name and the other the tuple of
    the sentinel type ['?'] and that name; and it leaves tuples as they
    are. *)
Theorem tupleize_collisions (a b : FieldKey) :
  (tupleize a = tupleize b <->
   a = b \/
   exists n, (a = Bare n /\ b = Tup "?" n) \/ (a = Tup "?" n /\ b = Bare n)) /\
  (forall c n, tupleize (Tup c n) = (c, n)).
Proof.
  split; [|reflexivity].
  destruct a as [x|c n], b as [y|c' n']; cbn [tupleize]; split.
  - intros [= ->]. now left.
  - intros [[= ->] | [n [[_ H] | [H _]]]]; [reflexivity | discriminate..].
  - intros [= <- ->]. right. exists n'. now left.
  - intros [H | [n0 [[[= ->] [= -> ->]] | [H _]]]];
      [discriminate | reflexivity | discriminate].
  - intros [= -> ->]. right. exists y. now right.
  - intros [H | [n0 [[H _] | [[= -> ->] [= ->]]]]];
      [discriminate | discriminate | reflexivity].
  - intros [= -> ->]. now left.
  - intros [[= -> ->] | [n0 [[H _] | [_ H]]]]; [reflexivity | discriminate..].
Qed.

(* ===================================================================== *)
(** * The aliases of the smoothed particle fields *)
(* ===================================================================== *)

(** ** Assignments to keys that are present *)

Section SetFacts.
Variable V : Type.
Implicit Types (d : Dict.t FieldKey V) (k : FieldKey) (v : V).

Lemma mem_set k k' v d :
  Dict.mem FieldKey_eqb k' (Dict.set FieldKey_eqb k v d)
  = FieldKey_eqb k' k || Dict.mem FieldKey_eqb k' d.
Proof.
  unfold Dict.mem. destruct (FieldKey_eqb_spec k' k) as [-> | Hne].
  - now rewrite get_set_same.
  - now rewrite get_set_other.
Qed.

Lemma set_set_same k v v' d :
  Dict.set FieldKey_eqb k v' (Dict.set FieldKey_eqb k v d)
  = Dict.set FieldKey_eqb k v' d.
Proof.
  induction d as [|[k2 v2] d IH]; cbn.
  - now rewrite FieldKey_eqb_refl.
  - destruct (FieldKey_eqb k k2) eqn:E; cbn; rewrite E; [reflexivity|].
    now rewrite IH.
Qed.

Lemma set_set_comm k k1 v v1 d :
  k <> k1 ->
  Dict.mem FieldKey_eqb k1 d = true ->
  Dict.set FieldKey_eqb k1 v1 (Dict.set FieldKey_eqb k v d)
  = Dict.set FieldKey_eqb k v (Dict.set FieldKey_eqb k1 v1 d).
Proof.
  intros Hne. unfold Dict.mem.
  induction d as [|[k2 v2] d IH]; cbn; [discriminate|].
  destruct (FieldKey_eqb_spec k k2) as [-> | Hk];
    destruct (FieldKey_eqb_spec k1 k2) as [-> | Hk1]; cbn.
  - contradiction.
  - intros _. rewrite FieldKey_eqb_refl.
    apply FieldKey_eqb_neq in Hk1. now rewrite Hk1.
  - intros _. rewrite FieldKey_eqb_refl.
    apply FieldKey_eqb_neq in Hk. now rewrite Hk.
  - intros Hm. apply FieldKey_eqb_neq in Hk, Hk1. rewrite Hk, Hk1.
    now rewrite IH.
Qed.

End SetFacts.

Lemma note_aliases_app (l1 l2 : list (FieldKey * FieldKey))
    (d : Dict.t FieldKey FieldKey) :
  note_aliases (l1 ++ l2) d = note_aliases l2 (note_aliases l1 d).
Proof. unfold note_aliases. apply fold_left_app. Qed.

Lemma mem_note_aliases (l : list (FieldKey * FieldKey)) :
  forall (d : Dict.t FieldKey FieldKey) k,
    Dict.mem FieldKey_eqb k (note_aliases l d)
    = key_in k (map fst l) || Dict.mem FieldKey_eqb k d.
Proof.
  induction l as [|[a o] l IH]; intros d k; [reflexivity|].
  cbn [note_aliases fold_left map fst snd].
  change (fold_left _ l ?x) with (note_aliases l x).
  rewrite IH, mem_set, key_in_cons.
  destruct (FieldKey_eqb k a), (key_in k (map fst l)),
    (Dict.mem FieldKey_eqb k d); reflexivity.
Qed.

(** Noting the same aliases again, after a note under [k], changes
    nothing that a note under [k] does not restore. *)
Lemma note_aliases_absorbs (k o : FieldKey) (l : list (FieldKey * FieldKey)) :
  forall d : Dict.t FieldKey FieldKey,
    (forall p, In p l -> Dict.mem FieldKey_eqb (fst p) d = true) ->
    Dict.set FieldKey_eqb k o (note_aliases l (Dict.set FieldKey_eqb k o d))
    = Dict.set FieldKey_eqb k o (note_aliases l d).
Proof.
  induction l as [|[a o1] l IH]; intros d Hin; [apply set_set_same|].
  cbn [note_aliases fold_left fst snd].
  change (fold_left _ l ?x) with (note_aliases l x).
  assert (Hrest : forall p, In p l ->
            Dict.mem FieldKey_eqb (fst p) (Dict.set FieldKey_eqb a o1 d) = true).
  { intros p Hp. rewrite mem_set, (Hin p (or_intror Hp)).
    apply orb_true_r. }
  destruct (FieldKey_eq_dec k a) as [<- | Hne].
  - now rewrite set_set_same.
  - rewrite (@set_set_comm _ k a o o1 d Hne (Hin (a, o1) (or_introl eq_refl))).
    now apply IH.
Qed.

Lemma note_aliases_idempotent (l : list (FieldKey * FieldKey)) :
  forall d : Dict.t FieldKey FieldKey,
    note_aliases l (note_aliases l d) = note_aliases l d.
Proof.
  induction l as [|[a o] l IH] using rev_ind; intros d; [reflexivity|].
  rewrite !note_aliases_app.
  cbn [note_aliases fold_left fst snd].
  change (fold_left _ l ?x) with (note_aliases l x).
  rewrite note_aliases_absorbs.
  - now rewrite IH.
  - intros p Hp. rewrite mem_note_aliases.
    assert (key_in (fst p) (map fst l) = true) as ->; [|reflexivity].
    apply key_in_In. now apply in_map.
Qed.

(** ** Runs of aliases *)

Lemma set_field_aliases_same (r : FieldInfoContainer) :
  set_field_aliases (field_aliases r) r = r.
Proof. now destruct r. Qed.

Lemma for_each_app (A B : Type) (body : A -> B -> M B) (l1 l2 : list A) :
  forall acc s,
    for_each (l1 ++ l2) body acc s
    = match for_each l1 body acc s with
      | (Ok acc', s') => for_each l2 body acc' s'
      | (Raise e, s') => (Raise e, s')
      end.
Proof.
  induction l1 as [|x l1 IH]; intros acc s; [reflexivity|].
  cbn [app]. rewrite !for_each_cons.
  destruct (body x acc s) as [[acc'|e] s']; [apply IH | reflexivity].
Qed.

(** A run of aliases under tuple names whose sources are all registered. *)
Lemma alias_run (l : list (FieldKey * FieldKey)) :
  forall s,
    (forall p, In p l ->
       isinstance_tuple (fst p) = true /\
       __contains__ (self s) (snd p) = true) ->
    exists s',
      for_each l alias_pair tt s = (Ok tt, s') /\
      keeps_present (self s) (self s') /\
      (forall p, In p l -> __contains__ (self s') (fst p) = true) /\
      field_aliases (self s')
      = note_aliases l (field_aliases (self s)) /\
      mylog s' = mylog s.
Proof.
  induction l as [|[a o] l IH]; intros s Hl.
  - exists s. split; [reflexivity|]. split; [apply keeps_present_refl|].
    split; [intros ? [] | split; reflexivity].
  - destruct (Hl (a, o) (or_introl eq_refl)) as [Ha Ho]. cbn [fst snd] in *.
    destruct a as [b|c n]; [discriminate Ha|].
    destruct (getitem_contains _ _ Ho) as [d Hd].
    destruct (@alias_tuple_keeps c n o None d s Hd)
      as [Hok [Hk [Hin [Hfa Hlog]]]].
    rewrite for_each_cons. unfold alias_pair at 1. cbn [fst snd].
    destruct (alias (Tup c n) o None s) as [[[]|e] s1]; [|discriminate Hok].
    cbn [snd] in Hk, Hin, Hfa, Hlog.
    destruct (IH s1) as (s' & Hrun & Hk' & Hin' & Hfa' & Hlog').
    { intros p Hp. destruct (Hl p (or_intror Hp)) as [Hp1 Hp2].
      split; [exact Hp1|]. now apply (@keeps_present_contains _ _ _ Hk). }
    exists s'. split; [exact Hrun|].
    split; [eapply keeps_present_trans; eassumption|].
    split; [|split].
    + intros p [<- | Hp]; [|now apply Hin'].
      now apply (@keeps_present_contains _ _ _ Hk').
    + rewrite Hfa', Hfa. reflexivity.
    + congruence.
Qed.

(** A run of aliases under names that are all registered only notes. *)
Lemma alias_run_present (l : list (FieldKey * FieldKey)) :
  forall s,
    (forall p, In p l ->
       isinstance_tuple (fst p) = true /\
       __contains__ (self s) (fst p) = true /\
       __contains__ (self s) (snd p) = true) ->
    for_each l alias_pair tt s
    = (Ok tt,
       mkState
         (set_field_aliases (note_aliases l (field_aliases (self s))) (self s))
         (mylog s)).
Proof.
  induction l as [|[a o] l IH]; intros s Hl.
  - cbn. rewrite set_field_aliases_same. now destruct s.
  - destruct (Hl (a, o) (or_introl eq_refl)) as [Ha [Hin Ho]].
    cbn [fst snd] in *.
    destruct a as [b|c n]; [discriminate Ha|].
    destruct (getitem_contains _ _ Ho) as [d Hd].
    rewrite for_each_cons. unfold alias_pair at 1. cbn [fst snd].
    rewrite (@alias_tuple_state c n o None d s Hd). cbv zeta. rewrite Hin.
    rewrite IH; [reflexivity|].
    intros p Hp. destruct (Hl p (or_intror Hp)) as [Hp1 [Hp2 Hp3]].
    cbn [self]. split; [exact Hp1|].
    split; [rewrite <- Hp2 | rewrite <- Hp3]; now apply contains_ext.
Qed.

(** Running the aliases of a list again changes nothing. *)
Lemma alias_run_again (l : list (FieldKey * FieldKey)) (s s1 : State) :
  (forall p, In p l ->
     isinstance_tuple (fst p) = true /\
     __contains__ (self s) (snd p) = true) ->
  for_each l alias_pair tt s = (Ok tt, s1) ->
  for_each l alias_pair tt s1 = (Ok tt, s1).
Proof.
  intros Hl Hrun.
  destruct (alias_run l s Hl) as (s' & Hrun' & Hk & Hin & Hfa & _).
  rewrite Hrun in Hrun'. injection Hrun' as <-.
  rewrite alias_run_present.
  - rewrite Hfa, note_aliases_idempotent, <- Hfa, set_field_aliases_same.
    now destruct s1.
  - intros p Hp. destruct (Hl p Hp) as [Hp1 Hp2].
    split; [exact Hp1|]. split; [now apply Hin|].
    now apply (@keeps_present_contains _ _ _ Hk).
Qed.

(** ** The loop over the keys *)

Lemma smoothed_pairs_cons (W : list string) (ptype ftype : string)
    (k : FieldKey) (keys : list FieldKey) :
  smoothed_pairs W ptype ftype (k :: keys)
  = smoothed_pairs W ptype ftype [k] ++ smoothed_pairs W ptype ftype keys.
Proof. unfold smoothed_pairs. cbn [flat_map]. now rewrite app_nil_r. Qed.

Lemma smoothed_pairs_good (W : list string) (ptype ftype : string)
    (keys : list FieldKey) (r : FieldInfoContainer) :
  (forall k, In k keys -> __contains__ r k = true) ->
  forall p, In p (smoothed_pairs W ptype ftype keys) ->
    isinstance_tuple (fst p) = true /\ __contains__ r (snd p) = true.
Proof.
  intros Hkeys p Hp. unfold smoothed_pairs in Hp.
  apply in_flat_map in Hp as [k [Hk Hp]].
  destruct k as [b|p2 name]; [destruct Hp|].
  destruct (String.eqb_spec p2 ptype) as [-> | Hne]; cbn [negb] in Hp;
    [|destruct Hp].
  destruct (negb (Py.str_in name W) && negb (String.prefix "particle_" name));
    [destruct Hp|].
  destruct Hp as [<- | [<- | []]]; cbn [fst snd isinstance_tuple];
    (split; [reflexivity | now apply Hkeys]).
Qed.

(** The nested loops leave what one run over all the pairs leaves. *)
Lemma smoothed_loop (W : list string) (ptype ftype : string) (s0 : State)
    (keys : list FieldKey) :
  forallb isinstance_tuple keys = true ->
  (forall k, In k keys -> __contains__ (self s0) k = true) ->
  forall acc s,
    (forall p, In p acc ->
       isinstance_tuple (fst p) = true /\
       __contains__ (self s0) (snd p) = true) ->
    for_each acc alias_pair tt s0 = (Ok tt, s) ->
    exists s',
      for_each keys (smoothed_step W ptype ftype) acc s
      = (Ok (acc ++ smoothed_pairs W ptype ftype keys), s') /\
      for_each (acc ++ smoothed_pairs W ptype ftype keys) alias_pair tt s0
      = (Ok tt, s').
Proof.
  induction keys as [|k keys IH]; intros Htup Hkeys acc s Hacc Hrun.
  - exists s. cbn [smoothed_pairs flat_map for_each ret].
    rewrite app_nil_r. now split.
  - cbn [forallb] in Htup. apply andb_true_iff in Htup as [Hk Htup].
    assert (Hkeys' : forall k', In k' keys -> __contains__ (self s0) k' = true)
      by (intros k' Hk'; apply Hkeys; now right).
    rewrite smoothed_pairs_cons, app_assoc.
    set (new := smoothed_pairs W ptype ftype [k]).
    assert (Hnew : forall p, In p (acc ++ new) ->
              isinstance_tuple (fst p) = true /\
              __contains__ (self s0) (snd p) = true).
    { intros p Hp. apply in_app_or in Hp as [Hp | Hp]; [now apply Hacc|].
      apply (@smoothed_pairs_good W ptype ftype [k] (self s0)); [|exact Hp].
      intros k' [<- | []]. apply Hkeys. now left. }
    destruct (alias_run (acc ++ new) s0 Hnew) as (s1 & Hrun1 & _).
    assert (Hfrom_s : for_each (acc ++ new) alias_pair tt s = (Ok tt, s1)).
    { rewrite for_each_app, (@alias_run_again acc s0 s Hacc Hrun).
      rewrite for_each_app, Hrun in Hrun1. exact Hrun1. }
    assert (Hstep : smoothed_step W ptype ftype k acc s
                    = (Ok (acc ++ new), s1)).
    { destruct k as [b|p2 name]; [discriminate Hk|].
      unfold smoothed_step, bind, lift, ret. cbn [unpack2 fst snd].
      subst new. unfold smoothed_pairs in *. cbn [flat_map] in *.
      rewrite app_nil_r in *.
      destruct (negb (p2 =? ptype)).
      - rewrite app_nil_r in *.
        rewrite (@alias_run_again acc s0 s Hacc Hrun) in Hfrom_s.
        now injection Hfrom_s as <-.
      - destruct (negb (Py.str_in name W)
                  && negb (String.prefix "particle_" name)).
        + rewrite app_nil_r in *.
        rewrite (@alias_run_again acc s0 s Hacc Hrun) in Hfrom_s.
          now injection Hfrom_s as <-.
        + rewrite <- app_assoc. cbn [app]. now rewrite Hfrom_s. }
    destruct (IH Htup Hkeys' (acc ++ new) s1 Hnew Hrun1) as (s' & Hloop & Hall).
    exists s'. rewrite for_each_cons, Hstep. now split.
Qed.

(** X26.  On a registry whose keys are all tuples and that holds
    [(ptype, "density")], with a dataset that has its SPH particle types,
    [setup_smoothed_fields] returns, and the aliases it runs again and
    again inside its loop leave exactly what one run over the collected
    pairs leaves, dictionary, [field_aliases] and log.  Without the
    density field or the particle types it returns at once. *)
Theorem smoothed_aliases_single_pass (W : list string) (has_sph_ptypes : bool)
    (ptype ftype : string) (s : State) :
  forallb isinstance_tuple (__iter__ (self s)) = true ->
  (if __contains__ (self s) (Tup ptype "density") && has_sph_ptypes
   then
     fst (setup_smoothed_fields W has_sph_ptypes ptype ftype s) = Ok tt /\
     setup_smoothed_fields W has_sph_ptypes ptype ftype s
     = for_each (smoothed_pairs W ptype ftype (__iter__ (self s)))
         alias_pair tt s
   else setup_smoothed_fields W has_sph_ptypes ptype ftype s = (Ok tt, s)).
Proof.
  intros Htup. unfold setup_smoothed_fields, bind, gets, ret. cbn [fst snd].
  destruct (__contains__ (self s) (Tup ptype "density")); [|reflexivity].
  destruct has_sph_ptypes; [|reflexivity]. cbn [negb orb andb].
  destruct (@smoothed_loop W ptype ftype s (__iter__ (self s)) Htup)
    with (acc := @nil (FieldKey * FieldKey)) (s := s)
    as (s' & Hloop & Hall).
  - intros k Hk. rewrite <- key_in_iter. now apply key_in_In.
  - intros ? [].
  - reflexivity.
  - cbn [app] in Hloop, Hall. rewrite Hloop, Hall. now split.
Qed.

(** X27.  After [setup_smoothed_fields] every field of the particle type
    whose name is whitelisted or starts with [particle_] is registered
    under its shortened name, both for the fluid type and for the particle
    type, and no definition that was registered has changed. *)
Theorem smoothed_fields_are_aliased (W : list string) (ptype ftype : string)
    (s : State) :
  forallb isinstance_tuple (__iter__ (self s)) = true ->
  __contains__ (self s) (Tup ptype "density") = true ->
  let out := setup_smoothed_fields W true ptype ftype s in
  fst out = Ok tt /\
  keeps_present (self s) (self (snd out)) /\
  (forall name,
     __contains__ (self s) (Tup ptype name) = true ->
     Py.str_in name W || String.prefix "particle_" name = true ->
     __contains__ (self (snd out)) (Tup ftype (uni_alias_name name)) = true /\
     __contains__ (self (snd out)) (Tup ptype (uni_alias_name name)) = true) /\
  mylog (snd out) = mylog s.
Proof.
  intros Htup Hden out. subst out.
  assert (Hkeys : forall k, In k (__iter__ (self s)) ->
                            __contains__ (self s) k = true).
  { intros k Hk. rewrite <- key_in_iter. now apply key_in_In. }
  unfold setup_smoothed_fields, bind, gets, ret. cbn [fst snd].
  rewrite Hden. cbn [negb orb].
  destruct (@smoothed_loop W ptype ftype s (__iter__ (self s)) Htup Hkeys)
    with (acc := @nil (FieldKey * FieldKey)) (s := s)
    as (s' & Hloop & Hall); [intros ? [] | reflexivity |].
  cbn [app] in Hloop, Hall. rewrite Hloop. cbn [fst snd].
  destruct (alias_run (smoothed_pairs W ptype ftype (__iter__ (self s))) s
              (smoothed_pairs_good W ptype ftype _ _ Hkeys))
    as (s1 & Hrun & Hk & Hin & _ & Hlog).
  rewrite Hall in Hrun. injection Hrun as <-.
  split; [reflexivity|]. split; [exact Hk|]. split; [|exact Hlog].
  intros name Hname Hel.
  assert (Hpairs : forall t,
            (t = ftype \/ t = ptype) ->
            In (Tup t (uni_alias_name name), Tup ptype name)
               (smoothed_pairs W ptype ftype (__iter__ (self s)))).
  { intros t Ht. unfold smoothed_pairs. apply in_flat_map.
    exists (Tup ptype name). split.
    - apply key_in_In. now rewrite key_in_iter.
    - rewrite String.eqb_refl. cbn [negb].
      assert (negb (Py.str_in name W)
              && negb (String.prefix "particle_" name) = false) as ->.
      { destruct (Py.str_in name W), (String.prefix "particle_" name);
          try reflexivity. discriminate Hel. }
      destruct Ht as [-> | ->]; [now left | right; now left]. }
  split.
  - exact (Hin _ (Hpairs ftype (or_introl eq_refl))).
  - exact (Hin _ (Hpairs ptype (or_intror eq_refl))).
Qed.

(* ===================================================================== *)
(** * The gallery and the plugin loop *)
(* ===================================================================== *)

(** X28.  For an on-disk list made of tuples the gallery is collected
    without an error and without a change of state.  It is empty when the
    dataset is not curvilinear, and otherwise holds exactly the aliases
    that the catalog declares for the on-disk fluid fields. *)
Theorem gallery_holds_declared_aliases (s : State) :
  forallb isinstance_tuple (field_list (self s)) = true ->
  exists gallery,
    get_aliases_gallery s = (Ok gallery, s) /\
    forall a,
      In a gallery <->
      curvilinear (self s) = true /\
      exists f, In f (field_list (self s)) /\
                declares (known_other_fields (self s)) (ds (self s)) f a.
Proof.
  intros Htup. rewrite get_aliases_gallery_unfold.
  destruct (curvilinear (self s)).
  - assert (Hsort : sorted_field_list (field_list (self s))
                    = Ok (Py.sorted FieldKey_ltb (field_list (self s)))).
    { unfold sorted_field_list. now rewrite Htup. }
    rewrite Hsort.
    pose proof (sorted_field_list_perm _ Hsort) as Hperm.
    rewrite gallery_loop_tuples.
    + eexists. split; [reflexivity|]. cbn [app]. intros a.
      rewrite in_flat_map. split.
      * intros [f [Hf Ha]]. split; [reflexivity|]. exists f.
        split; [now apply (Permutation_in _ Hperm)|].
        unfold gallery_of in Ha. unfold declares.
        destruct (is_fluid (ds (self s)) f); [now split | destruct Ha].
      * intros [_ [f [Hf [Hfl Ha]]]]. exists f.
        split; [now apply (Permutation_in _ (Permutation_sym Hperm))|].
        unfold gallery_of. now rewrite Hfl.
    + apply forallb_forall. intros k Hk.
      rewrite forallb_forall in Htup. apply Htup.
      now apply (Permutation_in _ Hperm).
  - exists []. split; [reflexivity|]. intros a. split; [intros [] |].
    intros [H _]. discriminate H.
Qed.

(** X29.  The record that [load_all_plugins] logs after a plugin carries
    the length of everything loaded so far, not the number of fields that
    this plugin has loaded: a run over [names ++ [n]] that returns is the
    run over [names], then the plugin [n], then a record with the length
    of the whole list, which is also the list returned. *)
Theorem load_loop_counts_cumulatively (field_plugins : Dict.t string Plugin)
    (names : list string) (n ftype : string) (s s' : State)
    (loaded : list FieldKey) :
  load_loop field_plugins (names ++ [n]) ftype s = (Ok loaded, s') ->
  exists before l s1 s2,
    load_loop field_plugins names ftype s = (Ok before, s1) /\
    load_plugin field_plugins (inr n) ftype s1 = (Ok l, s2) /\
    loaded = before ++ l /\
    s' = mkState (self s2)
           (mylog s2 ++ [Debug "Loaded %s (%s new fields)"
                           [LStr n; LNat (length loaded)]]).
Proof.
  unfold load_loop. rewrite for_each_app.
  destruct (for_each names _ [] s) as [[before|e] s1] eqn:Hloop;
    [|discriminate].
  rewrite for_each_cons. unfold bind at 1.
  destruct (load_plugin field_plugins (inr n) ftype s1) as [[l|e] s2]
    eqn:Hplug; [|discriminate].
  unfold bind, log, ret. cbn [for_each fst snd].
  intros [= <- <-]. exists before, l, s1, s2.
  split; [reflexivity|]. split; [exact Hplug|]. split; reflexivity.
Qed.

(* ===================================================================== *)
(** * Instances on the sample registries *)
(* ===================================================================== *)

Lemma alias_registers_translation_witness :
  let run := alias (Tup "gas" "rho") Sample.density None
               (mkState Sample.alone []) in
  fst run = Ok tt /\
  __getitem__ (self (snd run)) (Tup "gas" "rho")
  = Ok (mkDerivedField (Tup "gas" "rho") "cell"
          (TranslationFunc Sample.density)
          (mkKwargs (UStr "g") None false [])) /\
  Dict.get FieldKey_eqb (Tup "gas" "rho") (field_aliases (self (snd run)))
  = Some Sample.density /\
  (forall k, k <> Tup "gas" "rho" ->
     __getitem__ (self (snd run)) k = __getitem__ Sample.alone k) /\
  mylog (snd run) = [].
Proof.
  exact (@alias_registers_translation "gas" "rho" Sample.density None
           (Sample.field Sample.density NullFunc) (mkState Sample.alone [])
           eq_refl eq_refl).
Defined.

Lemma alias_never_overwrites_witness :
  let run := alias Sample.pressure Sample.density None
               (mkState Sample.R1 []) in
  fst run = Ok tt /\
  items (self (snd run)) = items Sample.R1 /\
  Dict.get FieldKey_eqb Sample.pressure (field_aliases (self (snd run)))
  = Some Sample.density /\
  mylog (snd run) = [].
Proof.
  exact (@alias_never_overwrites Sample.pressure Sample.density None
           (mkState Sample.R1 []) eq_refl eq_refl).
Defined.

Lemma sampling_type_is_checked_for_bare_names_only_witness :
  add_field (Bare "speed") (Some (Function 60)) "grid" false
    (Sample.kw "cm/s") (mkState Sample.alone [])
  = (Raise (ValueError "Invalid sampling type %s. Valid sampling types are %s"),
     mkState Sample.alone []) /\
  fst (add_field (Tup "gas" "speed") (Some (Function 60)) "grid" false
         (Sample.kw "cm/s") (mkState Sample.alone []))
  = Ok RNone /\
  __getitem__
    (self (snd (add_field (Tup "gas" "speed") (Some (Function 60)) "grid"
                  false (Sample.kw "cm/s") (mkState Sample.alone []))))
    (Tup "gas" "speed")
  = Ok (mkDerivedField (Tup "gas" "speed") "grid" (Function 60)
          (Sample.kw "cm/s")).
Proof.
  exact (@sampling_type_is_checked_for_bare_names_only "gas" "speed"
           (Function 60) "grid" false (Sample.kw "cm/s")
           (mkState Sample.alone []) eq_refl eq_refl eq_refl).
Defined.

Lemma bare_name_registers_qualified_identity_witness :
  let out := add_field (Bare "speed") (Some (Function 60)) "Cell" false
               (Sample.kw "cm/s") (mkState Sample.alone []) in
  fst out = Ok RNone /\
  __getitem__ (self (snd out)) (Tup "gas" "speed")
  = Ok (mkDerivedField (Tup "gas" "speed") "cell" (Function 60)
          (Sample.kw "cm/s")) /\
  __getitem__ (self (snd out)) (Bare "speed")
  = Ok (mkDerivedField (Bare "speed") "cell"
          (TranslationFunc (Tup "gas" "speed"))
          (mkKwargs (UStr "cm/s") None false [])) /\
  Dict.get FieldKey_eqb (Bare "speed") (field_aliases (self (snd out)))
  = Some (Tup "gas" "speed") /\
  (forall k, k <> Bare "speed" -> k <> Tup "gas" "speed" ->
     __getitem__ (self (snd out)) k = __getitem__ Sample.alone k) /\
  mylog (snd out) = [].
Proof.
  exact (@bare_name_registers_qualified_identity "speed" (Function 60) "Cell"
           false (Sample.kw "cm/s") (mkState Sample.alone [])
           eq_refl eq_refl eq_refl eq_refl).
Defined.

Lemma bare_name_beside_qualified_identity_witness :
  add_field (Bare "density") (Some (Function 62)) "cell" false
    (Sample.kw "g") (mkState Sample.alone [])
  = (Ok RNone,
     mkState
       (set_items
          (Dict.set FieldKey_eqb (Bare "density")
             (mkDerivedField (Bare "density") "cell" (Function 62)
                (Sample.kw "g"))
             (items Sample.alone))
          Sample.alone)
       []) /\
  __getitem__
    (self (snd (add_field (Bare "density") (Some (Function 62)) "cell" false
                  (Sample.kw "g") (mkState Sample.alone []))))
    (Tup "gas" "density")
  = __getitem__ Sample.alone (Tup "gas" "density").
Proof.
  exact (@bare_name_beside_qualified_identity "density" (Function 62) "cell"
           false (Sample.kw "g") (mkState Sample.alone [])
           eq_refl eq_refl eq_refl eq_refl).
Defined.


Lemma on_disk_fields_are_passthrough_witness :
  __getitem__
    (self (snd (__init__ Fixture.catalog Fixture.cartesian Fixture.on_disk
                  None)))
    (Tup "enzo" "Energy")
  = Ok (mkDerivedField (Tup "enzo" "Energy") "cell" NullFunc
          (mkKwargs (UStr "((erg)*2.0)") None false [])).
Proof.
  exact (@on_disk_fields_are_passthrough Fixture.catalog Fixture.cartesian
           Fixture.on_disk None eq_refl (Tup "enzo" "Energy")
           (or_introl eq_refl) eq_refl).
Defined.

Lemma cartesian_setup_registers_aliases_witness :
  fst (__init__ Fixture.catalog Fixture.cartesian Fixture.on_disk None)
  = Ok tt /\
  __contains__
    (self (snd (__init__ Fixture.catalog Fixture.cartesian Fixture.on_disk
                  None)))
    (Tup "gas" "rho") = true.
Proof.
  split; [reflexivity|].
  exact (proj1 (@cartesian_setup_registers_aliases Fixture.catalog
                  Fixture.cartesian Fixture.on_disk None eq_refl eq_refl
                  (Tup "enzo" "Density") "rho"
                  (or_intror (or_intror (or_introl eq_refl)))
                  (conj eq_refl (or_intror (or_introl eq_refl))))).
Defined.

Lemma repeated_alias_keeps_first_witness :
  let out := (alias (Tup "gas" "p") Sample.pressure None ;;;
              alias (Tup "gas" "p") Sample.density None)
               (mkState Sample.R2 []) in
  fst out = Ok tt /\
  (exists d, __getitem__ (self (snd out)) (Tup "gas" "p") = Ok d /\
             df_function d = TranslationFunc Sample.pressure /\
             df_sampling_type d = "cell") /\
  Dict.get FieldKey_eqb (Tup "gas" "p") (field_aliases (self (snd out)))
  = Some Sample.density.
Proof.
  exact (@repeated_alias_keeps_first "gas" "p" Sample.pressure Sample.density
           (Sample.field Sample.pressure (Function 20))
           (Sample.field Sample.density NullFunc)
           (mkState Sample.R2 []) eq_refl eq_refl eq_refl).
Defined.

Lemma override_does_not_reach_bare_name_witness :
  let out := add_field (Bare "temp") (Some (Function 61)) "cell" true
               (Sample.kw "K") Fixture.with_bare in
  fst out = Ok RNone /\
  __getitem__ (self (snd out)) (Bare "temp")
  = Ok (Sample.field (Bare "temp") (Function 40)) /\
  __getitem__ (self (snd out)) (Tup "gas" "temp")
  = Ok (mkDerivedField (Tup "gas" "temp") "cell" (Function 61)
          (Sample.kw "K")) /\
  Dict.get FieldKey_eqb (Bare "temp") (field_aliases (self (snd out)))
  = Some (Tup "gas" "temp").
Proof.
  exact (@override_does_not_reach_bare_name "temp" (Function 61) "cell"
           (Sample.kw "K") Fixture.with_bare eq_refl eq_refl eq_refl eq_refl).
Defined.

Lemma returned_deps_are_satisfiable_witness :
  let deps := [(Sample.density, mkFieldDetector [Tup "gas" "density"]);
               (Sample.pressure, mkFieldDetector [Tup "gas" "density"])] in
  let s' := snd (check_derived_fields None Sample.mixed) in
  (forall k fd, Dict.get FieldKey_eqb k deps = Some fd ->
     In k (Dict.keys Sample.mixed_items) /\
     NoDup (requested fd) /\
     (forall f, In f (requested fd) ->
        key_in f (field_list (self Sample.mixed)) = true) /\
     __getitem__ (self s') k = __getitem__ (self Sample.mixed) k) /\
  (forall k, In k [Sample.ghost] ->
     In k (Dict.keys Sample.mixed_items) /\
     Dict.get FieldKey_eqb k deps = None /\
     Dict.get FieldKey_eqb k (items (self s')) = None).
Proof.
  exact (@returned_deps_are_satisfiable None (Dict.keys Sample.mixed_items)
           Sample.mixed (snd (check_derived_fields None Sample.mixed))
           [(Sample.density, mkFieldDetector [Tup "gas" "density"]);
            (Sample.pressure, mkFieldDetector [Tup "gas" "density"])]
           [Sample.ghost] eq_refl NoDup_sample_keys eq_refl).
Defined.

Lemma fallback_field_cannot_be_pruned_witness :
  check_field Sample.ghost ([], []) Fixture.in_front
  = (Raise (KeyError (MissingKey Sample.ghost)), Fixture.in_front).
Proof.
  exact (@fallback_field_cannot_be_pruned Sample.ghost
           (Sample.field Sample.ghost (Function 1)) ([], []) Fixture.in_front
           eq_refl eq_refl eq_refl).
Defined.

Lemma index_fields_reach_every_fluid_type_witness :
  fst (setup_fluid_index_fields Fixture.fluid_types Fixture.indexed) = Ok tt /\
  __contains__
    (self (snd (setup_fluid_index_fields Fixture.fluid_types Fixture.indexed)))
    (Tup "enzo" "dx") = true.
Proof.
  destruct (@index_fields_reach_every_fluid_type Fixture.fluid_types
              Fixture.indexed eq_refl) as [Hok [_ [Hin _]]].
  split; [exact Hok|].
  exact (Hin "enzo" "dx" (or_intror (or_intror (or_intror (or_introl eq_refl))))
           eq_refl eq_refl).
Defined.

Lemma bare_key_stops_index_setup_witness :
  exists msg,
    setup_fluid_index_fields Fixture.fluid_types Fixture.with_bare_key
    = (Raise (ValueError msg), Fixture.with_bare_key).
Proof.
  apply (@bare_key_stops_index_setup Fixture.fluid_types "abc"
           Fixture.with_bare_key).
  - right. left. reflexivity.
  - discriminate.
Defined.

Lemma gallery_holds_declared_aliases_witness :
  exists gallery,
    get_aliases_gallery
      (mkState
         (mkFieldInfoContainer [] None Sample.known_pair [] Sample.spherical
            [Tup "enzo" "Foo"] None [] [] true) [])
    = (Ok gallery,
       mkState
         (mkFieldInfoContainer [] None Sample.known_pair [] Sample.spherical
            [Tup "enzo" "Foo"] None [] [] true) []) /\
    forall a,
      In a gallery <->
      true = true /\
      exists f, In f [Tup "enzo" "Foo"] /\
                declares Sample.known_pair Sample.spherical f a.
Proof.
  exact (@gallery_holds_declared_aliases
           (mkState
              (mkFieldInfoContainer [] None Sample.known_pair []
                 Sample.spherical [Tup "enzo" "Foo"] None [] [] true) [])
           eq_refl).
Defined.

Lemma load_loop_counts_cumulatively_witness :
  exists before l s1 s2,
    load_loop Sample.table_ab ["a_fields"] "gas" (mkState Sample.alone [])
    = (Ok before, s1) /\
    load_plugin Sample.table_ab (inr "b_fields") "gas" s1 = (Ok l, s2) /\
    [Tup "gas" "alpha"; Tup "gas" "beta"; Tup "gas" "gamma"; Bare "gamma"]
    = before ++ l /\
    snd (load_loop Sample.table_ab (["a_fields"] ++ ["b_fields"]) "gas"
           (mkState Sample.alone []))
    = mkState (self s2)
        (mylog s2 ++ [Debug "Loaded %s (%s new fields)"
                        [LStr "b_fields"; LNat 4]]).
Proof.
  exact (@load_loop_counts_cumulatively Sample.table_ab ["a_fields"]
           "b_fields" "gas" (mkState Sample.alone [])
           (snd (load_loop Sample.table_ab (["a_fields"] ++ ["b_fields"])
                   "gas" (mkState Sample.alone [])))
           [Tup "gas" "alpha"; Tup "gas" "beta"; Tup "gas" "gamma";
            Bare "gamma"]
           eq_refl).
Defined.

Lemma smoothed_aliases_single_pass_witness :
  fst (setup_smoothed_fields ["density"] true "io" "gas"
         (mkState
            (Sample.registry Sample.spherical
               [(Tup "io" "density",
                 Sample.field (Tup "io" "density") (Function 50));
                (Tup "io" "particle_mass",
                 Sample.field (Tup "io" "particle_mass") (Function 51))]
               None []) []))
  = Ok tt /\
  setup_smoothed_fields ["density"] true "io" "gas"
    (mkState
       (Sample.registry Sample.spherical
          [(Tup "io" "density",
            Sample.field (Tup "io" "density") (Function 50));
           (Tup "io" "particle_mass",
            Sample.field (Tup "io" "particle_mass") (Function 51))]
          None []) [])
  = for_each
      [(Tup "gas" "density", Tup "io" "density");
       (Tup "io" "density", Tup "io" "density");
       (Tup "gas" "mass", Tup "io" "particle_mass");
       (Tup "io" "mass", Tup "io" "particle_mass")]
      alias_pair tt
      (mkState
         (Sample.registry Sample.spherical
            [(Tup "io" "density",
              Sample.field (Tup "io" "density") (Function 50));
             (Tup "io" "particle_mass",
              Sample.field (Tup "io" "particle_mass") (Function 51))]
            None []) []).
Proof.
  exact (@smoothed_aliases_single_pass ["density"] true "io" "gas"
           (mkState
              (Sample.registry Sample.spherical
                 [(Tup "io" "density",
                   Sample.field (Tup "io" "density") (Function 50));
                  (Tup "io" "particle_mass",
                   Sample.field (Tup "io" "particle_mass") (Function 51))]
                 None []) [])
           eq_refl).
Defined.

Lemma smoothed_fields_are_aliased_witness :
  __contains__
    (self (snd (setup_smoothed_fields ["density"] true "io" "gas"
                  (mkState
                     (Sample.registry Sample.spherical
                        [(Tup "io" "density",
                          Sample.field (Tup "io" "density") (Function 50));
                         (Tup "io" "particle_mass",
                          Sample.field (Tup "io" "particle_mass")
                            (Function 51))]
                        None []) []))))
    (Tup "gas" "mass") = true.
Proof.
  destruct (@smoothed_fields_are_aliased ["density"] "io" "gas"
              (mkState
                 (Sample.registry Sample.spherical
                    [(Tup "io" "density",
                      Sample.field (Tup "io" "density") (Function 50));
                     (Tup "io" "particle_mass",
                      Sample.field (Tup "io" "particle_mass") (Function 51))]
                    None []) [])
              eq_refl eq_refl) as [_ [_ [Hin _]]].
  exact (proj1 (Hin "particle_mass" eq_refl eq_refl)).
Defined.

Lemma curvilinear_setup_renames_aliases_witness :
  fst (__init__ Sample.known_pair Sample.spherical [Tup "enzo" "Foo"] None)
  = Ok tt /\
  __contains__
    (self (snd (__init__ Sample.known_pair Sample.spherical
                  [Tup "enzo" "Foo"] None)))
    (Tup "gas" "foo_theta") = true.
Proof.
  split; [reflexivity|].
  exact (@curvilinear_setup_renames_aliases Sample.known_pair
           Sample.spherical [Tup "enzo" "Foo"] None "r" "theta" "phi" []
           eq_refl eq_refl eq_refl (Tup "enzo" "Foo") "foo_y"
           (or_introl eq_refl)
           (conj eq_refl (or_intror (or_introl eq_refl)))).
Defined.
